(** * SuperCard Pro flux images: the track loader, the flux iterator, the
    software PLL and the track decoder of [scp.c].

    The C functions are embedded as functions on an explicit session state.
    [unsigned] and [int] are 32 bits wide; the host is little-endian, so
    [le32toh] is the identity and [be16toh] swaps the two bytes of a cell. *)

From Stdlib Require Import ZArith Lia Bool.
From stdpp Require Import base option list gmap.

Local Open Scope Z_scope.

(** ** Machine integers *)

Module Int.

(** Value of an [unsigned] after reduction modulo 2^32. *)
Definition wrap_u (x : Z) : Z := x mod 2 ^ 32.

(** Value of an [int]: the two's-complement representative of [x]. *)
Definition wrap_s (x : Z) : Z := (x + 2 ^ 31) mod 2 ^ 32 - 2 ^ 31.

Definition uadd (a b : Z) : Z := wrap_u (a + b).
Definition umul (a b : Z) : Z := wrap_u (a * b).

Definition iadd (a b : Z) : Z := wrap_s (a + b).
Definition isub (a b : Z) : Z := wrap_s (a - b).
Definition imul (a b : Z) : Z := wrap_s (a * b).
(** C division truncates toward zero. *)
Definition idiv (a b : Z) : Z := wrap_s (Z.quot a b).

Definition in_int (x : Z) : Prop := - 2 ^ 31 <= x < 2 ^ 31.
Definition in_uint (x : Z) : Prop := 0 <= x < 2 ^ 32.

End Int.
Import Int.

(** ** Results of a C call *)

(** [Ok a]: the call returns; [Exit]: [err]/[errx] ended the process;
    [Undef]: an access outside an object; [Fuel]: the loop bound given to
    the model was reached before the C loop finished. *)
Inductive outcome (A : Type) : Type :=
| Ok (a : A)
| Exit
| Undef
| Fuel.
Arguments Ok {A} a.
Arguments Exit {A}.
Arguments Undef {A}.
Arguments Fuel {A}.

#[global] Instance outcome_ret : MRet outcome := λ A a, Ok a.
#[global] Instance outcome_bind : MBind outcome := λ A B f m,
  match m with
  | Ok a => f a
  | Exit => Exit
  | Undef => Undef
  | Fuel => Fuel
  end.

#[global] Instance outcome_fmap : FMap outcome := λ A B f m,
  match m with
  | Ok a => Ok (f a)
  | Exit => Exit
  | Undef => Undef
  | Fuel => Fuel
  end.

Definition returns {A} (m : outcome A) : bool :=
  match m with Ok _ => true | _ => false end.

(** ** The capture file behind [fd] *)

Inductive errno := EAGAIN | EINTR | EIO.

(** [content]: the bytes of the file; [pos]: the file offset; [seekable]:
    whether [lseek] works on the descriptor; [errs]: the errors the next
    calls of [read] fail with, in order, before reads succeed again. *)
Record file := {
  content : list Z;
  pos : Z;
  seekable : bool;
  errs : list errno
}.

Definition sys_lseek (f : file) (off : Z) : file * Z :=
  if seekable f
  then ({| content := content f; pos := off; seekable := true; errs := errs f |}, off)
  else (f, -1).

(** [read(fd, buf, count)]: an error, or the bytes delivered (none at
    end-of-file). *)
Definition sys_read (f : file) (count : Z) : file * (errno + list Z) :=
  match errs f with
  | e :: es =>
      ({| content := content f; pos := pos f; seekable := seekable f; errs := es |}, inl e)
  | [] =>
      let chunk := take (Z.to_nat count) (drop (Z.to_nat (pos f)) (content f)) in
      ({| content := content f; pos := pos f + Z.of_nat (length chunk);
          seekable := seekable f; errs := [] |}, inr chunk)
  end.

(** [read_exact]: [acc] is what has been stored at [buf] so far. *)
Fixpoint read_exact_loop (fuel : nat) (f : file) (acc : list Z) (count : Z)
  : outcome (file * list Z) :=
  if 0 <? count then
    match fuel with
    | O => Fuel
    | S fuel' =>
        match sys_read f count with
        | (f', inl e) =>
            match e with
            | EAGAIN | EINTR => read_exact_loop fuel' f' acc count
            | EIO => Exit
            end
        | (f', inr chunk) =>
            let done := Z.of_nat (length chunk) in
            if done =? 0
            then
              (* memset(_buf, 0, count); done = count; *)
              read_exact_loop fuel' f' (acc ++ replicate (Z.to_nat count) 0) (count - count)
            else read_exact_loop fuel' f' (acc ++ chunk) (count - done)
        end
    end
  else Ok (f, acc).

Definition read_exact (fuel : nat) (f : file) (count : Z) : outcome (file * list Z) :=
  read_exact_loop fuel f [] count.

(** ** scp.h *)

(** Modelled from the spec: [scp.h] is not among the sources. The container
    holds at most 5 revolutions and 168 track offsets. *)
Definition REV_MAX : Z := 5.
Definition TRACK_MAX : Z := 168.

Record disk_header := {
  sig : list Z;
  version : Z;
  disk_type : Z;
  nr_revolutions : Z;
  start_track : Z;
  end_track : Z;
  flags : Z;
  cell_width : Z;
  sides : Z;
  checksum : Z;
  track_offset : list Z
}.

Record rev_entry := {
  duration_25ns : Z;
  nr_samples : Z;
  offset : Z
}.

Record track_header := {
  trk_sig : list Z;
  track_nr : Z;
  rev : list rev_entry
}.

Abbreviation loc := positive.

(** The session. [heap] is the allocator's state ([dat] points into it) and
    [grants] its answer to a request: whether, with the heap as it is,
    [calloc] serves a request for that many cells or returns a null
    pointer. Neither is a member of the C struct. *)
Record scp_file_t := {
  fd : file;
  header : disk_header;
  track : track_header;
  dat : option loc;
  datsz : Z;
  index_ptr : list Z;
  iter_ptr : Z;
  iter_limit : Z;
  heap : gmap loc (list Z);
  grants : gmap loc (list Z) → Z → bool
}.

Definition set_fd (v : file) (s : scp_file_t) : scp_file_t :=
  {| fd := v; header := header s; track := track s; dat := dat s; datsz := datsz s;
     index_ptr := index_ptr s; iter_ptr := iter_ptr s; iter_limit := iter_limit s;
     heap := heap s; grants := grants s |}.
Definition set_track (v : track_header) (s : scp_file_t) : scp_file_t :=
  {| fd := fd s; header := header s; track := v; dat := dat s; datsz := datsz s;
     index_ptr := index_ptr s; iter_ptr := iter_ptr s; iter_limit := iter_limit s;
     heap := heap s; grants := grants s |}.
Definition set_dat (v : option loc) (s : scp_file_t) : scp_file_t :=
  {| fd := fd s; header := header s; track := track s; dat := v; datsz := datsz s;
     index_ptr := index_ptr s; iter_ptr := iter_ptr s; iter_limit := iter_limit s;
     heap := heap s; grants := grants s |}.
Definition set_datsz (v : Z) (s : scp_file_t) : scp_file_t :=
  {| fd := fd s; header := header s; track := track s; dat := dat s; datsz := v;
     index_ptr := index_ptr s; iter_ptr := iter_ptr s; iter_limit := iter_limit s;
     heap := heap s; grants := grants s |}.
Definition set_index_ptr (v : list Z) (s : scp_file_t) : scp_file_t :=
  {| fd := fd s; header := header s; track := track s; dat := dat s; datsz := datsz s;
     index_ptr := v; iter_ptr := iter_ptr s; iter_limit := iter_limit s;
     heap := heap s; grants := grants s |}.
Definition set_iter_ptr (v : Z) (s : scp_file_t) : scp_file_t :=
  {| fd := fd s; header := header s; track := track s; dat := dat s; datsz := datsz s;
     index_ptr := index_ptr s; iter_ptr := v; iter_limit := iter_limit s;
     heap := heap s; grants := grants s |}.
Definition set_iter_limit (v : Z) (s : scp_file_t) : scp_file_t :=
  {| fd := fd s; header := header s; track := track s; dat := dat s; datsz := datsz s;
     index_ptr := index_ptr s; iter_ptr := iter_ptr s; iter_limit := v;
     heap := heap s; grants := grants s |}.
Definition set_heap (v : gmap loc (list Z)) (s : scp_file_t) : scp_file_t :=
  {| fd := fd s; header := header s; track := track s; dat := dat s; datsz := datsz s;
     index_ptr := index_ptr s; iter_ptr := iter_ptr s; iter_limit := iter_limit s;
     heap := v; grants := grants s |}.

(** ** Byte order *)

(** A 32-bit little-endian field, as the host reads it from four bytes. *)
Definition load32 (b : list Z) : Z :=
  match b with
  | b0 :: b1 :: b2 :: b3 :: _ => b0 + 256 * b1 + 65536 * b2 + 16777216 * b3
  | _ => 0
  end.

(** A 16-bit cell, as the host reads it from two bytes. *)
Definition load16 (b0 b1 : Z) : Z := b0 + 256 * b1.

Definition le32toh (x : Z) : Z := x.
Definition be16toh (x : Z) : Z := (x mod 256) * 256 + (x / 256) mod 256.

Fixpoint cells_of_bytes (b : list Z) : list Z :=
  match b with
  | b0 :: b1 :: rest => load16 b0 b1 :: cells_of_bytes rest
  | _ => []
  end.

(** ** Accesses to the session's arrays *)

(** The cells of the buffer [dat] points to. *)
Definition dat_cells (s : scp_file_t) : option (list Z) :=
  p ← dat s; heap s !! p.

(** [sf->dat[i]] *)
Definition load_dat (s : scp_file_t) (i : Z) : outcome Z :=
  match dat_cells s with
  | Some cells =>
      match cells !! Z.to_nat i with
      | Some c => Ok c
      | None => Undef
      end
  | None => Undef
  end.

(** [sf->index_ptr[r]] *)
Definition load_index (s : scp_file_t) (r : Z) : outcome Z :=
  if (0 <=? r) && (r <? REV_MAX) then
    match index_ptr s !! Z.to_nat r with
    | Some v => Ok v
    | None => Undef
    end
  else Undef.

(** ** The flux iterator *)

Definition scp_reset (s : scp_file_t) : scp_file_t :=
  set_iter_limit 0 (set_iter_ptr 0 s).

(** What one pass through the body of the [for (;;)] of [scp_next_flux]
    ends with: a [return val], or the next pass with the new [val]. *)
Inductive flux_step :=
| Returned (v : Z)
| Again (val : Z).

(** The [if (sf->iter_ptr >= sf->iter_limit)] block at the head of the body. *)
Definition flux_restart (s : scp_file_t) (rv : Z) (val : Z) : outcome (scp_file_t * Z) :=
  if iter_limit s <=? iter_ptr s then
    lim ← load_index s rv;
    let s1 := set_iter_limit lim s in
    start ← (if rv =? 0 then Ok 0 else load_index s1 (rv - 1));
    Ok (set_iter_ptr start s1, 0)
  else Ok (s, val).

Definition flux_iter (s : scp_file_t) (rv : Z) (val : Z) : outcome (flux_step * scp_file_t) :=
  '(s1, val1) ← flux_restart s rv val;
  let i := iter_ptr s1 in
  c ← load_dat s1 i;
  let s2 := set_iter_ptr (uadd i 1) s1 in
  let t := be16toh c in
  if negb (t =? 0)
  then Ok (Returned (uadd val1 t), s2)
  else Ok (Again (uadd val1 0x10000), s2).

Fixpoint next_flux_loop (fuel : nat) (s : scp_file_t) (rv : Z) (val : Z)
  : outcome (Z * scp_file_t) :=
  match fuel with
  | O => Fuel
  | S fuel' =>
      r ← flux_iter s rv val;
      match r with
      | (Returned v, s') => Ok (v, s')
      | (Again val', s') => next_flux_loop fuel' s' rv val'
      end
  end.

Definition scp_next_flux (fuel : nat) (s : scp_file_t) (rv : Z) : outcome (Z * scp_file_t) :=
  next_flux_loop fuel s rv 0.

(** ** The allocator *)

(** [calloc(n, sizeof(uint16_t))]: a fresh block of [n] zero cells when the
    allocator [g] serves the request, a null pointer when it does not. *)
Definition calloc (g : gmap loc (list Z) → Z → bool) (h : gmap loc (list Z)) (n : Z)
  : gmap loc (list Z) * option loc :=
  if g h n then
    let p := fresh (dom h) in
    (<[p := replicate (Z.to_nat n) 0]> h, Some p)
  else (h, None).

Definition free (h : gmap loc (list Z)) (p : option loc) : gmap loc (list Z) :=
  match p with
  | Some l => delete l h
  | None => h
  end.

(** Stores [new] at [&sf->dat[i]]. *)
Definition store_dat (s : scp_file_t) (i : Z) (new : list Z) : outcome scp_file_t :=
  match dat s with
  | Some p =>
      match heap s !! p with
      | Some cells =>
          if i + Z.of_nat (length new) <=? Z.of_nat (length cells)
          then Ok (set_heap (<[p := take (Z.to_nat i) cells ++ new
                                     ++ drop (Z.to_nat i + length new) cells]> (heap s)) s)
          else Undef
      | None => Undef
      end
  | None => Undef
  end.

(** ** Opening and closing *)

Definition SCP : list Z := [83; 67; 80].
Definition TRK : list Z := [84; 82; 75].

Definition list_eqb (a b : list Z) : bool := bool_decide (a = b).

(** The bytes [4*i .. 4*i+3] of [b] as one 32-bit field, for [i < n]. *)
Definition load32s (n : nat) (b : list Z) : list Z :=
  (λ i : nat, load32 (drop (4 * i) b)) <$> seq 0 n.

(** Modelled from the spec: the layout of the header record of [scp.h],
    sixteen bytes followed by the 168 track offsets. *)
Definition parse_header (b : list Z) : disk_header :=
  {| sig := take 3 b;
     version := b !!! 3%nat;
     disk_type := b !!! 4%nat;
     nr_revolutions := b !!! 5%nat;
     start_track := b !!! 6%nat;
     end_track := b !!! 7%nat;
     flags := b !!! 8%nat;
     cell_width := b !!! 9%nat;
     sides := b !!! 10%nat;
     checksum := load32 (drop 12 b);
     track_offset := load32s (Z.to_nat TRACK_MAX) (drop 16 b) |}.

Definition sizeof_header : Z := 16 + 4 * TRACK_MAX.

Definition zero_track : track_header :=
  {| trk_sig := [0; 0; 0]; track_nr := 0;
     rev := replicate (Z.to_nat REV_MAX)
              {| duration_25ns := 0; nr_samples := 0; offset := 0 |} |}.

(** [scp_open]: [h] is the heap at the call and [g] the allocator's answers,
    [f] the file [open] yields ([None] when it cannot be opened). *)
Definition scp_open (fuel : nat) (h : gmap loc (list Z))
    (g : gmap loc (list Z) → Z → bool) (f : option file)
  : outcome (Z * scp_file_t) :=
  match f with
  | None => Exit
  | Some f =>
      '(f, b) ← read_exact fuel f sizeof_header;
      let hd := parse_header b in
      if negb (list_eqb (sig hd) SCP) then Exit
      else if (nr_revolutions hd =? 0) || (REV_MAX <? nr_revolutions hd) then Exit
      else if negb (cell_width hd =? 0) && negb (cell_width hd =? 16) then Exit
      else
        let hd := {| sig := sig hd; version := version hd; disk_type := disk_type hd;
                     nr_revolutions := nr_revolutions hd; start_track := start_track hd;
                     end_track := end_track hd; flags := flags hd;
                     cell_width := cell_width hd; sides := sides hd;
                     checksum := checksum hd;
                     track_offset := le32toh <$> track_offset hd |} in
        Ok (0, {| fd := f; header := hd; track := zero_track; dat := None; datsz := 0;
                  index_ptr := replicate (Z.to_nat REV_MAX) 0;
                  iter_ptr := 0; iter_limit := 0; heap := h; grants := g |})
  end.

Definition scp_close (s : scp_file_t) : scp_file_t :=
  match dat s with
  | Some p => set_dat None (set_heap (free (heap s) (Some p)) s)
  | None => s
  end.

(** ** Selecting a track *)

(** [sf->header.track_offset[tn]] *)
Definition load_track_offset (s : scp_file_t) (tn : Z) : outcome Z :=
  if (0 <=? tn) && (tn <? TRACK_MAX) then
    match track_offset (header s) !! Z.to_nat tn with
    | Some v => Ok v
    | None => Undef
    end
  else Undef.

(** The revolution entry held in the twelve bytes [b]. *)
Definition parse_rev (b : list Z) : rev_entry :=
  {| duration_25ns := load32 b;
     nr_samples := load32 (drop 4 b);
     offset := load32 (drop 8 b) |}.

(** [read_exact(fd, &sf->track, 4 + 12*R)] has delivered [b]: the head of
    the record is overwritten, the entries past [R] keep their value. *)
Definition store_track (t : track_header) (nrev : Z) (b : list Z) : outcome track_header :=
  if nrev <=? REV_MAX then
    Ok {| trk_sig := take 3 b;
          track_nr := b !!! 3%nat;
          rev := ((λ i : nat, parse_rev (drop (4 + 12 * i) b)) <$> seq 0 (Z.to_nat nrev))
                 ++ drop (Z.to_nat nrev) (rev t) |}
  else Undef.

(** Body of the first [for] of [scp_select_track]. *)
Definition convert_rev (tdh_offset : Z) (s : scp_file_t) (r : nat) : scp_file_t :=
  match rev (track s) !! r with
  | Some e =>
      let e' := {| duration_25ns := le32toh (duration_25ns e);
                   nr_samples := le32toh (nr_samples e);
                   offset := uadd tdh_offset (le32toh (offset e)) |} in
      let t := track s in
      let s := set_track {| trk_sig := trk_sig t; track_nr := track_nr t;
                            rev := <[r := e']> (rev t) |} s in
      set_datsz (uadd (datsz s) (nr_samples e')) s
  | None => s
  end.

(** Body of the second [for]; [inl s] stands for the [return -1] inside. *)
Definition read_rev (fuel : nat) (s : scp_file_t) (r : nat)
  : outcome (scp_file_t + scp_file_t) :=
  match rev (track s) !! r with
  | Some e =>
      let '(f, got) := sys_lseek (fd s) (offset e) in
      let s := set_fd f s in
      if negb (got =? offset e) then Ok (inl s)
      else
        '(f, b) ← read_exact fuel (fd s) (nr_samples e * 2);
        let s := set_fd f s in
        s ← (if nr_samples e =? 0 then Ok s else store_dat s (datsz s) (cells_of_bytes b));
        let s := set_datsz (uadd (datsz s) (nr_samples e)) s in
        Ok (inr (set_index_ptr (<[r := datsz s]> (index_ptr s)) s))
  | None => Undef
  end.

Fixpoint read_revs (fuel : nat) (s : scp_file_t) (rs : list nat)
  : outcome (scp_file_t + scp_file_t) :=
  match rs with
  | [] => Ok (inr s)
  | r :: rs' =>
      x ← read_rev fuel s r;
      match x with
      | inl s' => Ok (inl s')
      | inr s' => read_revs fuel s' rs'
      end
  end.

Definition scp_select_track (fuel : nat) (s : scp_file_t) (tn : Z)
  : outcome (Z * scp_file_t) :=
  (* Track already loaded? *)
  if bool_decide (is_Some (dat s)) && (track_nr (track s) =? tn) then Ok (0, s)
  else
    (* Free data from previous track. *)
    let s := set_heap (free (heap s) (dat s)) s in
    let s := set_dat None s in
    let s := set_datsz 0 s in
    (* Read track header. *)
    tdh_offset ← load_track_offset s tn;
    let '(f, got) := sys_lseek (fd s) tdh_offset in
    let s := set_fd f s in
    if negb (got =? tdh_offset) then Ok (-1, s)
    else
      let nrev := nr_revolutions (header s) in
      '(f, b) ← read_exact fuel (fd s) (4 + 12 * nrev);
      let s := set_fd f s in
      t ← store_track (track s) nrev b;
      let s := set_track t s in
      if negb (list_eqb (trk_sig (track s)) TRK) then Ok (-1, s)
      else if negb (track_nr (track s) =? tn) then Ok (-1, s)
      else
        let revs := seq 0 (Z.to_nat nrev) in
        let s := foldl (convert_rev tdh_offset) s revs in
        (* Allocate data. *)
        let '(h, p) := calloc (grants s) (heap s) (datsz s) in
        let s := set_dat p (set_heap h s) in
        if bool_decide (p = None) then Exit
        else
          (* Read data. *)
          let s := set_datsz 0 s in
          x ← read_revs fuel s revs;
          match x with
          | inl s' => Ok (-1, s')
          | inr s' => Ok (0, s')
          end.

(** ** The software PLL *)

Definition CLOCK_CENTRE : Z := 2000.
Definition CLOCK_MAX_ADJ : Z := 10.
Definition CLOCK_MIN (c : Z) : Z := idiv (imul c (isub 100 CLOCK_MAX_ADJ)) 100.
Definition CLOCK_MAX (c : Z) : Z := idiv (imul c (iadd 100 CLOCK_MAX_ADJ)) 100.
Definition PERIOD_ADJ_PCT : Z := 5.
Definition PHASE_ADJ_PCT : Z := 60.

(** [pll_t] without its pointer to the session, which is passed along. *)
Record pll_t := {
  pll_rev : Z;
  clock : Z;
  flux : Z;
  time : Z;
  clocked_zeros : Z
}.

Definition set_clock (v : Z) (p : pll_t) : pll_t :=
  {| pll_rev := pll_rev p; clock := v; flux := flux p; time := time p;
     clocked_zeros := clocked_zeros p |}.
Definition set_flux (v : Z) (p : pll_t) : pll_t :=
  {| pll_rev := pll_rev p; clock := clock p; flux := v; time := time p;
     clocked_zeros := clocked_zeros p |}.
Definition set_time (v : Z) (p : pll_t) : pll_t :=
  {| pll_rev := pll_rev p; clock := clock p; flux := flux p; time := v;
     clocked_zeros := clocked_zeros p |}.
Definition set_clocked_zeros (v : Z) (p : pll_t) : pll_t :=
  {| pll_rev := pll_rev p; clock := clock p; flux := flux p; time := time p;
     clocked_zeros := v |}.

Definition pll_init (rv : Z) : pll_t :=
  {| pll_rev := rv; clock := CLOCK_CENTRE; flux := 0; time := 0; clocked_zeros := 0 |}.

(** [pll->flux += 25 * scp_next_flux(...)] for the interval [v]: the product
    and the sum are unsigned, the result is converted back to [int]. *)
Definition add_flux (fl v : Z) : Z := wrap_s (uadd (wrap_u fl) (umul 25 v)).

(** The [while (pll->flux < pll->clock/2)] loop; [n] bounds its passes and
    [fuel] those of each [scp_next_flux]. *)
Fixpoint pll_accumulate (n fuel : nat) (p : pll_t) (s : scp_file_t)
  : outcome (pll_t * scp_file_t) :=
  if flux p <? idiv (clock p) 2 then
    match n with
    | O => Fuel
    | S n' =>
        '(v, s') ← scp_next_flux fuel s (wrap_u (pll_rev p));
        pll_accumulate n' fuel (set_flux (add_flux (flux p) v) p) s'
    end
  else Ok (p, s).

(** The rest of [pll_next_bit], after the loop. *)
Definition pll_clock_bit (p : pll_t) : Z * pll_t :=
  let p := set_time (iadd (time p) (clock p)) p in
  let p := set_flux (isub (flux p) (clock p)) p in
  if idiv (clock p) 2 <=? flux p then
    (0, set_clocked_zeros (iadd (clocked_zeros p) 1) p)
  else
    let p :=
      if clocked_zeros p <=? 3
      then set_clock (iadd (clock p) (idiv (imul (flux p) PERIOD_ADJ_PCT) 100)) p
      else set_clock (iadd (clock p)
                        (idiv (imul (isub CLOCK_CENTRE (clock p)) PERIOD_ADJ_PCT) 100)) p in
    let p := if clock p <? CLOCK_MIN CLOCK_CENTRE
             then set_clock (CLOCK_MIN CLOCK_CENTRE) p else p in
    let p := if CLOCK_MAX CLOCK_CENTRE <? clock p
             then set_clock (CLOCK_MAX CLOCK_CENTRE) p else p in
    let new_flux := idiv (imul (flux p) (isub 100 PHASE_ADJ_PCT)) 100 in
    let p := set_time (iadd (time p) (isub (flux p) new_flux)) p in
    let p := set_flux new_flux p in
    (1, set_clocked_zeros 0 p).

Definition pll_next_bit (fuel : nat) (p : pll_t) (s : scp_file_t)
  : outcome (Z * pll_t * scp_file_t) :=
  '(p, s) ← pll_accumulate fuel fuel p s;
  let '(bit, p) := pll_clock_bit p in
  Ok (bit, p, s).

(** ** The sink *)

(** Modelled from the spec: [mfm.h] and the MFM writer are not among the
    sources. The sink offers [reset], [write_halfbit], [write_byte] and the
    observable [last], the last bit written; the model records every cell
    handed over, newest first. *)
Module Mfm.

Inductive event := HalfBit (b : Z) | Byte (b : Z).

Record mfm_writer_t := {
  emitted : list event;
  last : Z
}.

Definition mfm_write_reset (w : mfm_writer_t) : mfm_writer_t :=
  {| emitted := emitted w; last := 0 |}.

Definition mfm_write_halfbit (w : mfm_writer_t) (b : Z) : mfm_writer_t :=
  {| emitted := HalfBit b :: emitted w; last := b |}.

Definition mfm_write_byte (w : mfm_writer_t) (b : Z) : mfm_writer_t :=
  {| emitted := Byte b :: emitted w; last := Z.land b 1 |}.

Definition is_halfbit (e : event) : bool :=
  match e with HalfBit _ => true | Byte _ => false end.

(** Number of half-bit cells the sink has received through [write_halfbit]. *)
Definition halfbits (w : mfm_writer_t) : Z :=
  Z.of_nat (length (filter (λ e, is_halfbit e = true) (emitted w))).

(** Number of bytes the sink has received through [write_byte]. *)
Definition bytes (w : mfm_writer_t) : Z :=
  Z.of_nat (length (filter (λ e, is_halfbit e = false) (emitted w))).

End Mfm.
Import Mfm.

(** ** Decoding the tracks *)

(** C's [!x]. *)
Definition lnot (x : Z) : Z := if x =? 0 then 1 else 0.

(** The [do ... while (sf.iter_ptr < sf.iter_limit)] loop. *)
Fixpoint decode_loop (iters fuel : nat) (p : pll_t) (s : scp_file_t)
    (w : mfm_writer_t) (n : Z) : outcome (Z * pll_t * scp_file_t * mfm_writer_t) :=
  match iters with
  | O => Fuel
  | S iters' =>
      '(halfbit, p, s) ← pll_next_bit fuel p s;
      let w := mfm_write_halfbit w halfbit in
      let n := iadd n 1 in
      if iter_ptr s <? iter_limit s
      then decode_loop iters' fuel p s w n
      else Ok (n, p, s, w)
  end.

(** The [while (n++ < 12800*8)] loop. *)
Fixpoint fill_loop (iters : nat) (w : mfm_writer_t) (n : Z) : outcome mfm_writer_t :=
  if n <? imul 12800 8 then
    match iters with
    | O => Fuel
    | S iters' =>
        let n := iadd n 1 in
        let w := mfm_write_halfbit w (lnot (last w)) in
        let again := n <? imul 12800 8 in
        let n := iadd n 1 in
        let w := if again then mfm_write_halfbit w (lnot (last w)) else w in
        fill_loop iters' w n
    end
  else Ok w.

(** The [else] branch of the track loop: the half-bits of the natural decode
    ([n] of them), then the fill. *)
Definition decode_natural (fuel : nat) (s : scp_file_t) (rv : Z) (w : mfm_writer_t)
  : outcome (Z * pll_t * scp_file_t * mfm_writer_t) :=
  let s := scp_reset s in
  let p := pll_init rv in
  '(_, p, s) ← pll_next_bit fuel p s;
  decode_loop fuel fuel p s w 0.

Definition decode_track (fuel : nat) (s : scp_file_t) (rv : Z) (w : mfm_writer_t)
  : outcome (mfm_writer_t * scp_file_t) :=
  '(n, _, s, w) ← decode_natural fuel s rv w;
  w ← fill_loop (Z.to_nat (imul 12800 8 - n)) w n;
  Ok (w, s).

(** The "empty track" branch: 6400 bytes of zero. *)
Definition empty_track (w : mfm_writer_t) : mfm_writer_t :=
  Nat.iter (Z.to_nat 6400) (λ w, mfm_write_byte w 0) w.

(** Body of the [for (tn = 0; tn < 160; tn++)] loop of [scp_write_mfm]. *)
Definition write_track (fuel : nat) (s : scp_file_t) (rv : Z) (w : mfm_writer_t) (tn : Z)
  : outcome (mfm_writer_t * scp_file_t) :=
  let w := mfm_write_reset w in
  if (tn <? start_track (header s)) || (end_track (header s) <=? tn)
  then Ok (empty_track w, s)
  else
    '(r, s) ← scp_select_track fuel s (wrap_u tn);
    if r <? 0 then Ok (empty_track w, s)
    else decode_track fuel s rv w.

Fixpoint write_tracks (fuel : nat) (s : scp_file_t) (rv : Z) (w : mfm_writer_t)
    (tns : list Z) : outcome (mfm_writer_t * scp_file_t) :=
  match tns with
  | [] => Ok (w, s)
  | tn :: tns' =>
      '(w, s) ← write_track fuel s rv w tn;
      write_tracks fuel s rv w tns'
  end.

Definition scp_write_mfm (fuel : nat) (h : gmap loc (list Z))
    (g : gmap loc (list Z) → Z → bool) (f : option file)
    (w : mfm_writer_t) (rv : Z) : outcome (mfm_writer_t * scp_file_t) :=
  '(_, s) ← scp_open fuel h g f;
  if nr_revolutions (header s) <=? rv then Exit
  else
    '(w, s) ← write_tracks fuel s rv w (Z.of_nat <$> seq 0 160);
    Ok (w, scp_close s).


(** ** Notions used in the statements *)

(** [be16toh(sf->dat[i])], when the buffer has a cell [i]. *)
Definition sample (s : scp_file_t) (i : Z) : option Z :=
  cells ← dat_cells s; c ← cells !! Z.to_nat i; Some (be16toh c).

(** The operand [25 * scp_next_flux(pll->sf, pll->rev)] of the sum in
    [pll_next_bit]: the interval handed to the PLL, in nanoseconds. *)
Definition flux_delivered (fuel : nat) (s : scp_file_t) (rv : Z) : outcome Z :=
  '(v, _) ← scp_next_flux fuel s rv; Ok (umul 25 v).

(** Start and end of the slice of revolution [rv] in the buffer. *)
Definition slice_start (s : scp_file_t) (rv : Z) : outcome Z :=
  if rv =? 0 then Ok 0 else load_index s (rv - 1).
Definition slice_end (s : scp_file_t) (rv : Z) : outcome Z :=
  load_index s rv.

(** The cursor is as [scp_reset] leaves it, or lies in the slice [lo .. hi]
    with [hi] as its limit. *)
Definition cursor_ok (s : scp_file_t) (lo hi : Z) : Prop :=
  (iter_ptr s = 0 ∧ iter_limit s = 0)
  ∨ (iter_limit s = hi ∧ lo <= iter_ptr s <= hi).

(** The limit in force is the end [hi] of the slice and the cursor is inside
    the slice, or the cursor is at or past the limit in force, which is the
    test of [scp_next_flux] for a restart. *)
Definition in_slice (s : scp_file_t) (lo hi : Z) : Prop :=
  iter_limit s <= iter_ptr s ∨ (iter_limit s = hi ∧ lo <= iter_ptr s < hi).

(** The heap [h'] gives the cells [lo .. hi) of the buffer as the heap of the
    session does; whatever else it holds, the other cells of the buffer
    included, is free. *)
Definition slice_agree (s : scp_file_t) (h' : gmap loc (list Z)) (lo hi : Z) : Prop :=
  ∀ i, lo <= i < hi → load_dat (set_heap h' s) i = load_dat s i.

(** [s'] is [s] with the cursor and its limit moved. *)
Definition cursor_moved (s s' : scp_file_t) : Prop :=
  s' = set_iter_limit (iter_limit s') (set_iter_ptr (iter_ptr s') s).

(** [n] successive calls of [scp_next_flux] for revolution [rv] and the
    values they return. *)
Fixpoint next_fluxes (n fuel : nat) (s : scp_file_t) (rv : Z)
  : outcome (list Z * scp_file_t) :=
  match n with
  | O => Ok ([], s)
  | S n' =>
      '(v, s) ← scp_next_flux fuel s rv;
      '(vs, s) ← next_fluxes n' fuel s rv;
      Ok (v :: vs, s)
  end.

(** [n] successive calls of [pll_next_bit] and the bits they return. *)
Fixpoint pll_bits (n fuel : nat) (p : pll_t) (s : scp_file_t)
  : outcome (list Z * pll_t * scp_file_t) :=
  match n with
  | O => Ok ([], p, s)
  | S n' =>
      '(b, p, s) ← pll_next_bit fuel p s;
      '(bs, p, s) ← pll_bits n' fuel p s;
      Ok (b :: bs, p, s)
  end.

(** The band of the clock period: 2000 ns, ten per cent either way. *)
Definition clock_in_band (p : pll_t) : Prop := 1800 <= clock p <= 2200.

(** ** The bit decoder as the specification words it *)

(** One call of [next_bit] as section 4.3 of the specification prescribes
    it, step by step, on 32-bit signed integers ([÷] truncates toward
    zero); it is compared with [pll_next_bit] below. *)
Module Spec43.

Definition clamp (lo hi x : Z) : Z := Z.max lo (Z.min hi x).

(** Step 2, accumulate: while [flux < clock/2], add [25 * next_flux]. *)
Fixpoint accumulate (n fuel : nat) (rv ck fl : Z) (s : scp_file_t)
  : outcome (Z * scp_file_t) :=
  if fl <? ck ÷ 2 then
    match n with
    | O => Fuel
    | S n' =>
        '(v, s') ← scp_next_flux fuel s rv;
        accumulate n' fuel rv ck (wrap_s (fl + 25 * v)) s'
    end
  else Ok (fl, s).

(** Steps 3 to 5 on the state [(clock, flux, time, clocked_zeros)]. *)
Definition classify (ck fl tm zs : Z) : Z * (Z * Z * Z * Z) :=
  let tm := wrap_s (tm + ck) in
  let fl := wrap_s (fl - ck) in
  if ck ÷ 2 <=? fl then (0, (ck, fl, tm, wrap_s (zs + 1)))
  else
    let ck :=
      if zs <=? 3
      then wrap_s (ck + wrap_s (fl * 5) ÷ 100)
      else wrap_s (ck + wrap_s (wrap_s (2000 - ck) * 5) ÷ 100) in
    let ck := clamp 1800 2200 ck in
    let new_flux := wrap_s (fl * 40) ÷ 100 in
    (1, (ck, new_flux, wrap_s (tm + wrap_s (fl - new_flux)), 0)).

Definition next_bit (fuel : nat) (p : pll_t) (s : scp_file_t)
  : outcome (Z * pll_t * scp_file_t) :=
  '(fl, s) ← accumulate fuel fuel (pll_rev p) (clock p) (flux p) s;
  let '(bit, (ck, fl, tm, zs)) := classify (clock p) fl (time p) (clocked_zeros p) in
  Ok (bit, {| pll_rev := pll_rev p; clock := ck; flux := fl; time := tm;
              clocked_zeros := zs |}, s).

End Spec43.

(** The buffer holds every cell of the slice [lo .. hi). *)
Definition slice_readable (s : scp_file_t) (lo hi : Z) : Prop :=
  ∀ i, lo <= i < hi → is_Some (sample s i).

(** Some sample of the slice is not zero. *)
Definition slice_has_flux (s : scp_file_t) (lo hi : Z) : Prop :=
  ∃ j, lo <= j < hi ∧ sample s j ≠ Some 0.

(** No [K] consecutive cells of the slice are all zero. *)
Definition carry_below (K : Z) (s : scp_file_t) (lo hi : Z) : Prop :=
  ∀ i, lo <= i → i + K <= hi → ∃ j, i <= j < i + K ∧ sample s j ≠ Some 0.

(** One pass of the [while] loop of [pll_next_bit]: its body
    [pll->flux += 25 * scp_next_flux(pll->sf, pll->rev)]. *)
Definition pll_pass (fuel : nat) (p : pll_t) (s : scp_file_t) : outcome (pll_t * scp_file_t) :=
  '(v, s') ← scp_next_flux fuel s (wrap_u (pll_rev p));
  Ok (set_flux (add_flux (flux p) v) p, s').

(** An error of [read] after which [read_exact] tries again. *)
Definition transient (e : errno) : bool :=
  match e with
  | EAGAIN | EINTR => true
  | EIO => false
  end.

(** The bytes of the file from its offset on. *)
Definition remaining (f : file) : list Z := drop (Z.to_nat (pos f)) (content f).

(** The file once [m] more bytes have been read and no error is pending. *)
Definition advanced (f : file) (m : Z) : file :=
  {| content := content f; pos := pos f + m; seekable := seekable f; errs := [] |}.

(** The session keeps the index array [ix], in which revolution [rv] spans
    the slice [lo .. hi). *)
Definition slice_of (rv lo hi : Z) (ix : list Z) (s : scp_file_t) : Prop :=
  index_ptr s = ix ∧ slice_start s rv = Ok lo ∧ slice_end s rv = Ok hi.

(** The sessions the iterator moves through from [s0]: the buffer and the
    index of [s0], and a cursor that is fresh or inside the slice. *)
Definition live (rv lo hi : Z) (ix : list Z) (s0 s : scp_file_t) : Prop :=
  slice_of rv lo hi ix s ∧ dat_cells s = dat_cells s0 ∧ cursor_ok s lo hi.

(** The PLL locked on the centre period, with no residue. *)
Definition steady (p : pll_t) : Prop :=
  clock p = 2000 ∧ flux p = 0 ∧ clocked_zeros p = 0 ∧ pll_rev p = 0.

(** What the two loops of [scp_select_track] leave alone: the buffer
    pointer, and the signature and number of the track record. *)
Definition same_track (s s' : scp_file_t) : Prop :=
  dat s' = dat s
  ∧ trk_sig (track s') = trk_sig (track s)
  ∧ track_nr (track s') = track_nr (track s).

(** Every non-zero sample of the slice lasts at least 62 ticks (1550 ns), so
    that one interval brings [flux] from any residue up to half a clock. *)
Definition slice_paced (s : scp_file_t) (lo hi : Z) : Prop :=
  ∀ i v, lo <= i < hi → sample s i = Some v → v = 0 ∨ 62 <= v.

(** The last sample of the slice is not a carry. *)
Definition slice_closed (s : scp_file_t) (hi : Z) : Prop :=
  sample s (hi - 1) ≠ Some 0.

(** The PLL between two calls: the clock in its band, the residue [flux]
    above -440, and the revolution [rv]. *)
Definition pll_ok (rv : Z) (p : pll_t) : Prop :=
  clock_in_band p ∧ -440 <= flux p < 2 ^ 31 ∧ wrap_u (pll_rev p) = rv.

(** ** Notions used in the further properties *)

(** *** Reading and opening *)

(** The [n] bytes of the file from its offset on, with zeros after its end. *)
Definition file_bytes (f : file) (n : Z) : list Z :=
  take (Z.to_nat n) (remaining f ++ replicate (Z.to_nat n) 0).

(** Every element is the value of a byte. *)
Definition bytes_ok (l : list Z) : Prop := Forall (λ b, 0 <= b < 256) l.

(** What [scp_open] accepts. *)
Definition header_valid (hd : disk_header) : bool :=
  list_eqb (sig hd) SCP
  && negb ((nr_revolutions hd =? 0) || (REV_MAX <? nr_revolutions hd))
  && ((cell_width hd =? 0) || (cell_width hd =? 16)).

(** The session [scp_open] returns with. *)
Definition opened_session (h : gmap loc (list Z))
    (g : gmap loc (list Z) → Z → bool) (f : file) : scp_file_t :=
  {| fd := advanced f (Z.min sizeof_header (Z.of_nat (length (remaining f))));
     header := parse_header (file_bytes f sizeof_header);
     track := zero_track; dat := None; datsz := 0;
     index_ptr := replicate (Z.to_nat REV_MAX) 0;
     iter_ptr := 0; iter_limit := 0; heap := h; grants := g |}.

(** *** Loading a track, in full *)

(** The [n] bytes of the content [c] from the offset [off] on, with zeros
    after its end. *)
Definition content_bytes (c : list Z) (off n : Z) : list Z :=
  take (Z.to_nat n) (drop (Z.to_nat off) c ++ replicate (Z.to_nat n) 0).

(** A revolution entry in host order, its offset counted from the start of
    the file: what the first loop of [scp_select_track] makes of an entry. *)
Definition conv_rev (off : Z) (e : rev_entry) : rev_entry :=
  {| duration_25ns := le32toh (duration_25ns e);
     nr_samples := le32toh (nr_samples e);
     offset := uadd off (le32toh (offset e)) |}.

(** Entry [i] of the track record found at [off] in a capture of [nrev]
    revolutions, as stored and as converted. *)
Definition raw_entry (c : list Z) (off nrev : Z) (i : nat) : rev_entry :=
  parse_rev (drop (4 + 12 * i) (content_bytes c off (4 + 12 * nrev))).
Definition entry (c : list Z) (off nrev : Z) (i : nat) : rev_entry :=
  conv_rev off (raw_entry c off nrev i).

(** The cells of the revolution described by [e]: its sample array as the
    host reads it. *)
Definition entry_cells (c : list Z) (e : rev_entry) : list Z :=
  cells_of_bytes (content_bytes c (offset e) (nr_samples e * 2)).

(** The sum of a list of integers. *)
Definition zsum (l : list Z) : Z := foldr Z.add 0 l.

(** The number of samples of the revolutions [a .. a + k) described by [E]. *)
Definition samples_in (E : nat → rev_entry) (a k : nat) : Z :=
  zsum ((λ i, nr_samples (E i)) <$> seq a k).

(** The session fields that the conversion of the entries leaves alone. *)
Definition same_file_state (s s' : scp_file_t) : Prop :=
  fd s' = fd s ∧ header s' = header s ∧ dat s' = dat s ∧ heap s' = heap s
  ∧ index_ptr s' = index_ptr s ∧ iter_ptr s' = iter_ptr s
  ∧ iter_limit s' = iter_limit s
  ∧ trk_sig (track s') = trk_sig (track s)
  ∧ track_nr (track s') = track_nr (track s)
  ∧ grants s' = grants s.

(** The file behind the session can be positioned, and only interruptions
    are pending on it. *)
Definition readable (f : file) : Prop :=
  seekable f = true ∧ forallb transient (errs f) = true.

(** The byte at offset [k] of the content [c], zero from its end on. *)
Definition byte_at (c : list Z) (k : Z) : Z := default 0 (c !! Z.to_nat k).

(** The session is about to load track [tn], whose record is at [off]: it
    is not the loaded track, the capture can be positioned and read, the
    session's arrays have their five entries, and the record carries "TRK"
    and [tn]. *)
Definition loadable (fuel : nat) (s : scp_file_t) (tn off : Z) : Prop :=
  let c := content (fd s) in
  let nrev := nr_revolutions (header s) in
  bool_decide (is_Some (dat s)) && (track_nr (track s) =? tn) = false
  ∧ 0 <= tn < TRACK_MAX
  ∧ track_offset (header s) !! Z.to_nat tn = Some off
  ∧ 0 <= off
  ∧ readable (fd s)
  ∧ bytes_ok c
  ∧ 0 <= nrev <= REV_MAX
  ∧ length (rev (track s)) = Z.to_nat REV_MAX
  ∧ length (index_ptr s) = Z.to_nat REV_MAX
  ∧ take 3 (content_bytes c off (4 + 12 * nrev)) = TRK
  ∧ (content_bytes c off (4 + 12 * nrev)) !!! 3%nat = tn
  ∧ (length (errs (fd s)) + 2 <= fuel)%nat.

(** *** The heap outside the session *)

(** The heap without the session's buffer: what the rest of the program
    owns. *)
Definition others (s : scp_file_t) : gmap loc (list Z) := free (heap s) (dat s).

(** *** The tracks of a run *)

(** Track [tn] lies inside the track range of the header. *)
Definition in_range (hd : disk_header) (tn : Z) : bool :=
  (start_track hd <=? tn) && (tn <? end_track hd).

(** The number of tracks of [tns] inside the track range. *)
Definition tracks_in_range (hd : disk_header) (tns : list Z) : Z :=
  Z.of_nat (length (List.filter (in_range hd) tns)).

(** The tracks [scp_write_mfm] goes through. *)
Definition all_tracks : list Z := Z.of_nat <$> seq 0 160.

(** What one pass of the track loop has put into the sink: with [a] the
    sink before the pass and [b] the sink after it, 6400 bytes and no
    half-bit, or no byte and at least 102400 half-bits. *)
Definition wrote_filler (a b : mfm_writer_t) : Prop :=
  bytes b = bytes a + 6400 ∧ halfbits b = halfbits a.
Definition wrote_cells (a b : mfm_writer_t) : Prop :=
  bytes b = bytes a ∧ halfbits a + 102400 <= halfbits b.

(** *** Successive flux intervals *)

(** The next call reads the cell [q]: the cursor is there, or is at its
    limit and [q] is the start [lo] of the slice. *)
Definition reads_next (s : scp_file_t) (lo hi q : Z) : Prop :=
  (iter_limit s <= iter_ptr s ∧ q = lo) ∨ (iter_limit s = hi ∧ iter_ptr s = q).

(** *** The fill *)

(** [k] half-bits, oldest first, each the complement of the one before it,
    the first one the complement of [b]. *)
Fixpoint alternation (b : Z) (k : nat) : list event :=
  match k with
  | O => []
  | S k' => HalfBit (lnot b) :: alternation (lnot b) k'
  end.

(** Reduces the accesses to a session built by the setters. *)
Ltac session_fields :=
  cbn [fd header track dat datsz index_ptr iter_ptr iter_limit heap
       set_fd set_track set_dat set_datsz set_index_ptr set_iter_ptr
       set_iter_limit set_heap trk_sig track_nr rev].

(** ** Captures built byte by byte *)

Module Capture.

Definition bytes32 (x : Z) : list Z :=
  [x mod 256; (x / 256) mod 256; (x / 65536) mod 256; (x / 16777216) mod 256].

Definition be16 (x : Z) : list Z := [(x / 256) mod 256; x mod 256].

(** The header record: [nrev] revolutions, tracks [st .. en), and the
    offsets [offs] of the first tracks (the others absent). *)
Definition header_bytes (nrev st en : Z) (offs : list Z) : list Z :=
  SCP ++ [0x10; 0; nrev; st; en; 0; 0; 0; 0] ++ bytes32 0
  ++ concat (bytes32 <$> (offs ++ replicate (Z.to_nat TRACK_MAX - length offs) 0)).

(** The revolution entries of a track record whose sample arrays follow
    the record one after the other; [off] is the offset of the next array. *)
Fixpoint rev_entries (off : Z) (revs : list (list Z)) : list Z :=
  match revs with
  | [] => []
  | r :: revs' =>
      bytes32 0 ++ bytes32 (Z.of_nat (length r)) ++ bytes32 off
      ++ rev_entries (off + 2 * Z.of_nat (length r)) revs'
  end.

(** A track record for track [tn] and the samples of its revolutions. *)
Definition track_bytes (tn : Z) (revs : list (list Z)) : list Z :=
  TRK ++ [tn] ++ rev_entries (4 + 12 * Z.of_nat (length revs)) revs
  ++ concat (be16 <$> concat revs).

(** A capture of track 0 alone, with the revolutions [revs]. *)
Definition image (revs : list (list Z)) : list Z :=
  header_bytes (Z.of_nat (length revs)) 0 1 [sizeof_header] ++ track_bytes 0 revs.

Definition file_of (b : list Z) : file :=
  {| content := b; pos := 0; seekable := true; errs := [] |}.

(** An allocator that serves every request. *)
Definition roomy : gmap loc (list Z) → Z → bool := λ _ _, true.

Definition blank : scp_file_t :=
  {| fd := file_of [];
     header := parse_header [];
     track := zero_track; dat := None; datsz := 0;
     index_ptr := replicate (Z.to_nat REV_MAX) 0;
     iter_ptr := 0; iter_limit := 0; heap := ∅; grants := roomy |}.

Definition session (m : outcome (Z * scp_file_t)) : scp_file_t :=
  match m with Ok (_, s) => s | _ => blank end.

(** The session after [scp_open] on the image. *)
Definition opened (b : list Z) : scp_file_t :=
  session (scp_open 2 ∅ roomy (Some (file_of b))).

(** The session after [scp_open] and [scp_select_track] of track [tn]. *)
Definition loaded (b : list Z) (tn : Z) : scp_file_t :=
  session (scp_select_track 2 (opened b) tn).

(** One revolution: a zero cell, then the value 1. *)
Definition s_carry : scp_file_t := Eval vm_compute in loaded (image [[0; 1]]) 0.

(** One revolution of three ordinary samples. *)
Definition s_three : scp_file_t := Eval vm_compute in loaded (image [[80; 120; 81]]) 0.

(** That capture: the session after [scp_open]. *)
Definition o_three : scp_file_t := Eval vm_compute in opened (image [[80; 120; 81]]).

(** Two revolutions, the first one empty: the session after [scp_open]. *)
Definition o_empty_rev : scp_file_t :=
  Eval vm_compute in opened (image [[]; [80; 80; 80]]).

(** Two revolutions, the first one empty. *)
Definition s_empty_rev : scp_file_t :=
  Eval vm_compute in loaded (image [[]; [80; 80; 80]]) 0.

(** One revolution: 1311 zero cells, then the value 1. *)
Definition s_long : scp_file_t :=
  Eval vm_compute in loaded (image [replicate 1311 0 ++ [1]]) 0.

(** One revolution of 102402 samples of 80 ticks (2000 ns each): a track
    that holds more cells than the 102400 of the fixed capacity. *)
Definition s_dense : scp_file_t :=
  loaded (image [replicate (Z.to_nat 102402) 80]) 0.

(** A capture of one revolution of four samples cut after the fifth byte of
    the sample array: the session after [scp_open]. *)
Definition o_cut : scp_file_t :=
  Eval vm_compute in opened (take 709 (image [[80; 120; 81; 90]])).

(** Two tracks: track 0 as above, and at the offset of track 1 a record
    whose signature is not "TRK". *)
Definition image_bad_sig : list Z :=
  let t0 := track_bytes 0 [[80; 120; 81]] in
  header_bytes 1 0 2 [sizeof_header; sizeof_header + Z.of_nat (length t0)]
  ++ t0 ++ [84; 82; 88; 1] ++ bytes32 0 ++ bytes32 0 ++ bytes32 16.

(** Track 0 of that capture selected, then the selection of track 1 tried. *)
Definition s_track0 : scp_file_t := Eval vm_compute in loaded image_bad_sig 0.
Definition s_failed : scp_file_t :=
  Eval vm_compute in session (scp_select_track 2 s_track0 1).

(** One revolution of two intervals that add up to 2^32 ticks: 1311 zero
    cells and the value 1, then 64224 zero cells and the value 65535. *)
Definition s_cycle : scp_file_t :=
  loaded (image [replicate 1311 0 ++ [1] ++ replicate (Z.to_nat 64224) 0 ++ [65535]]) 0.

Definition w0 : mfm_writer_t := {| emitted := []; last := 0 |}.

End Capture.

(** ** Captures at the edges *)

Module Edge.

(** One revolution of two zero cells. *)
Definition s_silent : scp_file_t :=
  Eval vm_compute in Capture.loaded (Capture.image [[0; 0]]) 0.

(** Two revolutions, the second one empty. *)
Definition s_empty_last : scp_file_t :=
  Eval vm_compute in Capture.loaded (Capture.image [[80]; []]) 0.

(** One revolution: an interval of two clock periods, then one of one. *)
Definition s_two_cells : scp_file_t :=
  Eval vm_compute in Capture.loaded (Capture.image [[160; 80]]) 0.

(** One revolution: an interval of 4250 ns, then one of 1875 ns. *)
Definition s_jitter : scp_file_t :=
  Eval vm_compute in Capture.loaded (Capture.image [[170; 75]]) 0.

(** A capture that holds no track: the header alone, with an empty track
    range; the session after [scp_open]. *)
Definition image_no_tracks : list Z := Capture.header_bytes 1 0 0 [].
Definition o_no_tracks : scp_file_t :=
  Eval vm_compute in Capture.opened image_no_tracks.

(** Two revolutions whose sample counts, 2^32 - 1 and 1, add up to 2^32;
    the session after [scp_open]. *)
Definition image_wrap : list Z :=
  Capture.header_bytes 2 0 1 [sizeof_header]
  ++ TRK ++ [0]
  ++ Capture.bytes32 0 ++ Capture.bytes32 (2 ^ 32 - 1) ++ Capture.bytes32 28
  ++ Capture.bytes32 0 ++ Capture.bytes32 1 ++ Capture.bytes32 28
  ++ Capture.be16 80.
Definition o_wrap : scp_file_t := Eval vm_compute in Capture.opened image_wrap.


(** Two revolutions, the first one empty, the second one starting with a
    zero cell: the session after [scp_open], and with track 0 loaded. *)
Definition o_empty_zero : scp_file_t :=
  Eval vm_compute in Capture.opened (Capture.image [[]; [0; 80]]).
Definition s_empty_zero : scp_file_t :=
  Eval vm_compute in Capture.loaded (Capture.image [[]; [0; 80]]) 0.

(** Two revolutions of two samples each. *)
Definition s_two_revs : scp_file_t :=
  Eval vm_compute in Capture.loaded (Capture.image [[80; 81]; [90; 91]]) 0.

(** That session after one call of [scp_next_flux] for revolution 1. *)
Definition s_in_rev1 : scp_file_t :=
  Eval vm_compute in
    match scp_next_flux 1 (scp_reset s_two_revs) 1 with
    | Ok (_, s) => s
    | _ => Capture.blank
    end.

End Edge.
(** * Properties *)

(** ** Machine arithmetic *)

Section IntFacts.

Lemma wrap_u_range x : 0 <= wrap_u x < 2 ^ 32.
Proof. unfold wrap_u. apply Z.mod_pos_bound. lia. Qed.

Lemma wrap_s_range x : - 2 ^ 31 <= wrap_s x < 2 ^ 31.
Proof.
  unfold wrap_s. pose proof (Z.mod_pos_bound (x + 2 ^ 31) (2 ^ 32)). lia.
Qed.

Lemma wrap_u_small x : 0 <= x < 2 ^ 32 → wrap_u x = x.
Proof. intros H. unfold wrap_u. apply Z.mod_small. lia. Qed.

Lemma wrap_s_small x : - 2 ^ 31 <= x < 2 ^ 31 → wrap_s x = x.
Proof. intros H. unfold wrap_s. rewrite Z.mod_small; lia. Qed.

Lemma uadd_small a b : 0 <= a + b < 2 ^ 32 → uadd a b = a + b.
Proof. apply wrap_u_small. Qed.

Lemma wrap_u_idem x : wrap_u (wrap_u x) = wrap_u x.
Proof. unfold wrap_u. apply Z.mod_mod. lia. Qed.

Lemma wrap_u_add_l a b : wrap_u (wrap_u a + b) = wrap_u (a + b).
Proof. unfold wrap_u. apply Zplus_mod_idemp_l. Qed.

Lemma wrap_u_add_r a b : wrap_u (a + wrap_u b) = wrap_u (a + b).
Proof. unfold wrap_u. apply Zplus_mod_idemp_r. Qed.

Lemma wrap_u_mul_r a b : wrap_u (a * wrap_u b) = wrap_u (a * b).
Proof. unfold wrap_u. apply Zmult_mod_idemp_r. Qed.

Lemma wrap_s_wrap_u x : wrap_s (wrap_u x) = wrap_s x.
Proof.
  unfold wrap_s, wrap_u. f_equal. rewrite Zplus_mod_idemp_l. reflexivity.
Qed.

Lemma wrap_u_wrap_s x : wrap_u (wrap_s x) = wrap_u x.
Proof.
  unfold wrap_s, wrap_u. rewrite Zminus_mod_idemp_l. f_equal. lia.
Qed.

Lemma wrap_s_congr a b : wrap_u a = wrap_u b → wrap_s a = wrap_s b.
Proof. intros H. rewrite <- (wrap_s_wrap_u a), H. apply wrap_s_wrap_u. Qed.

Lemma wrap_s_add_l a b : wrap_s (wrap_s a + b) = wrap_s (a + b).
Proof.
  apply wrap_s_congr. rewrite <- wrap_u_add_l, wrap_u_wrap_s. apply wrap_u_add_l.
Qed.

Lemma wrap_s_add_r a b : wrap_s (a + wrap_s b) = wrap_s (a + b).
Proof.
  apply wrap_s_congr. rewrite <- wrap_u_add_r, wrap_u_wrap_s. apply wrap_u_add_r.
Qed.

Lemma wrap_s_mul_r a b : wrap_s (a * wrap_s b) = wrap_s (a * b).
Proof.
  apply wrap_s_congr. rewrite <- wrap_u_mul_r, wrap_u_wrap_s. apply wrap_u_mul_r.
Qed.

(** The sum of [pll_next_bit], written with the unsigned operations of C,
    is the 32-bit signed sum. *)
Lemma add_flux_eq fl v : add_flux fl v = wrap_s (fl + 25 * v).
Proof.
  unfold add_flux, uadd, umul.
  rewrite wrap_s_wrap_u. apply wrap_s_congr.
  rewrite wrap_u_add_l, wrap_u_add_r. reflexivity.
Qed.

End IntFacts.

(** ** The outcome monad *)

Lemma bind_Ok {A B} (a : A) (f : A → outcome B) : (Ok a ≫= f) = f a.
Proof. reflexivity. Qed.

Lemma bind_is_Ok {A B} (m : outcome A) (f : A → outcome B) (b : B) :
  m ≫= f = Ok b → ∃ a, m = Ok a ∧ f a = Ok b.
Proof. destruct m; cbn; intros H; try discriminate. eauto. Qed.

(** ** The flux iterator *)

Section Flux.

Implicit Types (s : scp_file_t) (rv val : Z).

Lemma sample_load_dat s i v :
  sample s i = Some v → ∃ c, load_dat s i = Ok c ∧ be16toh c = v.
Proof.
  unfold sample, load_dat. destruct (dat_cells s) as [cells|]; cbn; [|done].
  destruct (cells !! Z.to_nat i) as [c|]; cbn; [|done].
  intros [= <-]. eauto.
Qed.

Lemma sample_set_iter_ptr s i x : sample (set_iter_ptr x s) i = sample s i.
Proof. reflexivity. Qed.

Lemma set_iter_ptr_twice s a b : set_iter_ptr a (set_iter_ptr b s) = set_iter_ptr a s.
Proof. reflexivity. Qed.

Lemma flux_restart_inside s rv val :
  iter_ptr s < iter_limit s → flux_restart s rv val = Ok (s, val).
Proof.
  intros H. unfold flux_restart.
  destruct (iter_limit s <=? iter_ptr s) eqn:E; [lia | reflexivity].
Qed.

Lemma flux_iter_zero s s1 rv val val1 :
  flux_restart s rv val = Ok (s1, val1) →
  sample s1 (iter_ptr s1) = Some 0 →
  flux_iter s rv val
  = Ok (Again (uadd val1 0x10000), set_iter_ptr (uadd (iter_ptr s1) 1) s1).
Proof.
  intros Hr Hs. unfold flux_iter. rewrite Hr. cbn.
  destruct (sample_load_dat _ _ _ Hs) as (c & -> & Hc). cbn.
  rewrite Hc. reflexivity.
Qed.

Lemma flux_iter_nonzero s s1 rv val val1 v :
  flux_restart s rv val = Ok (s1, val1) →
  sample s1 (iter_ptr s1) = Some v → v ≠ 0 →
  flux_iter s rv val
  = Ok (Returned (uadd val1 v), set_iter_ptr (uadd (iter_ptr s1) 1) s1).
Proof.
  intros Hr Hs Hv. unfold flux_iter. rewrite Hr. cbn.
  destruct (sample_load_dat _ _ _ Hs) as (c & -> & Hc). cbn.
  rewrite Hc. destruct (v =? 0) eqn:E; [lia | reflexivity].
Qed.

(** A run of [k] zero cells closed by the non-zero [v], met by a pass that
    finds the cursor (after its restart check) at the head of the run. *)
Lemma next_flux_loop_run (k : nat) : ∀ s s1 rv val val1 v (fuel : nat),
  flux_restart s rv val = Ok (s1, val1) →
  0 <= iter_ptr s1 →
  iter_ptr s1 + Z.of_nat k < iter_limit s1 →
  iter_limit s1 < 2 ^ 32 →
  (∀ j : nat, (j < k)%nat → sample s1 (iter_ptr s1 + Z.of_nat j) = Some 0) →
  sample s1 (iter_ptr s1 + Z.of_nat k) = Some v →
  v ≠ 0 →
  (k < fuel)%nat →
  next_flux_loop fuel s rv val
  = Ok (wrap_u (val1 + Z.of_nat k * 0x10000 + v),
        set_iter_ptr (iter_ptr s1 + Z.of_nat k + 1) s1).
Proof.
  induction k as [|k IH]; intros s s1 rv val val1 v fuel Hr Hp Hk Hl Hz Hv Hv0 Hf.
  - destruct fuel as [|fuel]; [lia|]. cbn [next_flux_loop].
    rewrite Z.add_0_r in Hv.
    rewrite (flux_iter_nonzero _ _ _ _ _ _ Hr Hv Hv0). cbn.
    rewrite (uadd_small (iter_ptr s1) 1) by lia. unfold uadd.
    do 2 f_equal; [f_equal; lia | f_equal; lia].
  - destruct fuel as [|fuel]; [lia|]. cbn [next_flux_loop].
    assert (Hz0 : sample s1 (iter_ptr s1) = Some 0).
    { rewrite <- (Z.add_0_r (iter_ptr s1)). apply (Hz 0%nat). lia. }
    rewrite (flux_iter_zero _ _ _ _ _ Hr Hz0). cbn.
    rewrite (uadd_small (iter_ptr s1) 1) by lia.
    set (s2 := set_iter_ptr (iter_ptr s1 + 1) s1).
    assert (Hr2 : flux_restart s2 rv (uadd val1 65536) = Ok (s2, uadd val1 65536)).
    { apply flux_restart_inside. subst s2; cbn. lia. }
    rewrite (IH s2 s2 rv _ _ v fuel Hr2); subst s2;
      cbn [iter_ptr iter_limit set_iter_ptr]; try lia; try assumption.
    + unfold uadd. rewrite <- !Z.add_assoc, wrap_u_add_l, set_iter_ptr_twice.
      do 2 f_equal; [f_equal; lia | f_equal; lia].
    + intros j Hj. rewrite sample_set_iter_ptr.
      replace (iter_ptr s1 + 1 + Z.of_nat j) with (iter_ptr s1 + Z.of_nat (S j)) by lia.
      apply Hz. lia.
    + rewrite sample_set_iter_ptr.
      replace (iter_ptr s1 + 1 + Z.of_nat k) with (iter_ptr s1 + Z.of_nat (S k)) by lia.
      exact Hv.
Qed.

(** While the run lasts, the loop has not returned. *)
Lemma next_flux_loop_run_short (fuel : nat) : ∀ s s1 rv val val1 (k : nat),
  flux_restart s rv val = Ok (s1, val1) →
  0 <= iter_ptr s1 →
  iter_ptr s1 + Z.of_nat k <= iter_limit s1 →
  iter_limit s1 < 2 ^ 32 →
  (∀ j : nat, (j < k)%nat → sample s1 (iter_ptr s1 + Z.of_nat j) = Some 0) →
  (fuel <= k)%nat →
  next_flux_loop fuel s rv val = Fuel.
Proof.
  induction fuel as [|fuel IH]; intros s s1 rv val val1 k Hr Hp Hk Hl Hz Hf; [done|].
  destruct k as [|k]; [lia|]. cbn [next_flux_loop].
  assert (Hz0 : sample s1 (iter_ptr s1) = Some 0).
  { rewrite <- (Z.add_0_r (iter_ptr s1)). apply (Hz 0%nat). lia. }
  rewrite (flux_iter_zero _ _ _ _ _ Hr Hz0). cbn.
  rewrite (uadd_small (iter_ptr s1) 1) by lia.
  destruct fuel as [|fuel']; [done|].
  set (s2 := set_iter_ptr (iter_ptr s1 + 1) s1).
  assert (Hr2 : flux_restart s2 rv (uadd val1 65536) = Ok (s2, uadd val1 65536)).
  { apply flux_restart_inside. subst s2; cbn. destruct k; [lia|]. lia. }
  apply (IH s2 s2 rv _ _ k Hr2); subst s2;
    cbn [iter_ptr iter_limit set_iter_ptr]; try lia.
  intros j Hj. rewrite sample_set_iter_ptr.
  replace (iter_ptr s1 + 1 + Z.of_nat j) with (iter_ptr s1 + Z.of_nat (S j)) by lia.
  apply Hz. lia.
Qed.

End Flux.

Section FluxInterval.

Lemma pll_accumulate_unfold n fuel p s :
  pll_accumulate n fuel p s
  = if flux p <? idiv (clock p) 2 then
      match n with
      | O => Fuel
      | S n' =>
          '(v, s') ← scp_next_flux fuel s (wrap_u (pll_rev p));
          pll_accumulate n' fuel (set_flux (add_flux (flux p) v) p) s'
      end
    else Ok (p, s).
Proof. destruct n; reflexivity. Qed.

Lemma pll_accumulate_pass n fuel p s v s' :
  flux p < idiv (clock p) 2 →
  scp_next_flux fuel s (wrap_u (pll_rev p)) = Ok (v, s') →
  pll_accumulate (S n) fuel p s
  = pll_accumulate n fuel (set_flux (wrap_s (flux p + 25 * v)) p) s'.
Proof.
  intros Hlt Hv. rewrite pll_accumulate_unfold.
  destruct (flux p <? idiv (clock p) 2) eqn:E; [|lia].
  rewrite Hv. cbn. rewrite add_flux_eq. reflexivity.
Qed.

Lemma wrap_s_scaled a x : wrap_s (a + 25 * wrap_u x) = wrap_s (a + 25 * x).
Proof.
  apply wrap_s_congr. rewrite <- wrap_u_add_r, wrap_u_mul_r. apply wrap_u_add_r.
Qed.

End FluxInterval.

(** C1 (amended). A run of [k] zero cells closed by the non-zero sample [v],
    inside the slice the cursor is in after its restart check, makes
    [scp_next_flux] return [k * 0x10000 + v] ticks of 25 ns (modulo 2^32), so
    the interval handed to the PLL is [25 * (k * 0x10000 + v)] ns (modulo
    2^32): the carry of a zero cell is scaled by 25 like the sample, and one
    pass of the loop of [pll_next_bit] adds that amount to [flux] in 32-bit
    arithmetic. *)
Theorem flux_run_interval (s s1 : scp_file_t) (rv : Z) (k : nat) (v : Z) (fuel : nat) :
  flux_restart s rv 0 = Ok (s1, 0) →
  0 <= iter_ptr s1 →
  iter_ptr s1 + Z.of_nat k < iter_limit s1 →
  iter_limit s1 < 2 ^ 32 →
  (∀ j : nat, (j < k)%nat → sample s1 (iter_ptr s1 + Z.of_nat j) = Some 0) →
  sample s1 (iter_ptr s1 + Z.of_nat k) = Some v →
  v ≠ 0 →
  (k < fuel)%nat →
  let s' := set_iter_ptr (iter_ptr s1 + Z.of_nat k + 1) s1 in
  scp_next_flux fuel s rv = Ok (wrap_u (Z.of_nat k * 0x10000 + v), s')
  ∧ flux_delivered fuel s rv = Ok (wrap_u (25 * (Z.of_nat k * 0x10000 + v)))
  ∧ ∀ (p : pll_t) (n : nat),
      wrap_u (pll_rev p) = rv →
      flux p < idiv (clock p) 2 →
      pll_accumulate (S n) fuel p s
      = pll_accumulate n fuel
          (set_flux (wrap_s (flux p + 25 * (Z.of_nat k * 0x10000 + v))) p) s'.
Proof.
  intros Hr Hp Hk Hl Hz Hv Hv0 Hf s'.
  assert (Hnf : scp_next_flux fuel s rv = Ok (wrap_u (Z.of_nat k * 0x10000 + v), s')).
  { unfold scp_next_flux.
    rewrite (next_flux_loop_run k s s1 rv 0 0 v fuel Hr Hp Hk Hl Hz Hv Hv0 Hf).
    reflexivity. }
  split; [exact Hnf|]. split.
  - unfold flux_delivered. rewrite Hnf. cbn. unfold umul.
    rewrite wrap_u_mul_r. reflexivity.
  - intros p n Hrv Hlt. rewrite <- Hrv in Hnf.
    rewrite (pll_accumulate_pass n fuel p s _ _ Hlt Hnf).
    rewrite wrap_s_scaled. reflexivity.
Qed.

Lemma flux_run_interval_witness :
  flux_restart (scp_reset Capture.s_carry) 0 0
  = Ok (set_iter_ptr 0 (set_iter_limit 2 (scp_reset Capture.s_carry)), 0)
  ∧ scp_next_flux 2 (scp_reset Capture.s_carry) 0
    = Ok (65537, set_iter_ptr 2 (set_iter_limit 2 (scp_reset Capture.s_carry)))
  ∧ flux_delivered 2 (scp_reset Capture.s_carry) 0 = Ok 1638425.
Proof.
  split; [reflexivity|].
  pose proof (flux_run_interval (scp_reset Capture.s_carry)
                (set_iter_ptr 0 (set_iter_limit 2 (scp_reset Capture.s_carry)))
                0 1%nat 1 2%nat) as H.
  destruct H as (H1 & H2 & _).
  - reflexivity.
  - cbn. lia.
  - cbn. lia.
  - cbn. lia.
  - intros j Hj. destruct j as [|j]; [reflexivity | lia].
  - reflexivity.
  - lia.
  - lia.
  - split; [exact H1 | exact H2].
Defined.

(** C1, as stated, fails: for the run of one zero cell closed by the sample 1
    the PLL is handed 1638425 ns, not [1 * 0x10000 + 25 * 1]. *)
Lemma flux_run_interval_counterexample :
  sample (scp_reset Capture.s_carry) 0 = Some 0
  ∧ sample (scp_reset Capture.s_carry) 1 = Some 1
  ∧ flux_delivered 2 (scp_reset Capture.s_carry) 0 = Ok 1638425
  ∧ flux_delivered 2 (scp_reset Capture.s_carry) 0 ≠ Ok (1 * 0x10000 + 25 * 1).
Proof.
  split; [vm_compute; reflexivity|].
  split; [vm_compute; reflexivity|].
  split; [vm_compute; reflexivity|].
  discriminate.
Qed.

(** ** What the iterator and the decoder leave alone *)

Section Frame.

Implicit Types (s : scp_file_t) (p : pll_t) (w : mfm_writer_t).

Lemma cursor_moved_refl s : cursor_moved s s.
Proof. destruct s. reflexivity. Qed.

Lemma cursor_moved_trans s1 s2 s3 :
  cursor_moved s1 s2 → cursor_moved s2 s3 → cursor_moved s1 s3.
Proof.
  unfold cursor_moved. intros H12 H23. rewrite H23 at 1. rewrite H12. reflexivity.
Qed.

Lemma cursor_moved_fields s s' :
  cursor_moved s s' →
  heap s' = heap s ∧ dat s' = dat s ∧ header s' = header s.
Proof. unfold cursor_moved. intros ->. repeat split. Qed.

Lemma flux_iter_frame s rv val r s' :
  flux_iter s rv val = Ok (r, s') → cursor_moved s s'.
Proof.
  unfold flux_iter, flux_restart.
  destruct (iter_limit s <=? iter_ptr s).
  - destruct (load_index s rv) as [lim| | |]; cbn [mbind outcome_bind]; try discriminate.
    destruct (if rv =? 0 then Ok 0 else load_index (set_iter_limit lim s) (rv - 1))
      as [start| | |]; cbn [mbind outcome_bind]; try discriminate.
    destruct (load_dat _ _) as [c| | |]; cbn [mbind outcome_bind]; try discriminate.
    destruct (negb (be16toh c =? 0)); intros [= <- <-]; destruct s; reflexivity.
  - cbn [mbind outcome_bind].
    destruct (load_dat _ _) as [c| | |]; cbn [mbind outcome_bind]; try discriminate.
    destruct (negb (be16toh c =? 0)); intros [= <- <-]; destruct s; reflexivity.
Qed.

Lemma next_flux_loop_frame (fuel : nat) : ∀ s rv val v s',
  next_flux_loop fuel s rv val = Ok (v, s') → cursor_moved s s'.
Proof.
  induction fuel as [|fuel IH]; intros s rv val v s'; [discriminate|].
  cbn [next_flux_loop].
  destruct (flux_iter s rv val) as [[[x | val'] s1]| | |] eqn:Hit;
    cbn [mbind outcome_bind]; try discriminate; apply flux_iter_frame in Hit.
  - intros [= <- <-]. exact Hit.
  - intros H. apply IH in H. eapply cursor_moved_trans; eauto.
Qed.

Lemma pll_accumulate_frame (n : nat) : ∀ fuel p s p' s',
  pll_accumulate n fuel p s = Ok (p', s') → cursor_moved s s'.
Proof.
  induction n as [|n IH]; intros fuel p s p' s'; rewrite pll_accumulate_unfold;
    destruct (flux p <? idiv (clock p) 2); try discriminate;
    try (intros [= <- <-]; apply cursor_moved_refl).
  destruct (scp_next_flux fuel s (wrap_u (pll_rev p))) as [[v s1]| | |] eqn:Hnf;
    cbn [mbind outcome_bind]; try discriminate.
  apply next_flux_loop_frame in Hnf. intros H. apply IH in H.
  eapply cursor_moved_trans; eauto.
Qed.

Lemma pll_next_bit_frame fuel p s b p' s' :
  pll_next_bit fuel p s = Ok (b, p', s') → cursor_moved s s'.
Proof.
  unfold pll_next_bit.
  destruct (pll_accumulate fuel fuel p s) as [[p1 s1]| | |] eqn:Ha;
    cbn [mbind outcome_bind]; try discriminate.
  apply pll_accumulate_frame in Ha. destruct (pll_clock_bit p1).
  intros [= <- <- <-]. exact Ha.
Qed.

Lemma decode_loop_frame (iters : nat) : ∀ fuel p s w n n' p' s' w',
  decode_loop iters fuel p s w n = Ok (n', p', s', w') → cursor_moved s s'.
Proof.
  induction iters as [|iters IH]; intros fuel p s w n n' p' s' w'; [discriminate|].
  cbn [decode_loop].
  destruct (pll_next_bit fuel p s) as [[[b p1] s1]| | |] eqn:Hb; cbn [mbind outcome_bind];
    try discriminate.
  apply pll_next_bit_frame in Hb.
  destruct (iter_ptr s1 <? iter_limit s1).
  - intros H. apply IH in H. eapply cursor_moved_trans; eauto.
  - intros [= <- <- <- <-]. exact Hb.
Qed.

Lemma decode_track_frame fuel s rv w w' s' :
  decode_track fuel s rv w = Ok (w', s') → cursor_moved s s'.
Proof.
  unfold decode_track, decode_natural.
  destruct (pll_next_bit fuel (pll_init rv) (scp_reset s)) as [[[b p0] s0]| | |] eqn:Hb;
    cbn [mbind outcome_bind]; try discriminate.
  destruct (decode_loop fuel fuel p0 s0 w 0) as [[[[n p1] s1] w1]| | |] eqn:Hl;
    cbn [mbind outcome_bind]; try discriminate.
  destruct (fill_loop _ w1 n) as [w2| | |]; cbn [mbind outcome_bind]; try discriminate.
  intros [= <- <-].
  apply pll_next_bit_frame in Hb. apply decode_loop_frame in Hl.
  assert (H0 : cursor_moved s (scp_reset s)) by (destruct s; reflexivity).
  eapply cursor_moved_trans; [exact H0|]. eapply cursor_moved_trans; eauto.
Qed.

End Frame.

Section Slice.

Variables (rv lo hi : Z) (ix : list Z).

Local Abbreviation sliced := (slice_of rv lo hi ix).

Hypothesis Hlo : 0 <= lo.
Hypothesis Hne : lo < hi.
Hypothesis Hhi : hi < 2 ^ 32.

Lemma slice_of_index s s' : index_ptr s' = index_ptr s → sliced s → sliced s'.
Proof.
  intros E (H1 & H2 & H3). unfold slice_of, slice_start, slice_end, load_index in *.
  rewrite E. auto.
Qed.

Lemma flux_restart_ok s val :
  sliced s → cursor_ok s lo hi →
  ∃ s1 val1,
    flux_restart s rv val = Ok (s1, val1)
    ∧ index_ptr s1 = index_ptr s ∧ dat_cells s1 = dat_cells s
    ∧ iter_limit s1 = hi ∧ lo <= iter_ptr s1 < hi
    ∧ (iter_limit s <= iter_ptr s → s1 = set_iter_ptr lo (set_iter_limit hi s) ∧ val1 = 0)
    ∧ (iter_ptr s < iter_limit s → s1 = s ∧ val1 = val).
Proof using All.
  intros (Hix & Hs & He) Hc. unfold flux_restart.
  destruct (iter_limit s <=? iter_ptr s) eqn:E.
  - unfold slice_end in He. rewrite He. cbn.
    assert (Hst : (if rv =? 0 then Ok 0 else load_index (set_iter_limit hi s) (rv - 1))
                  = Ok lo) by exact Hs.
    rewrite Hst. cbn.
    eexists _, _. split; [reflexivity|]. cbn.
    repeat split; try lia; intros; lia.
  - exists s, val. split; [reflexivity|].
    destruct Hc as [[? ?] | [? ?]]; [lia|].
    repeat split; try lia; intros; lia.
Qed.

Lemma flux_iter_ok s val r s2 :
  sliced s → cursor_ok s lo hi →
  flux_iter s rv val = Ok (r, s2) →
  sliced s2 ∧ cursor_ok s2 lo hi ∧ dat_cells s2 = dat_cells s.
Proof using All.
  intros Hsl Hc Hit.
  destruct (flux_restart_ok s val Hsl Hc) as (s1 & val1 & Hr & Hix & Hd & Hl & Hp & _).
  unfold flux_iter in Hit. rewrite Hr in Hit. cbn in Hit.
  destruct (load_dat s1 (iter_ptr s1)) as [c| | |]; cbn in Hit; try discriminate.
  assert (Hs2 : s2 = set_iter_ptr (uadd (iter_ptr s1) 1) s1).
  { destruct (negb (be16toh c =? 0)); congruence. }
  subst s2. rewrite uadd_small by lia.
  split; [|split].
  - apply (slice_of_index s); [exact Hix | exact Hsl].
  - right. cbn. lia.
  - exact Hd.
Qed.

End Slice.


(** *** The restart, and what a call reads *)

Section InSlice.

Variables (rv lo hi : Z) (s0 : scp_file_t).

Hypothesis Hstart : slice_start s0 rv = Ok lo.
Hypothesis Hend : slice_end s0 rv = Ok hi.
Hypothesis Hlo : 0 <= lo.
Hypothesis Hne : lo < hi.
Hypothesis Hhi : hi < 2 ^ 32.

Lemma restart_due (s : scp_file_t) (val : Z) :
  index_ptr s = index_ptr s0 →
  iter_limit s <= iter_ptr s →
  flux_restart s rv val = Ok (set_iter_ptr lo (set_iter_limit hi s), 0).
Proof using All.
  intros Hix Hge. unfold flux_restart.
  destruct (Z.leb_spec (iter_limit s) (iter_ptr s)); [|lia].
  unfold slice_end, slice_start, load_index in *. cbn [index_ptr set_iter_limit].
  rewrite Hix, Hend. cbn [mbind outcome_bind].
  revert Hstart. destruct (rv =? 0); intros Hst.
  - injection Hst as <-. reflexivity.
  - rewrite Hst. reflexivity.
Qed.

Lemma restart_pass (s : scp_file_t) (val : Z) :
  index_ptr s = index_ptr s0 →
  iter_limit s <= iter_ptr s →
  flux_iter s rv val = flux_iter (set_iter_ptr lo (set_iter_limit hi s)) rv 0.
Proof using All.
  intros Hix Hge. unfold flux_iter. rewrite (restart_due s val Hix Hge).
  rewrite (flux_restart_inside (set_iter_ptr lo (set_iter_limit hi s)) rv 0)
    by (cbn; lia).
  reflexivity.
Qed.

(** After its restart check a pass finds the cursor inside the slice. *)
Lemma restart_in_slice (s : scp_file_t) (val : Z) :
  index_ptr s = index_ptr s0 →
  in_slice s lo hi →
  ∃ s1 val1, flux_restart s rv val = Ok (s1, val1)
             ∧ cursor_moved s s1
             ∧ iter_limit s1 = hi ∧ lo <= iter_ptr s1 < hi.
Proof using All.
  intros Hix [Hge | [Hl Hp]].
  - eexists _, _. split; [apply restart_due; assumption|].
    split; [destruct s; reflexivity|]. cbn. lia.
  - exists s, val. split; [apply flux_restart_inside; lia|].
    split; [apply cursor_moved_refl|]. lia.
Qed.

Lemma cursor_moved_index (s s' : scp_file_t) :
  cursor_moved s s' → index_ptr s' = index_ptr s.
Proof. unfold cursor_moved. intros ->. reflexivity. Qed.

Lemma cursor_moved_load (s s' : scp_file_t) (h' : gmap loc (list Z)) (i : Z) :
  cursor_moved s s' →
  load_dat s' i = load_dat s i ∧ load_dat (set_heap h' s') i = load_dat (set_heap h' s) i.
Proof. unfold cursor_moved. intros ->. split; reflexivity. Qed.

Lemma set_heap_restart (s : scp_file_t) (h' : gmap loc (list Z)) (val : Z) :
  flux_restart (set_heap h' s) rv val
  = (λ '(s1, v), (set_heap h' s1, v)) <$> flux_restart s rv val.
Proof.
  unfold flux_restart. cbn [iter_limit iter_ptr set_heap].
  destruct (iter_limit s <=? iter_ptr s); [|reflexivity].
  change (load_index (set_heap h' s) rv) with (load_index s rv).
  destruct (load_index s rv) as [lim| | |]; cbn [mbind outcome_bind]; try reflexivity.
  change (load_index (set_iter_limit lim (set_heap h' s)) (rv - 1))
    with (load_index (set_iter_limit lim s) (rv - 1)).
  destruct (if rv =? 0 then Ok 0 else load_index (set_iter_limit lim s) (rv - 1))
    as [start| | |]; reflexivity.
Qed.

(** One pass: the cell it reads is in the slice, so the pass is the same
    whatever the heap holds elsewhere, and it leaves the cursor in the
    slice or at its end. *)
Lemma pass_in_slice (s : scp_file_t) (h' : gmap loc (list Z)) (val : Z) :
  index_ptr s = index_ptr s0 →
  in_slice s lo hi →
  slice_agree s h' lo hi →
  flux_iter (set_heap h' s) rv val
  = (λ '(r, s2), (r, set_heap h' s2)) <$> flux_iter s rv val
  ∧ ∀ r s2, flux_iter s rv val = Ok (r, s2) →
            cursor_moved s s2 ∧ iter_limit s2 = hi ∧ lo < iter_ptr s2 <= hi.
Proof using All.
  intros Hix Hin Hag.
  destruct (restart_in_slice s val Hix Hin) as (s1 & val1 & Hr & Hm & Hl & Hp).
  assert (Hload : load_dat (set_heap h' s1) (iter_ptr s1) = load_dat s1 (iter_ptr s1)).
  { destruct (cursor_moved_load s s1 h' (iter_ptr s1) Hm) as [-> ->]. apply Hag. exact Hp. }
  split.
  - unfold flux_iter. rewrite set_heap_restart, Hr. cbn [fmap outcome_fmap mbind outcome_bind].
    cbn [iter_ptr set_heap]. rewrite Hload.
    destruct (load_dat s1 (iter_ptr s1)) as [c| | |]; cbn [mbind outcome_bind];
      try reflexivity.
    destruct (negb (be16toh c =? 0)); reflexivity.
  - intros r s2. unfold flux_iter. rewrite Hr. cbn [mbind outcome_bind].
    destruct (load_dat s1 (iter_ptr s1)) as [c| | |]; cbn [mbind outcome_bind];
      try discriminate.
    intros H.
    assert (Hs2 : s2 = set_iter_ptr (uadd (iter_ptr s1) 1) s1).
    { destruct (negb (be16toh c =? 0)); congruence. }
    subst s2. rewrite uadd_small by lia. split.
    + eapply cursor_moved_trans; [exact Hm|]. destruct s1; reflexivity.
    + cbn. lia.
Qed.

Lemma in_slice_after (s : scp_file_t) :
  iter_limit s = hi → lo < iter_ptr s <= hi → in_slice s lo hi.
Proof.
  intros Hl Hp. unfold in_slice.
  destruct (Z_lt_ge_dec (iter_ptr s) hi); [right | left]; lia.
Qed.

Lemma slice_agree_moved (s s' : scp_file_t) (h' : gmap loc (list Z)) :
  cursor_moved s s' → slice_agree s h' lo hi → slice_agree s' h' lo hi.
Proof.
  intros Hm Hag i Hi. destruct (cursor_moved_load s s' h' i Hm) as [-> ->].
  apply Hag. exact Hi.
Qed.

Lemma loop_in_slice (fuel : nat) : ∀ (s : scp_file_t) (h' : gmap loc (list Z)) (val : Z),
  index_ptr s = index_ptr s0 →
  in_slice s lo hi →
  slice_agree s h' lo hi →
  next_flux_loop fuel (set_heap h' s) rv val
  = (λ '(v, s'), (v, set_heap h' s')) <$> next_flux_loop fuel s rv val
  ∧ ∀ v s', next_flux_loop fuel s rv val = Ok (v, s') →
            cursor_moved s s' ∧ iter_limit s' = hi ∧ lo < iter_ptr s' <= hi.
Proof using All.
  induction fuel as [|fuel IH]; intros s h' val Hix Hin Hag.
  - split; [reflexivity | discriminate].
  - cbn [next_flux_loop].
    destruct (pass_in_slice s h' val Hix Hin Hag) as [Hpass Hcur].
    rewrite Hpass.
    destruct (flux_iter s rv val) as [[[v | val'] s2]| | |] eqn:Hit;
      cbn [fmap outcome_fmap mbind outcome_bind];
      try (split; [reflexivity | discriminate]).
    + split; [reflexivity|]. intros v0 s' [= <- <-]. apply (Hcur _ _ eq_refl).
    + destruct (Hcur _ _ eq_refl) as (Hm & Hl & Hp).
      destruct (IH s2 h' val') as [Hrec Hcur'].
      * rewrite (cursor_moved_index s s2 Hm). exact Hix.
      * apply in_slice_after; assumption.
      * apply (slice_agree_moved s); assumption.
      * split; [exact Hrec|]. intros v s' H. destruct (Hcur' v s' H) as (Hm' & Hl' & Hp').
        split; [eapply cursor_moved_trans; eauto | lia].
Qed.

Lemma calls_in_slice (fuel n : nat) : ∀ (s : scp_file_t) (h' : gmap loc (list Z)),
  index_ptr s = index_ptr s0 →
  in_slice s lo hi →
  slice_agree s h' lo hi →
  next_fluxes n fuel (set_heap h' s) rv
  = (λ '(vs, s'), (vs, set_heap h' s')) <$> next_fluxes n fuel s rv
  ∧ ∀ vs s', next_fluxes n fuel s rv = Ok (vs, s') →
             cursor_moved s s'
             ∧ (n = 0%nat ∨ (iter_limit s' = hi ∧ lo < iter_ptr s' <= hi)).
Proof using All.
  induction n as [|n IH]; intros s h' Hix Hin Hag.
  - split; [reflexivity|]. intros vs s' [= <- <-].
    split; [apply cursor_moved_refl | left; reflexivity].
  - cbn [next_fluxes]. unfold scp_next_flux.
    destruct (loop_in_slice fuel s h' 0 Hix Hin Hag) as [Hcall Hcur].
    rewrite Hcall.
    destruct (next_flux_loop fuel s rv 0) as [[v s1]| | |] eqn:Hl;
      cbn [fmap outcome_fmap mbind outcome_bind];
      try (split; [reflexivity | discriminate]).
    destruct (Hcur _ _ eq_refl) as (Hm & Hl1 & Hp1).
    destruct (IH s1 h') as [Hrec Hcur'].
    + rewrite (cursor_moved_index s s1 Hm). exact Hix.
    + apply in_slice_after; assumption.
    + apply (slice_agree_moved s); assumption.
    + rewrite Hrec.
      destruct (next_fluxes n fuel s1 rv) as [[vs s2]| | |] eqn:Hn;
        cbn [fmap outcome_fmap mbind outcome_bind];
        try (split; [reflexivity | discriminate]).
      split; [reflexivity|]. intros vs0 s' [= <- <-].
      destruct (Hcur' _ _ eq_refl) as (Hm' & Hcase).
      split; [eapply cursor_moved_trans; eauto|]. right.
      destruct Hcase as [-> | Hc]; [|exact Hc].
      cbn [next_fluxes] in Hn. injection Hn as _ <-. lia.
Qed.

End InSlice.

(** C6 (amended). With revolution [rv] spanning the non-empty slice
    [lo .. hi) of the buffer. A pass of [scp_next_flux] that finds the cursor
    at or past the limit in force (the very first pass after [scp_reset],
    and every pass that finds the cursor at [hi] once [hi] is the limit)
    sets the cursor to [lo] and the limit to [hi] and clears [val]: it goes
    on as a fresh call from [lo] does. And from such a state, or from a
    cursor inside the slice with [hi] as its limit, the cells that any number
    of calls for [rv] read lie inside the slice: the values returned, the
    cursor, and whether the calls return at all, are the same whatever the
    heap holds outside [lo .. hi), the other revolutions included; and every
    call leaves the cursor in [lo + 1 .. hi] with [hi] as its limit. *)
Theorem flux_stays_in_slice (s : scp_file_t) (rv lo hi : Z) (fuel : nat) :
  slice_start s rv = Ok lo →
  slice_end s rv = Ok hi →
  0 <= lo → lo < hi → hi < 2 ^ 32 →
  (∀ (s' : scp_file_t) (val : Z),
     index_ptr s' = index_ptr s →
     iter_limit s' <= iter_ptr s' →
     flux_restart s' rv val = Ok (set_iter_ptr lo (set_iter_limit hi s'), 0)
     ∧ next_flux_loop fuel s' rv val
       = scp_next_flux fuel (set_iter_ptr lo (set_iter_limit hi s')) rv)
  ∧ (in_slice s lo hi →
     ∀ (n : nat) (h' : gmap loc (list Z)),
       slice_agree s h' lo hi →
       next_fluxes n fuel (set_heap h' s) rv
       = (λ '(vs, s'), (vs, set_heap h' s')) <$> next_fluxes n fuel s rv
       ∧ ∀ vs s', next_fluxes n fuel s rv = Ok (vs, s') →
                  cursor_moved s s'
                  ∧ (n = 0%nat ∨ (iter_limit s' = hi ∧ lo < iter_ptr s' <= hi))).
Proof.
  intros Hs He Hlo Hne Hhi. split.
  - intros s' val Hix Hge.
    split; [apply (restart_due rv lo hi s Hs He Hlo Hne Hhi); assumption|].
    destruct fuel as [|fuel']; [reflexivity|].
    unfold scp_next_flux. cbn [next_flux_loop].
    rewrite (restart_pass rv lo hi s Hs He Hlo Hne Hhi s' val Hix Hge). reflexivity.
  - intros Hin n h' Hag.
    apply (calls_in_slice rv lo hi s Hs He Hlo Hne Hhi fuel n s h' eq_refl Hin Hag).
Qed.

Lemma flux_stays_in_slice_witness :
  dat_cells (scp_reset Edge.s_two_revs) = Some [20480; 20736; 23040; 23296]
  ∧ next_fluxes 3 1
      (set_heap {[1%positive := [20480; 20736; 1; 2]]} (scp_reset Edge.s_two_revs)) 0
    = (λ '(vs, s'), (vs, set_heap {[1%positive := [20480; 20736; 1; 2]]} s'))
        <$> next_fluxes 3 1 (scp_reset Edge.s_two_revs) 0
  ∧ fst <$> next_fluxes 3 1 (scp_reset Edge.s_two_revs) 0 = Ok [80; 81; 80].
Proof.
  split; [reflexivity|]. split; [|reflexivity].
  apply (proj2 (flux_stays_in_slice (scp_reset Edge.s_two_revs) 0 0 2 1
                  ltac:(reflexivity) ltac:(reflexivity)
                  ltac:(lia) ltac:(lia) ltac:(lia))).
  - left. cbn. lia.
  - intros i Hi. assert (Hc : i = 0 ∨ i = 1) by lia.
    destruct Hc as [-> | ->]; reflexivity.
Defined.

(** C6, as stated, fails: in the capture of two revolutions of two samples,
    one call for revolution 1 leaves the cursor at 3 with 4 as its limit. A
    call for revolution 0 then finds the cursor past the end 2 of the slice
    of revolution 0, does not set it back, and returns the sample of cell 3,
    which belongs to revolution 1. *)
Lemma flux_stays_in_slice_counterexample :
  scp_next_flux 1 (scp_reset Edge.s_two_revs) 1 = Ok (90, Edge.s_in_rev1)
  ∧ slice_start Edge.s_in_rev1 0 = Ok 0
  ∧ slice_end Edge.s_in_rev1 0 = Ok 2
  ∧ iter_ptr Edge.s_in_rev1 = 3
  ∧ flux_restart Edge.s_in_rev1 0 0 = Ok (Edge.s_in_rev1, 0)
  ∧ flux_restart Edge.s_in_rev1 0 0
    ≠ Ok (set_iter_ptr 0 (set_iter_limit 2 Edge.s_in_rev1), 0)
  ∧ scp_next_flux 1 Edge.s_in_rev1 0 = Ok (91, set_iter_ptr 4 Edge.s_in_rev1)
  ∧ sample Edge.s_in_rev1 0 = Some 80
  ∧ sample Edge.s_in_rev1 1 = Some 81
  ∧ sample Edge.s_in_rev1 3 = Some 91.
Proof.
  split; [reflexivity|]. split; [reflexivity|]. split; [reflexivity|].
  split; [reflexivity|]. split; [reflexivity|].
  split; [vm_compute; discriminate|].
  split; [reflexivity|]. split; [reflexivity|]. split; reflexivity.
Qed.

(** ** The software PLL *)

Section Pll.

Implicit Types (p : pll_t) (s : scp_file_t).

Lemma quot_in_int x d : 0 < d → in_int x → in_int (x ÷ d).
Proof.
  intros Hd [H1 H2]. unfold in_int.
  destruct (Z_le_gt_dec 0 x) as [Hx | Hx].
  - rewrite Z.quot_div_nonneg by lia.
    pose proof (Z.div_pos x d Hx Hd).
    assert (x / d <= x) by (apply Z.div_le_upper_bound; nia). lia.
  - rewrite <- (Z.opp_involutive x), Z.quot_opp_l by lia.
    rewrite Z.quot_div_nonneg by lia.
    assert (0 <= - x) as Hx' by lia.
    pose proof (Z.div_pos (- x) d Hx' Hd).
    assert (- x / d <= - x) by (apply Z.div_le_upper_bound; nia). lia.
Qed.

Lemma idiv_in_int x d : 0 < d → in_int x → idiv x d = x ÷ d.
Proof. intros Hd Hx. apply wrap_s_small, quot_in_int; assumption. Qed.

Lemma idiv_wrap_s x d : 0 < d → idiv (wrap_s x) d = wrap_s x ÷ d.
Proof. intros Hd. apply idiv_in_int; [assumption | apply wrap_s_range]. Qed.

Lemma clock_min_val : CLOCK_MIN CLOCK_CENTRE = 1800.
Proof. reflexivity. Qed.

Lemma clock_max_val : CLOCK_MAX CLOCK_CENTRE = 2200.
Proof. reflexivity. Qed.

Lemma pll_accumulate_clock n fuel : ∀ p s p' s',
  pll_accumulate n fuel p s = Ok (p', s') →
  clock p' = clock p ∧ time p' = time p ∧ clocked_zeros p' = clocked_zeros p
  ∧ pll_rev p' = pll_rev p.
Proof.
  induction n as [|n IH]; intros p s p' s'; rewrite pll_accumulate_unfold;
    destruct (flux p <? idiv (clock p) 2); try discriminate;
    try (intros [= <- <-]; tauto).
  destruct (scp_next_flux fuel s (wrap_u (pll_rev p))) as [[v s1]| | |];
    cbn; try discriminate.
  intros H. apply IH in H. cbn in H. exact H.
Qed.

(** A one-cell leaves the clock clamped; a zero-cell leaves it alone. *)
Lemma pll_clock_bit_band p :
  clock_in_band p → clock_in_band (pll_clock_bit p).2.
Proof.
  unfold clock_in_band, pll_clock_bit. intros Hb.
  cbn [set_time set_flux clock flux time clocked_zeros pll_rev].
  destruct (idiv (clock p) 2 <=? isub (flux p) (clock p)); [exact Hb|].
  rewrite clock_min_val, clock_max_val.
  destruct (clocked_zeros p <=? 3);
    cbn [set_clock clock flux time clocked_zeros pll_rev];
    match goal with |- context [?c <? 1800] => destruct (Z.ltb_spec c 1800) end;
    cbn [set_clock clock flux time clocked_zeros pll_rev snd set_clocked_zeros set_time set_flux];
    match goal with |- context [2200 <? ?c] => destruct (Z.ltb_spec 2200 c) end;
    cbn [set_clock clock flux time clocked_zeros pll_rev snd set_clocked_zeros set_time set_flux];
    lia.
Qed.

Lemma pll_next_bit_band fuel p s bit p' s' :
  clock_in_band p →
  pll_next_bit fuel p s = Ok (bit, p', s') →
  clock_in_band p'.
Proof.
  intros Hb. unfold pll_next_bit.
  destruct (pll_accumulate fuel fuel p s) as [[p1 s1]| | |] eqn:Ha; cbn; try discriminate.
  apply pll_accumulate_clock in Ha as (Hc & _).
  pose proof (pll_clock_bit_band p1) as Hband.
  destruct (pll_clock_bit p1) as [b p2]. intros [= <- <- <-].
  apply Hband. unfold clock_in_band in *. rewrite Hc. exact Hb.
Qed.

End Pll.

(** C5. Whatever the session (hence the flux input) and however many calls
    of [pll_next_bit] have been made on a freshly initialised PLL, the clock
    period lies in [1800, 2200]: [pll_init] sets it to 2000 and every call
    leaves it inside the band. *)
Theorem pll_clock_stays_in_band (n fuel : nat) (rv : Z) (s : scp_file_t) :
  clock_in_band (pll_init rv)
  ∧ ∀ bits p' s',
      pll_bits n fuel (pll_init rv) s = Ok (bits, p', s') → clock_in_band p'.
Proof.
  split; [unfold clock_in_band; cbn; unfold CLOCK_CENTRE; lia|].
  assert (Hgen : ∀ p s bits p' s',
             clock_in_band p → pll_bits n fuel p s = Ok (bits, p', s') →
             clock_in_band p').
  { clear s. induction n as [|m IH]; intros p s bits p' s' Hb.
    - cbn. intros [= _ <- _]. exact Hb.
    - cbn [pll_bits].
      destruct (pll_next_bit fuel p s) as [[[b p1] s1]| | |] eqn:Hn; cbn; try discriminate.
      destruct (pll_bits m fuel p1 s1) as [[[bs p2] s2]| | |] eqn:Hm; cbn; try discriminate.
      intros [= _ <- _]. eapply IH; [|exact Hm].
      eapply pll_next_bit_band; eauto. }
  intros bits p' s'. apply Hgen. unfold clock_in_band; cbn; unfold CLOCK_CENTRE; lia.
Qed.

Lemma pll_clock_stays_in_band_witness :
  clock_in_band (pll_init 0)
  ∧ ∃ bits p' s',
      pll_bits 4 10 (pll_init 0) (scp_reset Capture.s_three) = Ok (bits, p', s')
      ∧ clock_in_band p'.
Proof.
  destruct (pll_clock_stays_in_band 4 10 0 (scp_reset Capture.s_three)) as [H0 H].
  split; [exact H0|].
  eexists _, _, _. split.
  - vm_compute. reflexivity.
  - eapply H. vm_compute. reflexivity.
Defined.

Section Refinement.

Implicit Types (p : pll_t) (s : scp_file_t).

Lemma set_flux_same p : set_flux (flux p) p = p.
Proof. destruct p; reflexivity. Qed.

Lemma set_flux_twice p a b : set_flux a (set_flux b p) = set_flux a p.
Proof. reflexivity. Qed.

Lemma accumulate_refines fuel n : ∀ p s,
  in_int (clock p) → in_uint (pll_rev p) →
  pll_accumulate n fuel p s
  = '(fl, s') ← Spec43.accumulate n fuel (pll_rev p) (clock p) (flux p) s;
    Ok (set_flux fl p, s').
Proof.
  induction n as [|n IH]; intros p s Hck Hrv; rewrite pll_accumulate_unfold;
    cbn [Spec43.accumulate]; rewrite (idiv_in_int (clock p) 2) by (lia || assumption);
    destruct (flux p <? clock p ÷ 2); cbn; try reflexivity;
    try (rewrite set_flux_same; reflexivity).
  rewrite (wrap_u_small (pll_rev p)) by exact Hrv.
  destruct (scp_next_flux fuel s (pll_rev p)) as [[v s1]| | |]; cbn; try reflexivity.
  rewrite IH by assumption. cbn [pll_rev clock flux set_flux].
  rewrite add_flux_eq.
  destruct (Spec43.accumulate n fuel (pll_rev p) (clock p) (wrap_s (flux p + 25 * v)) s1)
    as [[fl s2]| | |]; cbn; reflexivity.
Qed.

Lemma clamp_as_coded c :
  (let c1 := if c <? 1800 then 1800 else c in if 2200 <? c1 then 2200 else c1)
  = Spec43.clamp 1800 2200 c.
Proof.
  unfold Spec43.clamp. cbn zeta.
  destruct (Z.ltb_spec c 1800); destruct (Z.ltb_spec 2200 1800);
    try destruct (Z.ltb_spec 2200 c); lia.
Qed.

Lemma classify_refines p fl :
  in_int (clock p) →
  pll_clock_bit (set_flux fl p)
  = let '(bit, (ck, fl', tm, zs)) :=
      Spec43.classify (clock p) fl (time p) (clocked_zeros p) in
    (bit, {| pll_rev := pll_rev p; clock := ck; flux := fl'; time := tm;
             clocked_zeros := zs |}).
Proof.
  intros Hck. unfold pll_clock_bit, Spec43.classify.
  cbn [set_time set_flux set_clock set_clocked_zeros clock flux time clocked_zeros pll_rev].
  rewrite (idiv_in_int (clock p) 2) by (lia || assumption).
  unfold isub at 1, iadd at 1.
  destruct (clock p ÷ 2 <=? wrap_s (fl - clock p)); [reflexivity|].
  rewrite clock_min_val, clock_max_val.
  unfold PERIOD_ADJ_PCT, PHASE_ADJ_PCT, CLOCK_CENTRE.
  change (isub 100 60) with 40.
  unfold imul, isub, iadd. rewrite !idiv_wrap_s by lia.
  destruct (clocked_zeros p <=? 3);
    cbn [set_time set_flux set_clock set_clocked_zeros clock flux time clocked_zeros pll_rev];
    rewrite <- clamp_as_coded; cbn zeta;
    match goal with |- context [?c <? 1800] => destruct (c <? 1800) end;
    cbn [set_time set_flux set_clock set_clocked_zeros clock flux time clocked_zeros pll_rev];
    match goal with |- context [2200 <? ?c] => destruct (2200 <? c) end;
    cbn [set_time set_flux set_clock set_clocked_zeros clock flux time clocked_zeros pll_rev];
    reflexivity.
Qed.

End Refinement.

(** C4. On every PLL state whose clock is an [int] and whose revolution is
    an index, one call of [pll_next_bit] is one call of [next_bit] as
    section 4.3 of the specification prescribes it: the accumulation of
    [25 * next_flux] while [flux < clock/2], the advance of [time] and
    [flux] by [clock], the zero cell when [flux >= clock/2] (only
    [clocked_zeros] incremented), and otherwise the period correction by
    [flux*5/100] or [(2000-clock)*5/100] according to [clocked_zeros <= 3],
    the clamp to [1800, 2200], the phase correction to [flux*40/100], the
    reset of [clocked_zeros] and the result 1, in 32-bit signed arithmetic
    with truncating division. *)
Theorem pll_next_bit_as_specified (fuel : nat) (p : pll_t) (s : scp_file_t) :
  in_int (clock p) →
  in_uint (pll_rev p) →
  pll_next_bit fuel p s = Spec43.next_bit fuel p s.
Proof.
  intros Hck Hrv. unfold pll_next_bit, Spec43.next_bit.
  rewrite accumulate_refines by assumption.
  destruct (Spec43.accumulate fuel fuel (pll_rev p) (clock p) (flux p) s)
    as [[fl s1]| | |]; cbn; try reflexivity.
  rewrite classify_refines by assumption.
  destruct (Spec43.classify (clock p) fl (time p) (clocked_zeros p))
    as [bit [[[ck fl'] tm] zs]].
  reflexivity.
Qed.

Lemma pll_next_bit_as_specified_witness :
  in_int (clock (pll_init 0)) ∧ in_uint (pll_rev (pll_init 0))
  ∧ pll_next_bit 4 (pll_init 0) (scp_reset Capture.s_three)
    = Spec43.next_bit 4 (pll_init 0) (scp_reset Capture.s_three)
  ∧ returns (Spec43.next_bit 4 (pll_init 0) (scp_reset Capture.s_three)) = true.
Proof.
  assert (H1 : in_int (clock (pll_init 0))) by (unfold in_int; cbn; unfold CLOCK_CENTRE; lia).
  assert (H2 : in_uint (pll_rev (pll_init 0))) by (unfold in_uint; cbn; lia).
  split; [exact H1|]. split; [exact H2|]. split.
  - exact (pll_next_bit_as_specified 4 (pll_init 0) (scp_reset Capture.s_three) H1 H2).
  - vm_compute. reflexivity.
Defined.

(** ** Termination of the iterator *)

Section Scan.

Implicit Types (s : scp_file_t).

Lemma sample_same_cells s s' i : dat_cells s' = dat_cells s → sample s' i = sample s i.
Proof. intros H. unfold sample. rewrite H. reflexivity. Qed.

Lemma dat_cells_set_iter_ptr s x : dat_cells (set_iter_ptr x s) = dat_cells s.
Proof. reflexivity. Qed.

Lemma be16toh_range c : 0 <= be16toh c < 65536.
Proof.
  unfold be16toh.
  pose proof (Z.mod_pos_bound c 256). pose proof (Z.mod_pos_bound (c / 256) 256). lia.
Qed.

Lemma sample_range s i v : sample s i = Some v → 0 <= v < 65536.
Proof.
  unfold sample. destruct (dat_cells s) as [cells|]; cbn; [|done].
  destruct (cells !! Z.to_nat i) as [c|]; cbn; [|done].
  intros [= <-]. apply be16toh_range.
Qed.

(** Scanning [d] readable cells from [p0]: all are zero, or a first
    non-zero sample closes a run of [k < d] zero cells. *)
Lemma scan_cells s (d : nat) : ∀ p0,
  (∀ i, p0 <= i < p0 + Z.of_nat d → is_Some (sample s i)) →
  (∀ j : nat, (j < d)%nat → sample s (p0 + Z.of_nat j) = Some 0)
  ∨ ∃ (k : nat) (t : Z),
      (k < d)%nat
      ∧ (∀ j : nat, (j < k)%nat → sample s (p0 + Z.of_nat j) = Some 0)
      ∧ sample s (p0 + Z.of_nat k) = Some t ∧ t ≠ 0.
Proof.
  induction d as [|d IH]; intros p0 Hrd.
  - left. intros j Hj. lia.
  - destruct (Hrd p0 ltac:(lia)) as [t Ht].
    destruct (Z.eq_dec t 0) as [-> | Hne].
    + destruct (IH (p0 + 1)) as [Hz | (k & t & Hk & Hz & Hv & Hv0)].
      * intros i Hi. apply Hrd. lia.
      * left. intros j Hj. destruct j as [|j].
        -- rewrite Z.add_0_r. exact Ht.
        -- replace (p0 + Z.of_nat (S j)) with (p0 + 1 + Z.of_nat j) by lia.
           apply Hz. lia.
      * right. exists (S k), t. split; [lia|]. split; [|split; [|exact Hv0]].
        -- intros j Hj. destruct j as [|j].
           ++ rewrite Z.add_0_r. exact Ht.
           ++ replace (p0 + Z.of_nat (S j)) with (p0 + 1 + Z.of_nat j) by lia.
              apply Hz. lia.
        -- replace (p0 + Z.of_nat (S k)) with (p0 + 1 + Z.of_nat k) by lia. exact Hv.
    + right. exists 0%nat, t. split; [lia|]. split; [intros j Hj; lia|].
      rewrite Z.add_0_r. auto.
Qed.

(** [k >= 1] zero cells before the limit are passed one by one. *)
Lemma next_flux_loop_zeros (k : nat) : ∀ s s1 rv val val1 (fuel : nat),
  flux_restart s rv val = Ok (s1, val1) →
  0 <= iter_ptr s1 →
  iter_ptr s1 + Z.of_nat (S k) <= iter_limit s1 →
  iter_limit s1 < 2 ^ 32 →
  (∀ j : nat, (j < S k)%nat → sample s1 (iter_ptr s1 + Z.of_nat j) = Some 0) →
  next_flux_loop (S k + fuel) s rv val
  = next_flux_loop fuel (set_iter_ptr (iter_ptr s1 + Z.of_nat (S k)) s1) rv
      (wrap_u (val1 + Z.of_nat (S k) * 0x10000)).
Proof.
  induction k as [|k IH]; intros s s1 rv val val1 fuel Hr Hp Hk Hl Hz.
  - cbn [Nat.add next_flux_loop].
    assert (Hz0 : sample s1 (iter_ptr s1) = Some 0).
    { rewrite <- (Z.add_0_r (iter_ptr s1)). apply (Hz 0%nat). lia. }
    rewrite (flux_iter_zero _ _ _ _ _ Hr Hz0). cbn [mbind outcome_bind].
    rewrite (uadd_small (iter_ptr s1) 1) by lia. unfold uadd.
    f_equal; f_equal; lia.
  - change (S (S k) + fuel)%nat with (S (S k + fuel)). cbn [next_flux_loop].
    assert (Hz0 : sample s1 (iter_ptr s1) = Some 0).
    { rewrite <- (Z.add_0_r (iter_ptr s1)). apply (Hz 0%nat). lia. }
    rewrite (flux_iter_zero _ _ _ _ _ Hr Hz0). cbn [mbind outcome_bind].
    rewrite (uadd_small (iter_ptr s1) 1) by lia.
    set (s2 := set_iter_ptr (iter_ptr s1 + 1) s1).
    assert (Hr2 : flux_restart s2 rv (uadd val1 65536) = Ok (s2, uadd val1 65536)).
    { apply flux_restart_inside. subst s2; cbn. lia. }
    rewrite (IH s2 s2 rv _ _ fuel Hr2); subst s2;
      cbn [iter_ptr iter_limit set_iter_ptr]; try lia.
    + rewrite set_iter_ptr_twice. unfold uadd. rewrite <- !Z.add_assoc, wrap_u_add_l.
      f_equal; f_equal; lia.
    + intros j Hj. rewrite sample_set_iter_ptr.
      replace (iter_ptr s1 + 1 + Z.of_nat j) with (iter_ptr s1 + Z.of_nat (S j)) by lia.
      apply Hz. lia.
Qed.

End Scan.

Section Termination.

Variables (rv lo hi : Z) (ix : list Z) (s0 : scp_file_t).

Hypothesis Hlo : 0 <= lo.
Hypothesis Hne : lo < hi.
Hypothesis Hhi : hi < 2 ^ 32.
Hypothesis Hrd : slice_readable s0 lo hi.
Hypothesis Hfx : slice_has_flux s0 lo hi.

Local Abbreviation alive := (live rv lo hi ix s0).

Lemma interval_positive k t : 0 < t < 65536 → 0 < wrap_u (k * 0x10000 + t).
Proof.
  intros Ht. pose proof (wrap_u_range (k * 0x10000 + t)) as Hr.
  assert (wrap_u (k * 0x10000 + t) ≠ 0); [|lia].
  unfold wrap_u. intros H0.
  pose proof (Z.div_mod (k * 0x10000 + t) (2 ^ 32) ltac:(lia)) as Hdm.
  rewrite H0 in Hdm. lia.
Qed.

Lemma interval_small k t :
  0 <= k < 65536 → 0 <= t < 65536 → wrap_u (k * 0x10000 + t) = k * 0x10000 + t.
Proof. intros Hk Ht. apply wrap_u_small. lia. Qed.

(** What a call returns: the length [k] of the run of zero cells it ended
    on, at [p0 .. p0 + k), and the sample [t] that closed it. *)
Lemma next_flux_returns s (fuel : nat) :
  alive s →
  (Z.to_nat (2 * (hi - lo)) <= fuel)%nat →
  ∃ (k : nat) (t p0 : Z) (s' : scp_file_t),
    scp_next_flux fuel s rv = Ok (wrap_u (Z.of_nat k * 0x10000 + t), s')
    ∧ alive s'
    ∧ 0 < t < 65536
    ∧ lo <= p0 ∧ p0 + Z.of_nat k < hi
    ∧ (∀ j : nat, (j < k)%nat → sample s0 (p0 + Z.of_nat j) = Some 0).
Proof using All.
  intros (Hsl & Hd & Hc) Hfuel. unfold scp_next_flux.
  destruct (flux_restart_ok rv lo hi ix Hlo Hne Hhi s 0 Hsl Hc)
    as (s1 & val1 & Hr & Hix1 & Hd1 & Hl1 & Hp1 & Hge & Hlt).
  assert (Hv1 : val1 = 0).
  { destruct (Z_le_gt_dec (iter_limit s) (iter_ptr s)) as [H | H].
    - apply Hge in H. tauto.
    - assert (H' : iter_ptr s < iter_limit s) by lia. apply Hlt in H'. tauto. }
  subst val1.
  assert (Hsame1 : ∀ i, sample s1 i = sample s0 i).
  { intros i. apply sample_same_cells. congruence. }
  destruct (scan_cells s1 (Z.to_nat (hi - iter_ptr s1)) (iter_ptr s1))
    as [Hz | (k & t & Hk & Hz & Hv & Hv0)].
  { intros i Hi. rewrite Hsame1. apply Hrd. lia. }
  - (* zero cells up to the limit: the next pass restarts at [lo] *)
    destruct (Z.to_nat (hi - iter_ptr s1)) as [|d] eqn:Ed; [lia|].
    replace fuel with (S d + (fuel - S d))%nat by lia.
    rewrite (next_flux_loop_zeros d s s1 rv 0 0 _ Hr); try lia; [|exact Hz].
    set (s2 := set_iter_ptr (iter_ptr s1 + Z.of_nat (S d)) s1).
    set (val2 := wrap_u (0 + Z.of_nat (S d) * 65536)).
    assert (Hsl2 : slice_of rv lo hi ix s2).
    { apply (slice_of_index rv lo hi ix s); [exact Hix1 | exact Hsl]. }
    assert (Hc2 : cursor_ok s2 lo hi).
    { right. subst s2. cbn. lia. }
    destruct (flux_restart_ok rv lo hi ix Hlo Hne Hhi s2 val2 Hsl2 Hc2)
      as (s3 & val3 & Hr3 & Hix3 & Hd3 & Hl3 & Hp3 & Hge3 & _).
    destruct (Hge3 ltac:(subst s2; cbn; lia)) as [Es3 ->].
    assert (Hsame3 : ∀ i, sample s3 i = sample s0 i).
    { intros i. apply sample_same_cells. rewrite Hd3. subst s2.
      rewrite dat_cells_set_iter_ptr. congruence. }
    assert (Hp3' : iter_ptr s3 = lo) by (rewrite Es3; reflexivity).
    destruct (scan_cells s3 (Z.to_nat (hi - lo)) (iter_ptr s3))
      as [Hz3 | (k & t & Hk & Hz3 & Hv & Hv0)].
    { intros i Hi. rewrite Hsame3. apply Hrd. lia. }
    + exfalso. destruct Hfx as (j & Hj & Hnz). apply Hnz.
      rewrite <- Hsame3.
      replace j with (iter_ptr s3 + Z.of_nat (Z.to_nat (j - lo))) by lia.
      apply Hz3. lia.
    + rewrite (next_flux_loop_run k s2 s3 rv val2 0 t _ Hr3); try lia;
        [|exact Hz3 | exact Hv].
      exists k, t, lo, (set_iter_ptr (iter_ptr s3 + Z.of_nat k + 1) s3).
      split; [reflexivity|].
      pose proof (sample_range _ _ _ Hv) as Hrg.
      split; [|split; [lia | split; [lia | split; [lia|]]]].
      * split; [|split].
        -- apply (slice_of_index rv lo hi ix s2); [exact Hix3 | exact Hsl2].
        -- rewrite dat_cells_set_iter_ptr, Hd3. subst s2.
           rewrite dat_cells_set_iter_ptr. congruence.
        -- right. cbn. lia.
      * intros j Hj. rewrite <- Hsame3, <- Hp3'. apply Hz3. exact Hj.
  - rewrite (next_flux_loop_run k s s1 rv 0 0 t _ Hr); try lia;
      [|exact Hz | exact Hv].
    exists k, t, (iter_ptr s1), (set_iter_ptr (iter_ptr s1 + Z.of_nat k + 1) s1).
    split; [reflexivity|].
    pose proof (sample_range _ _ _ Hv) as Hrg.
    split; [|split; [lia | split; [lia | split; [lia|]]]].
    + split; [|split].
      * apply (slice_of_index rv lo hi ix s); [exact Hix1 | exact Hsl].
      * rewrite dat_cells_set_iter_ptr. congruence.
      * right. cbn. lia.
    + intros j Hj. rewrite <- Hsame1. apply Hz. exact Hj.
Qed.

(** Every call returns, and what it returns is positive. *)
Lemma next_flux_positive s (fuel : nat) :
  alive s →
  (Z.to_nat (2 * (hi - lo)) <= fuel)%nat →
  ∃ v s', scp_next_flux fuel s rv = Ok (v, s') ∧ alive s' ∧ 0 < v
          ∧ (carry_below 1310 s0 lo hi → v <= 85852159).
Proof using All.
  intros Hl Hf.
  destruct (next_flux_returns s fuel Hl Hf)
    as (k & t & p0 & s' & Hnf & Hl' & Ht & Hp0 & Hk & Hz).
  eexists _, s'. split; [exact Hnf|]. split; [exact Hl'|]. split.
  - apply interval_positive. exact Ht.
  - intros Hcb.
    assert (Hk' : Z.of_nat k < 1310).
    { destruct (Z_lt_ge_dec (Z.of_nat k) 1310) as [H | H]; [exact H|].
      destruct (Hcb p0 Hp0 ltac:(lia)) as (j & Hj & Hnz).
      exfalso. apply Hnz.
      replace j with (p0 + Z.of_nat (Z.to_nat (j - p0))) by lia.
      apply Hz. lia. }
    rewrite interval_small by lia. lia.
Qed.

(** The loop of [pll_next_bit] ends once [flux] has reached [clock/2]: each
    pass adds at least 25. *)
Lemma pll_accumulate_returns (n : nat) : ∀ p s (m fuel : nat),
  alive s →
  carry_below 1310 s0 lo hi →
  wrap_u (pll_rev p) = rv →
  in_int (flux p) → in_int (clock p) → clock p <= 2200 →
  idiv (clock p) 2 - flux p <= 25 * Z.of_nat n →
  (n <= m)%nat →
  (Z.to_nat (2 * (hi - lo)) <= fuel)%nat →
  ∃ p' s', pll_accumulate m fuel p s = Ok (p', s') ∧ alive s' ∧ flux p <= flux p'.
Proof using All.
  induction n as [|n IH]; intros p s m fuel Hl Hcb Hrv Hfl Hck Hmax Hn Hm Hf;
    rewrite pll_accumulate_unfold;
    destruct (Z.ltb_spec (flux p) (idiv (clock p) 2)) as [Hlt | Hge];
    try (exists p, s; split; [reflexivity | split; [exact Hl | lia]]).
  - lia.
  - destruct m as [|m]; [lia|].
    destruct (next_flux_positive s fuel Hl Hf) as (v & s' & Hnf & Hl' & Hv & Hvb).
    specialize (Hvb Hcb).
    rewrite Hrv, Hnf. cbn [mbind outcome_bind].
    assert (Hq : idiv (clock p) 2 <= 1100).
    { rewrite idiv_in_int by (lia || assumption).
      apply Z.quot_le_upper_bound; lia. }
    assert (Hadd : add_flux (flux p) v = flux p + 25 * v).
    { rewrite add_flux_eq. apply wrap_s_small. unfold in_int in Hfl. lia. }
    rewrite Hadd.
    destruct (IH (set_flux (flux p + 25 * v) p) s' m fuel) as (p' & s'' & Hacc & Hl'' & Hle);
      cbn [set_flux flux clock pll_rev]; try assumption; try lia.
    + unfold in_int in *. lia.
    + exists p', s''. split; [exact Hacc|]. split; [exact Hl''|].
      cbn [set_flux flux] in Hle. lia.
Qed.

End Termination.

Lemma pll_accumulate_step n fuel p s :
  flux p < idiv (clock p) 2 →
  pll_accumulate (S n) fuel p s
  = '(p', s') ← pll_pass fuel p s; pll_accumulate n fuel p' s'.
Proof.
  intros Hlt. rewrite pll_accumulate_unfold.
  destruct (flux p <? idiv (clock p) 2) eqn:E; [|lia].
  unfold pll_pass.
  destruct (scp_next_flux fuel s (wrap_u (pll_rev p))) as [[v s']| | |]; reflexivity.
Qed.

(** C9 (amended). With the cursor fresh or inside the non-empty slice
    [lo .. hi) of revolution [rv], every cell of the slice in the buffer and
    one sample of the slice non-zero, [scp_next_flux] returns (after at most
    [2 * (hi - lo)] passes) and its result is positive. If moreover no 1310
    consecutive cells of the slice are zero, so that 25 times an interval
    fits an [int], and the PLL's clock is at most 2200, then each pass of
    the loop of [pll_next_bit] adds at least 25 to [flux], and
    [pll_next_bit] returns. *)
Theorem pll_next_bit_terminates (s : scp_file_t) (rv lo hi : Z) (p : pll_t) :
  slice_start s rv = Ok lo →
  slice_end s rv = Ok hi →
  0 <= lo → lo < hi → hi < 2 ^ 32 →
  cursor_ok s lo hi →
  slice_readable s lo hi →
  slice_has_flux s lo hi →
  (∀ fuel : nat,
     (Z.to_nat (2 * (hi - lo)) <= fuel)%nat →
     ∃ v s', scp_next_flux fuel s rv = Ok (v, s') ∧ 0 < v)
  ∧ (carry_below 1310 s lo hi →
     wrap_u (pll_rev p) = rv →
     in_int (flux p) → in_int (clock p) → clock p <= 2200 →
     (∀ fuel : nat,
        (Z.to_nat (2 * (hi - lo)) <= fuel)%nat →
        flux p < idiv (clock p) 2 →
        ∃ p' s', pll_pass fuel p s = Ok (p', s') ∧ flux p + 25 <= flux p')
     ∧ (∀ fuel : nat,
          (Z.to_nat (2 * (hi - lo)) <= fuel)%nat →
          (Z.to_nat (idiv (clock p) 2 - flux p) <= fuel)%nat →
          ∃ bit p' s', pll_next_bit fuel p s = Ok (bit, p', s'))).
Proof.
  intros Hs He Hlo Hne Hhi Hc Hrd Hfx.
  assert (Hl : live rv lo hi (index_ptr s) s s).
  { split; [|split; [reflexivity | exact Hc]].
    split; [reflexivity | split; assumption]. }
  split.
  - intros fuel Hf.
    destruct (next_flux_positive rv lo hi (index_ptr s) s Hlo Hne Hhi Hrd Hfx s fuel Hl Hf)
      as (v & s' & Hnf & _ & Hv & _).
    eauto.
  - intros Hcb Hrv Hfl Hck Hmax. split.
    + intros fuel Hf Hlt.
      destruct (next_flux_positive rv lo hi (index_ptr s) s Hlo Hne Hhi Hrd Hfx s fuel Hl Hf)
        as (v & s' & Hnf & _ & Hv & Hvb).
      specialize (Hvb Hcb).
      unfold pll_pass. rewrite Hrv, Hnf. cbn [mbind outcome_bind].
      eexists _, _. split; [reflexivity|]. cbn [set_flux flux].
      assert (Hq : idiv (clock p) 2 <= 1100).
      { rewrite idiv_in_int by (lia || assumption).
        apply Z.quot_le_upper_bound; lia. }
      rewrite add_flux_eq, wrap_s_small; unfold in_int in *; lia.
    + intros fuel Hf Hn.
      destruct (pll_accumulate_returns rv lo hi (index_ptr s) s Hlo Hne Hhi Hrd Hfx
                  (Z.to_nat (idiv (clock p) 2 - flux p)) p s fuel fuel)
        as (p' & s' & Hacc & _ & _); try assumption; try lia.
      unfold pll_next_bit. rewrite Hacc. cbn [mbind outcome_bind].
      destruct (pll_clock_bit p') as [bit p''] eqn:Hb.
      exists bit, p'', s'. reflexivity.
Qed.

Lemma pll_next_bit_terminates_witness :
  cursor_ok (scp_reset Capture.s_three) 0 3
  ∧ slice_has_flux (scp_reset Capture.s_three) 0 3
  ∧ (∃ v s', scp_next_flux 6 (scp_reset Capture.s_three) 0 = Ok (v, s') ∧ 0 < v)
  ∧ (∃ p' s', pll_pass 6 (pll_init 0) (scp_reset Capture.s_three) = Ok (p', s')
              ∧ flux (pll_init 0) + 25 <= flux p')
  ∧ ∃ bit p' s', pll_next_bit 1000 (pll_init 0) (scp_reset Capture.s_three) = Ok (bit, p', s').
Proof.
  assert (Hc : cursor_ok (scp_reset Capture.s_three) 0 3) by (left; split; reflexivity).
  assert (Hfx : slice_has_flux (scp_reset Capture.s_three) 0 3).
  { exists 0. split; [lia | discriminate]. }
  assert (Hrd : slice_readable (scp_reset Capture.s_three) 0 3).
  { intros i Hi.
    assert (Hcases : i = 0 ∨ i = 1 ∨ i = 2) by lia.
    destruct Hcases as [-> | [-> | ->]]; eexists; reflexivity. }
  destruct (pll_next_bit_terminates (scp_reset Capture.s_three) 0 0 3 (pll_init 0)
              ltac:(reflexivity) ltac:(reflexivity) ltac:(lia) ltac:(lia) ltac:(lia)
              Hc Hrd Hfx) as [Hflux Hpll].
  destruct Hpll as [Hpass Hbit].
  - intros i H1 H2. lia.
  - reflexivity.
  - unfold in_int. cbn. lia.
  - unfold in_int. cbn. unfold CLOCK_CENTRE. lia.
  - cbn. unfold CLOCK_CENTRE. lia.
  - split; [exact Hc|]. split; [exact Hfx|]. split; [|split].
    + apply Hflux. vm_compute. lia.
    + apply Hpass; [vm_compute; lia | vm_compute; reflexivity].
    + apply Hbit; vm_compute; lia.
Defined.

(** *** A revolution on which the loop of [pll_next_bit] never ends *)

Section Cycle.

Variable s0 : scp_file_t.

Hypothesis Hcells :
  dat_cells s0
  = Some (replicate 1311 0 ++ [256] ++ replicate (Z.to_nat 64224) 0 ++ [65535]).
Hypothesis Hix : index_ptr s0 !! 0%nat = Some 65537.

Lemma cycle_sample s i :
  dat_cells s = dat_cells s0 →
  0 <= i < 65537 →
  sample s i = Some (if i =? 1311 then 1 else if i =? 65536 then 65535 else 0).
Proof using Hcells.
  intros Hd Hi. unfold sample. rewrite Hd, Hcells. cbn [mbind option_bind].
  destruct (Z_lt_ge_dec i 1311) as [H1 | H1].
  { rewrite lookup_app_l by (rewrite length_replicate; lia).
    rewrite lookup_replicate_2 by lia. cbn.
    destruct (Z.eqb_spec i 1311); [lia|]. destruct (Z.eqb_spec i 65536); [lia|].
    reflexivity. }
  rewrite lookup_app_r by (rewrite length_replicate; lia). rewrite length_replicate.
  destruct (Z.eqb_spec i 1311) as [-> | H2].
  { replace (Z.to_nat 1311 - 1311)%nat with 0%nat by lia. reflexivity. }
  rewrite lookup_app_r by (cbn [length]; lia). cbn [length].
  destruct (Z.eqb_spec i 65536) as [-> | H3].
  { rewrite lookup_app_r by (rewrite length_replicate; lia). rewrite length_replicate.
    replace (Z.to_nat 65536 - 1311 - 1 - Z.to_nat 64224)%nat with 0%nat by lia.
    reflexivity. }
  rewrite lookup_app_l by (rewrite length_replicate; lia).
  rewrite lookup_replicate_2 by lia. reflexivity.
Qed.

(** The first interval, met by a pass that restarts at the head of the slice. *)
Lemma cycle_first (fuel : nat) s :
  dat_cells s = dat_cells s0 → index_ptr s = index_ptr s0 →
  iter_limit s <= iter_ptr s →
  scp_next_flux fuel s 0 = Fuel
  ∨ scp_next_flux fuel s 0
    = Ok (85917697, set_iter_ptr 1312 (set_iter_limit 65537 s)).
Proof using All.
  intros Hd Hi Hge.
  set (s1 := set_iter_ptr 0 (set_iter_limit 65537 s)).
  assert (Hr : flux_restart s 0 0 = Ok (s1, 0)).
  { unfold flux_restart. destruct (Z.leb_spec (iter_limit s) (iter_ptr s)); [|lia].
    unfold load_index. rewrite Hi. change (Z.to_nat 0) with 0%nat. rewrite Hix.
    reflexivity. }
  assert (Hz : ∀ j : nat, (j < 1311)%nat → sample s1 (iter_ptr s1 + Z.of_nat j) = Some 0).
  { intros j Hj. rewrite (cycle_sample s1) by (first [exact Hd | cbn; lia]).
    cbn [iter_ptr s1 set_iter_ptr].
    destruct (Z.eqb_spec (0 + Z.of_nat j) 1311); [lia|].
    destruct (Z.eqb_spec (0 + Z.of_nat j) 65536); [lia | reflexivity]. }
  assert (Hv : sample s1 (iter_ptr s1 + Z.of_nat 1311) = Some 1).
  { rewrite (cycle_sample s1) by (first [exact Hd | cbn; lia]). reflexivity. }
  unfold scp_next_flux.
  destruct (le_lt_dec fuel 1311) as [Hf | Hf].
  - left.
    apply (next_flux_loop_run_short fuel s s1 0 0 0 1311 Hr
             ltac:(cbn; lia) ltac:(cbn; lia) ltac:(cbn; lia) Hz Hf).
  - right.
    rewrite (next_flux_loop_run 1311 s s1 0 0 0 1 fuel Hr
               ltac:(cbn; lia) ltac:(cbn; lia) ltac:(cbn; lia) Hz Hv
               ltac:(lia) Hf).
    reflexivity.
Qed.

(** The second interval, which ends the slice. *)
Lemma cycle_second (fuel : nat) s :
  dat_cells s = dat_cells s0 →
  iter_ptr s = 1312 → iter_limit s = 65537 →
  scp_next_flux fuel s 0 = Fuel
  ∨ scp_next_flux fuel s 0 = Ok (4209049599, set_iter_ptr 65537 s).
Proof using Hcells.
  intros Hd Hp Hl.
  assert (Hr : flux_restart s 0 0 = Ok (s, 0)) by (apply flux_restart_inside; lia).
  assert (Hz : ∀ j : nat, (j < Z.to_nat 64224)%nat →
                          sample s (iter_ptr s + Z.of_nat j) = Some 0).
  { intros j Hj. rewrite (cycle_sample s) by (first [exact Hd | lia]).
    destruct (Z.eqb_spec (iter_ptr s + Z.of_nat j) 1311); [lia|].
    destruct (Z.eqb_spec (iter_ptr s + Z.of_nat j) 65536); [lia | reflexivity]. }
  assert (Hv : sample s (iter_ptr s + Z.of_nat (Z.to_nat 64224)) = Some 65535).
  { rewrite (cycle_sample s) by (first [exact Hd | lia]).
    rewrite Z2Nat.id, Hp by lia. reflexivity. }
  unfold scp_next_flux.
  destruct (le_lt_dec fuel (Z.to_nat 64224)) as [Hf | Hf].
  - left.
    apply (next_flux_loop_run_short fuel s s 0 0 0 (Z.to_nat 64224) Hr
             ltac:(lia) ltac:(lia) ltac:(lia) Hz Hf).
  - right.
    rewrite (next_flux_loop_run (Z.to_nat 64224) s s 0 0 0 65535 fuel Hr
               ltac:(lia) ltac:(lia) ltac:(lia) Hz Hv ltac:(lia) Hf).
    rewrite Z2Nat.id, Hp by lia. reflexivity.
Qed.

(** Two passes bring the cursor and [flux] back to where they were. *)
Lemma cycle_accumulate (n : nat) :
  (∀ fuel p s,
     dat_cells s = dat_cells s0 → index_ptr s = index_ptr s0 →
     iter_limit s <= iter_ptr s →
     clock p = 2000 → flux p = 0 → pll_rev p = 0 →
     pll_accumulate n fuel p s = Fuel)
  ∧ (∀ fuel p s,
       dat_cells s = dat_cells s0 → index_ptr s = index_ptr s0 →
       iter_ptr s = 1312 → iter_limit s = 65537 →
       clock p = 2000 → flux p = -2147024871 → pll_rev p = 0 →
       pll_accumulate n fuel p s = Fuel).
Proof using All.
  induction n as [|n [IH1 IH2]].
  - split; intros fuel p s; intros; rewrite pll_accumulate_unfold;
      match goal with Hc : clock p = _, Hf : flux p = _ |- _ => rewrite Hc, Hf end;
      reflexivity.
  - split; intros fuel p s.
    + intros Hd Hi Hge Hck Hfl Hrv. rewrite pll_accumulate_unfold, Hck, Hfl, Hrv.
      change (0 <? idiv 2000 2) with true. cbv iota. change (wrap_u 0) with 0.
      destruct (cycle_first fuel s Hd Hi Hge) as [-> | ->]; [reflexivity|].
      cbn [mbind outcome_bind]. apply IH2; try assumption; try reflexivity.
    + intros Hd Hi Hp Hl Hck Hfl Hrv. rewrite pll_accumulate_unfold, Hck, Hfl, Hrv.
      change (-2147024871 <? idiv 2000 2) with true. cbv iota. change (wrap_u 0) with 0.
      destruct (cycle_second fuel s Hd Hp Hl) as [-> | ->]; [reflexivity|].
      cbn [mbind outcome_bind]. apply IH1; try assumption; try reflexivity.
      cbn. lia.
Qed.

Lemma cycle_next_bit (fuel : nat) :
  pll_next_bit fuel (pll_init 0) (scp_reset s0) = Fuel.
Proof using All.
  unfold pll_next_bit.
  rewrite (proj1 (cycle_accumulate fuel) fuel (pll_init 0) (scp_reset s0));
    reflexivity.
Qed.

End Cycle.

Lemma s_cycle_index : index_ptr Capture.s_cycle !! 0%nat = Some 65537.
Proof. vm_compute. reflexivity. Qed.

Lemma s_cycle_cells :
  dat_cells Capture.s_cycle
  = Some (replicate 1311 0 ++ [256] ++ replicate (Z.to_nat 64224) 0 ++ [65535]).
Proof. apply (bool_decide_unpack _). vm_compute. exact I. Qed.

(** C9, as stated, fails. In a slice of 1311 zero cells closed by the sample
    1, [scp_next_flux] returns the positive 85917697, yet the pass of the
    loop of [pll_next_bit] that adds 25 times this moves [flux] from 0 down
    to -2147024871. And on a slice whose two intervals add up to 2^32 ticks
    (1311 zero cells and a 1, then 64224 zero cells and 65535) the first
    call of [pll_next_bit] does not return, whatever bound the loops are
    given: [flux] alternates between -2147024871 and 0 and never reaches
    [clock/2]. *)
Lemma pll_next_bit_terminates_counterexample :
  (slice_start (scp_reset Capture.s_long) 0 = Ok 0
   ∧ slice_end (scp_reset Capture.s_long) 0 = Ok 1312
   ∧ sample (scp_reset Capture.s_long) 1311 = Some 1
   ∧ (fst <$> scp_next_flux 1312 (scp_reset Capture.s_long) 0) = Ok 85917697
   ∧ flux (pll_init 0) = 0
   ∧ ((λ r, flux r.1) <$> pll_pass 1312 (pll_init 0) (scp_reset Capture.s_long))
     = Ok (-2147024871)
   ∧ ¬ (flux (pll_init 0) + 25 <= -2147024871))
  ∧ (slice_start Capture.s_cycle 0 = Ok 0
     ∧ slice_end Capture.s_cycle 0 = Ok 65537
     ∧ sample Capture.s_cycle 1311 = Some 1
     ∧ ∀ fuel : nat,
         pll_next_bit fuel (pll_init 0) (scp_reset Capture.s_cycle) = Fuel).
Proof.
  split.
  - split; [vm_compute; reflexivity|].
    split; [vm_compute; reflexivity|].
    split; [vm_compute; reflexivity|].
    split; [vm_compute; reflexivity|].
    split; [vm_compute; reflexivity|].
    split; [vm_compute; reflexivity|].
    cbn [flux pll_init]. lia.
  - split; [vm_compute; reflexivity|].
    split; [vm_compute; reflexivity|].
    split.
    + rewrite (cycle_sample Capture.s_cycle s_cycle_cells Capture.s_cycle 1311 eq_refl)
        by lia.
      reflexivity.
    + intros fuel.
      exact (cycle_next_bit Capture.s_cycle s_cycle_cells s_cycle_index fuel).
Qed.

(** ** The track decoder *)

Section Sink.

Implicit Types (w : mfm_writer_t).

Lemma halfbits_write_halfbit w b : halfbits (mfm_write_halfbit w b) = halfbits w + 1.
Proof.
  unfold halfbits, mfm_write_halfbit. cbn [emitted].
  rewrite filter_cons_True by reflexivity. rewrite length_cons, Nat2Z.inj_succ. reflexivity.
Qed.

Lemma bytes_write_halfbit w b : bytes (mfm_write_halfbit w b) = bytes w.
Proof.
  unfold bytes, mfm_write_halfbit. cbn [emitted].
  rewrite filter_cons_False by (cbn; discriminate). reflexivity.
Qed.

Lemma halfbits_write_byte w b : halfbits (mfm_write_byte w b) = halfbits w.
Proof.
  unfold halfbits, mfm_write_byte. cbn [emitted].
  rewrite filter_cons_False by (cbn; discriminate). reflexivity.
Qed.

Lemma bytes_write_byte w b : bytes (mfm_write_byte w b) = bytes w + 1.
Proof.
  unfold bytes, mfm_write_byte. cbn [emitted].
  rewrite filter_cons_True by reflexivity. rewrite length_cons, Nat2Z.inj_succ. reflexivity.
Qed.

Lemma fill_bytes (n : nat) w :
  halfbits (Nat.iter n (λ w, mfm_write_byte w 0) w) = halfbits w
  ∧ bytes (Nat.iter n (λ w, mfm_write_byte w 0) w) = bytes w + Z.of_nat n.
Proof.
  induction n as [|n [IH1 IH2]].
  - split; [reflexivity|]. change (Z.of_nat 0) with 0. symmetry. apply Z.add_0_r.
  - rewrite Nat.iter_succ, halfbits_write_byte, bytes_write_byte, IH1, IH2, Nat2Z.inj_succ.
    split; [reflexivity|]. unfold Z.succ. symmetry. apply Z.add_assoc.
Qed.

(** The filler: 6400 bytes and no half-bit. *)
Lemma empty_track_cells w :
  halfbits (empty_track w) = halfbits w ∧ bytes (empty_track w) = bytes w + 6400.
Proof.
  unfold empty_track. destruct (fill_bytes (Z.to_nat 6400) w) as [H1 H2].
  split; [exact H1 | rewrite H2; lia].
Qed.

Lemma halfbits_reset w : halfbits (mfm_write_reset w) = halfbits w.
Proof. reflexivity. Qed.

Lemma bytes_reset w : bytes (mfm_write_reset w) = bytes w.
Proof. reflexivity. Qed.

End Sink.

Section Decode.

Implicit Types (w : mfm_writer_t) (s : scp_file_t) (p : pll_t).

Lemma track_cells_val : imul 12800 8 = 102400.
Proof. reflexivity. Qed.

Lemma fill_loop_unfold iters w n :
  fill_loop iters w n
  = if n <? imul 12800 8 then
      match iters with
      | O => Fuel
      | S iters' =>
          let n := iadd n 1 in
          let w := mfm_write_halfbit w (lnot (last w)) in
          let again := n <? imul 12800 8 in
          let n := iadd n 1 in
          let w := if again then mfm_write_halfbit w (lnot (last w)) else w in
          fill_loop iters' w n
      end
    else Ok w.
Proof. destruct iters; reflexivity. Qed.

(** The fill ends, having brought the count [n] up to 102400. *)
Lemma fill_loop_cells (iters : nat) : ∀ w n,
  in_int n →
  (Z.to_nat (102400 - n) <= iters)%nat →
  ∃ w', fill_loop iters w n = Ok w'
        ∧ halfbits w' = halfbits w + Z.max 0 (102400 - n)
        ∧ bytes w' = bytes w.
Proof.
  induction iters as [|iters IH]; intros w n Hn Hi; rewrite fill_loop_unfold,
    track_cells_val; destruct (Z.ltb_spec n 102400) as [Hlt | Hge];
    try (exists w; split; [reflexivity | split; [lia | reflexivity]]).
  - lia.
  - cbn zeta. unfold in_int in Hn.
    unfold iadd. rewrite !(wrap_s_small (n + 1)) by lia.
    rewrite (wrap_s_small (n + 1 + 1)) by lia.
    set (w1 := mfm_write_halfbit w (lnot (last w))).
    destruct (Z.ltb_spec (n + 1) 102400) as [Hlt2 | Hge2].
    + destruct (IH (mfm_write_halfbit w1 (lnot (last w1))) (n + 1 + 1))
        as (w' & Hf & Hh & Hb); [unfold in_int; lia | lia |].
      exists w'. split; [exact Hf|].
      rewrite Hh, Hb, !halfbits_write_halfbit, !bytes_write_halfbit.
      subst w1. rewrite halfbits_write_halfbit, bytes_write_halfbit. split; lia.
    + destruct (IH w1 (n + 1 + 1)) as (w' & Hf & Hh & Hb); [unfold in_int; lia | lia |].
      exists w'. split; [exact Hf|].
      rewrite Hh, Hb. subst w1.
      rewrite halfbits_write_halfbit, bytes_write_halfbit. split; lia.
Qed.

(** What the [do ... while] loop hands to the sink: [k >= 1] half-bits, one
    per pass, counted in [n]. *)
Lemma decode_loop_cells (iters : nat) : ∀ fuel p s w n n' p' s' w',
  decode_loop iters fuel p s w n = Ok (n', p', s', w') →
  ∃ k : Z, 1 <= k <= Z.of_nat iters
           ∧ n' = wrap_s (n + k)
           ∧ halfbits w' = halfbits w + k
           ∧ bytes w' = bytes w.
Proof.
  induction iters as [|iters IH]; intros fuel p s w n n' p' s' w'; [discriminate|].
  cbn [decode_loop].
  destruct (pll_next_bit fuel p s) as [[[b p1] s1]| | |]; cbn [mbind outcome_bind];
    try discriminate.
  destruct (iter_ptr s1 <? iter_limit s1).
  - intros H. apply IH in H as (k & Hk & Hn & Hh & Hb).
    exists (k + 1). split; [lia|]. split; [|split].
    + rewrite Hn. unfold iadd. rewrite wrap_s_add_l. f_equal. lia.
    + rewrite Hh, halfbits_write_halfbit. lia.
    + rewrite Hb, bytes_write_halfbit. reflexivity.
  - intros [= <- <- <- <-]. exists 1. split; [lia|]. split; [reflexivity|].
    rewrite halfbits_write_halfbit, bytes_write_halfbit. split; reflexivity.
Qed.

(** [decode_track] is the natural decode followed by the fill. *)
Lemma decode_track_eq fuel s rv w n p1 s1 w1 w2 :
  decode_natural fuel s rv w = Ok (n, p1, s1, w1) →
  fill_loop (Z.to_nat (102400 - n)) w1 n = Ok w2 →
  decode_track fuel s rv w = Ok (w2, s1).
Proof.
  intros Hnat Hf. unfold decode_track. rewrite Hnat. cbn [mbind outcome_bind].
  rewrite track_cells_val, Hf. reflexivity.
Qed.

End Decode.

(** The cells of a decoded track: [k] from the natural decode, and the
    fill up to 102400 as the counter [n = wrap_s k] sees it. *)
Lemma decode_track_count (fuel : nat) (s : scp_file_t) (rv : Z)
    (w w' : mfm_writer_t) (s' : scp_file_t) :
  decode_track fuel s rv w = Ok (w', s') →
  ∃ (k : Z) (p1 : pll_t) (s1 : scp_file_t) (w1 : mfm_writer_t),
    decode_natural fuel s rv w = Ok (wrap_s k, p1, s1, w1)
    ∧ 1 <= k
    ∧ halfbits w1 = halfbits w + k
    ∧ halfbits w' = halfbits w1 + Z.max 0 (102400 - wrap_s k)
    ∧ bytes w' = bytes w.
Proof.
  unfold decode_track. intros H.
  destruct (decode_natural fuel s rv w) as [[[[n p1] s1] w1]| | |] eqn:Hnat;
    cbn [mbind outcome_bind] in H; try discriminate.
  assert (Hloop : ∃ k : Z, 1 <= k ∧ n = wrap_s k
                  ∧ halfbits w1 = halfbits w + k ∧ bytes w1 = bytes w).
  { unfold decode_natural in Hnat.
    destruct (pll_next_bit fuel (pll_init rv) (scp_reset s)) as [[[b p0] s0]| | |];
      cbn [mbind outcome_bind] in Hnat; try discriminate.
    apply decode_loop_cells in Hnat as (k & Hk & Hn & Hh & Hb).
    exists k. rewrite Z.add_0_l in Hn. repeat split; try assumption; lia. }
  destruct Hloop as (k & Hk & Hn & Hh & Hb).
  rewrite track_cells_val in H.
  destruct (fill_loop_cells (Z.to_nat (102400 - n)) w1 n) as (w2 & Hf & Hh2 & Hb2).
  { subst n. apply wrap_s_range. }
  { lia. }
  rewrite Hf in H. cbn [mbind outcome_bind] in H. injection H as <- <-.
  exists k, p1, s1, w1. subst n.
  split; [reflexivity|]. split; [exact Hk|]. split; [exact Hh|].
  split; [exact Hh2 | rewrite Hb2, Hb; reflexivity].
Qed.

(** *** A revolution of samples of one clock period *)

Section Steady.

Variables (N : nat) (s0 : scp_file_t).

Hypothesis Hcells : dat_cells s0 = Some (replicate N 20480).
Hypothesis Hix : index_ptr s0 !! 0%nat = Some (Z.of_nat N).
Hypothesis HN : Z.of_nat N < 2 ^ 31.

Lemma steady_sample s i :
  dat_cells s = dat_cells s0 → 0 <= i < Z.of_nat N → sample s i = Some 80.
Proof using Hcells.
  intros Hd Hi. unfold sample. rewrite Hd, Hcells. cbn.
  rewrite lookup_replicate_2 by lia. reflexivity.
Qed.

Lemma pll_clock_bit_steady p :
  clock p = 2000 → flux p = 2000 → clocked_zeros p = 0 →
  ∃ tm, pll_clock_bit p
        = (1, {| pll_rev := pll_rev p; clock := 2000; flux := 0; time := tm;
                 clocked_zeros := 0 |}).
Proof.
  destruct p as [r c f t z]. cbn. intros -> -> ->. eexists. reflexivity.
Qed.

Lemma steady_next_bit fuel p s s1 :
  (1 <= fuel)%nat →
  steady p →
  flux_restart s 0 0 = Ok (s1, 0) →
  dat_cells s1 = dat_cells s0 →
  0 <= iter_ptr s1 < Z.of_nat N →
  iter_limit s1 = Z.of_nat N →
  ∃ p', pll_next_bit fuel p s = Ok (1, p', set_iter_ptr (iter_ptr s1 + 1) s1)
        ∧ steady p'.
Proof using All.
  intros Hf (Hck & Hfl & Hcz & Hrv) Hr Hd Hp Hl.
  destruct fuel as [|fuel]; [lia|].
  assert (Hnf : scp_next_flux (S fuel) s (wrap_u (pll_rev p))
                = Ok (80, set_iter_ptr (iter_ptr s1 + 1) s1)).
  { rewrite Hrv. unfold scp_next_flux. change (wrap_u 0) with 0.
    assert (Hs : sample s1 (iter_ptr s1 + Z.of_nat 0) = Some 80).
    { rewrite Z.add_0_r. apply steady_sample; [exact Hd | lia]. }
    rewrite (next_flux_loop_run 0 s s1 0 0 0 80 (S fuel) Hr
               ltac:(lia) ltac:(lia) ltac:(lia) ltac:(intros j Hj; lia) Hs
               ltac:(lia) ltac:(lia)).
    replace (iter_ptr s1 + Z.of_nat 0 + 1) with (iter_ptr s1 + 1) by lia. reflexivity. }
  unfold pll_next_bit.
  rewrite (pll_accumulate_pass fuel (S fuel) p s _ _) by
    (first [exact Hnf | rewrite Hfl, Hck; reflexivity]).
  rewrite pll_accumulate_unfold. cbn [flux clock set_flux]. rewrite Hfl, Hck.
  change (wrap_s (0 + 25 * 80) <? idiv 2000 2) with false. cbn [mbind outcome_bind].
  destruct (pll_clock_bit_steady (set_flux (wrap_s (0 + 25 * 80)) p)) as [tm Hb];
    [exact Hck | reflexivity | exact Hcz |].
  rewrite Hb. eexists. split; [reflexivity|].
  unfold steady. cbn. auto.
Qed.

(** From a cursor [d + 1] cells before the limit, the loop runs [d + 1]
    passes, one half-bit each. *)
Lemma steady_loop (d : nat) : ∀ (iters fuel : nat) p s w n,
  (d < iters)%nat → (1 <= fuel)%nat →
  steady p →
  dat_cells s = dat_cells s0 →
  iter_limit s = Z.of_nat N →
  0 <= iter_ptr s →
  iter_ptr s + Z.of_nat d + 1 = Z.of_nat N →
  0 <= n → n + Z.of_nat d + 1 < 2 ^ 31 →
  ∃ p' s' w',
    decode_loop iters fuel p s w n = Ok (n + Z.of_nat d + 1, p', s', w')
    ∧ halfbits w' = halfbits w + Z.of_nat d + 1.
Proof using All.
  induction d as [|d IH]; intros iters fuel p s w n Hi Hf Hst Hd Hl Hp0 Hp Hn0 Hn;
    (destruct iters as [|iters]; [lia|]); cbn [decode_loop];
    destruct (steady_next_bit fuel p s s Hf Hst) as (p' & Hnb & Hst');
    try (apply flux_restart_inside); try assumption; try lia;
    rewrite Hnb; cbn [mbind outcome_bind iter_ptr iter_limit set_iter_ptr];
    rewrite Hl; unfold iadd; rewrite (wrap_s_small (n + 1)) by lia.
  - destruct (Z.ltb_spec (iter_ptr s + 1) (Z.of_nat N)); [lia|].
    eexists _, _, _. split; [do 4 f_equal; lia|].
    rewrite halfbits_write_halfbit. lia.
  - destruct (Z.ltb_spec (iter_ptr s + 1) (Z.of_nat N)); [|lia].
    destruct (IH iters fuel p' (set_iter_ptr (iter_ptr s + 1) s)
                (mfm_write_halfbit w 1) (n + 1))
      as (p'' & s'' & w'' & Hloop & Hh); try assumption; cbn [iter_ptr iter_limit set_iter_ptr];
      try lia.
    eexists _, _, _. rewrite Hloop. split; [do 4 f_equal; lia|].
    rewrite Hh, halfbits_write_halfbit. lia.
Qed.

(** The whole track: [N - 1] half-bits from the natural decode, and the
    fill only if that is less than 102400. *)
Lemma steady_track (fuel : nat) s w :
  (2 <= N)%nat → (N <= fuel)%nat →
  dat_cells s = dat_cells s0 →
  index_ptr s = index_ptr s0 →
  ∃ w' s',
    decode_track fuel s 0 w = Ok (w', s')
    ∧ halfbits w' = halfbits w + Z.max (Z.of_nat N - 1) 102400.
Proof using All.
  intros H2 Hf Hd Hi.
  set (s1 := set_iter_ptr 0 (set_iter_limit (Z.of_nat N) (scp_reset s))).
  assert (Hr : flux_restart (scp_reset s) 0 0 = Ok (s1, 0)).
  { assert (Hli : load_index (scp_reset s) 0 = Ok (Z.of_nat N)).
    { unfold load_index. change (index_ptr (scp_reset s)) with (index_ptr s).
      rewrite Hi. change (Z.to_nat 0) with 0%nat. rewrite Hix. reflexivity. }
    unfold flux_restart.
    change (iter_limit (scp_reset s) <=? iter_ptr (scp_reset s)) with true.
    cbv iota. rewrite Hli. reflexivity. }
  destruct (steady_next_bit fuel (pll_init 0) (scp_reset s) s1) as (p1 & Hnb & Hst1);
    try assumption; try (subst s1; cbn; lia); try lia.
  { unfold steady, pll_init. cbn. auto. }
  destruct (steady_loop (N - 2) fuel fuel p1 (set_iter_ptr (iter_ptr s1 + 1) s1) w 0)
    as (p2 & s2 & w2 & Hloop & Hh); try assumption;
    try (subst s1; cbn [iter_ptr iter_limit set_iter_ptr set_iter_limit]; lia); try lia.
  unfold decode_track, decode_natural. rewrite Hnb. cbn [mbind outcome_bind].
  rewrite Hloop. cbn [mbind outcome_bind]. rewrite track_cells_val.
  destruct (fill_loop_cells (Z.to_nat (102400 - (0 + Z.of_nat (N - 2) + 1))) w2
              (0 + Z.of_nat (N - 2) + 1)) as (w3 & Hfl & Hh3 & _);
    [unfold in_int; lia | lia |].
  rewrite Hfl. cbn [mbind outcome_bind].
  eexists _, _. split; [reflexivity|]. rewrite Hh3, Hh. lia.
Qed.

End Steady.

Lemma s_dense_index : index_ptr Capture.s_dense !! 0%nat = Some 102402.
Proof. vm_compute. reflexivity. Qed.

Lemma s_dense_cells :
  dat_cells Capture.s_dense = Some (replicate (Z.to_nat 102402) 20480).
Proof. apply (bool_decide_unpack _). vm_compute. exact I. Qed.

(** C2, as stated, fails: a revolution of 102402 samples of one clock period
    each decodes to 102401 half-bits, the fill adds none, and the sink
    receives 102401 cells, not 12800*8. *)
Lemma decode_track_cells_counterexample :
  ∃ w' s',
    decode_track (Z.to_nat 102402) Capture.s_dense 0 Capture.w0 = Ok (w', s')
    ∧ halfbits w' = halfbits Capture.w0 + 102401
    ∧ halfbits w' ≠ halfbits Capture.w0 + 12800 * 8.
Proof.
  assert (Hix : index_ptr Capture.s_dense !! 0%nat = Some (Z.of_nat (Z.to_nat 102402))).
  { rewrite Z2Nat.id by lia. exact s_dense_index. }
  assert (HN : Z.of_nat (Z.to_nat 102402) < 2 ^ 31) by lia.
  destruct (steady_track (Z.to_nat 102402) Capture.s_dense s_dense_cells Hix HN
              (Z.to_nat 102402) Capture.s_dense Capture.w0)
    as (w' & s' & E & Hh); [lia | apply le_n | reflexivity | reflexivity |].
  exists w', s'. split; [exact E|].
  rewrite Hh, Z2Nat.id by lia. split; lia.
Qed.

(** *** The decode of a track returns *)

Section ClockBit.

Implicit Types (p : pll_t).

Lemma quot_40_bounds x :
  -1101 <= x < 53687091 →
  -440 <= (x * 40) ÷ 100 ∧ ((x * 40) ÷ 100 <= Z.max 0 x).
Proof.
  intros Hx. destruct (Z_le_gt_dec 0 x) as [H0 | H0].
  - rewrite Z.quot_div_nonneg by lia.
    assert (0 <= x * 40 / 100) by (apply Z.div_pos; lia).
    assert (x * 40 / 100 <= x) by (apply Z.div_le_upper_bound; lia). lia.
  - replace (x * 40) with (- (- x * 40)) by lia.
    rewrite Z.quot_opp_l by lia. rewrite Z.quot_div_nonneg by lia.
    assert (0 <= - x * 40 / 100) by (apply Z.div_pos; lia).
    assert (- x * 40 / 100 < 441) by (apply Z.div_lt_upper_bound; lia). lia.
Qed.

Lemma half_clock p :
  clock_in_band p →
  900 <= idiv (clock p) 2 <= 1100
  ∧ clock p - 1 <= 2 * idiv (clock p) 2 <= clock p.
Proof.
  unfold clock_in_band. intros Hb.
  rewrite idiv_in_int by (unfold in_int; lia).
  rewrite Z.quot_div_nonneg by lia.
  pose proof (Z.div_mod (clock p) 2 ltac:(lia)).
  pose proof (Z.mod_pos_bound (clock p) 2 ltac:(lia)). lia.
Qed.

(** After the loop, one call leaves a residue in [-440, flux). *)
Lemma pll_clock_bit_flux rv p :
  clock_in_band p →
  idiv (clock p) 2 <= flux p < 2 ^ 31 →
  wrap_u (pll_rev p) = rv →
  pll_ok rv (pll_clock_bit p).2 ∧ flux (pll_clock_bit p).2 < flux p.
Proof.
  intros Hb Hfl Hrv.
  pose proof (pll_clock_bit_band p Hb) as Hb'.
  pose proof (half_clock p Hb) as [Hh Hh2].
  unfold pll_ok. split; [split; [exact Hb'|]|].
  - clear Hb'. unfold pll_clock_bit, clock_in_band in *.
    cbn [set_time set_flux clock flux time clocked_zeros pll_rev].
    assert (Hsub : isub (flux p) (clock p) = flux p - clock p)
      by (apply wrap_s_small; lia).
    rewrite Hsub.
    destruct (Z.leb_spec (idiv (clock p) 2) (flux p - clock p)) as [Hz | Ho].
    + cbn. split; [lia | exact Hrv].
    + assert (Hq := quot_40_bounds (flux p - clock p) ltac:(lia)).
      assert (Hnf : idiv (imul (flux p - clock p) (isub 100 PHASE_ADJ_PCT)) 100
                    = ((flux p - clock p) * 40) ÷ 100).
      { change (isub 100 PHASE_ADJ_PCT) with 40. unfold imul.
        rewrite (wrap_s_small ((flux p - clock p) * 40)) by lia.
        apply idiv_in_int; [lia | unfold in_int; lia]. }
      destruct (clocked_zeros p <=? 3);
        repeat match goal with
               | |- context [if ?c then _ else _] => destruct c
               end;
        cbn [set_time set_flux set_clock set_clocked_zeros clock flux time
             clocked_zeros pll_rev snd];
        rewrite Hnf; (split; [lia | exact Hrv]).
  - unfold pll_clock_bit, clock_in_band in *.
    cbn [set_time set_flux clock flux time clocked_zeros pll_rev].
    assert (Hsub : isub (flux p) (clock p) = flux p - clock p)
      by (apply wrap_s_small; lia).
    rewrite Hsub.
    destruct (Z.leb_spec (idiv (clock p) 2) (flux p - clock p)) as [Hz | Ho].
    + cbn. lia.
    + assert (Hq := quot_40_bounds (flux p - clock p) ltac:(lia)).
      assert (Hnf : idiv (imul (flux p - clock p) (isub 100 PHASE_ADJ_PCT)) 100
                    = ((flux p - clock p) * 40) ÷ 100).
      { change (isub 100 PHASE_ADJ_PCT) with 40. unfold imul.
        rewrite (wrap_s_small ((flux p - clock p) * 40)) by lia.
        apply idiv_in_int; [lia | unfold in_int; lia]. }
      destruct (clocked_zeros p <=? 3);
        repeat match goal with
               | |- context [if ?c then _ else _] => destruct c
               end;
        cbn [set_time set_flux set_clock set_clocked_zeros clock flux time
             clocked_zeros pll_rev snd];
        rewrite Hnf; lia.
Qed.

Lemma pll_accumulate_exit n fuel : ∀ p s p' s',
  pll_accumulate n fuel p s = Ok (p', s') →
  in_int (flux p) →
  idiv (clock p') 2 <= flux p' ∧ in_int (flux p').
Proof.
  induction n as [|n IH]; intros p s p' s'; rewrite pll_accumulate_unfold;
    destruct (Z.ltb_spec (flux p) (idiv (clock p) 2)); try discriminate;
    try (intros [= <- <-]; auto).
  destruct (scp_next_flux fuel s (wrap_u (pll_rev p))) as [[v s1]| | |];
    cbn [mbind outcome_bind]; try discriminate.
  intros Hacc _. apply IH in Hacc; [exact Hacc|].
  cbn [flux set_flux]. rewrite add_flux_eq. apply wrap_s_range.
Qed.

End ClockBit.

Section Returns.

Variables (rv lo hi : Z) (ix : list Z) (s0 : scp_file_t).

Hypothesis Hlo : 0 <= lo.
Hypothesis Hne : lo < hi.
Hypothesis Hhi : hi < 2 ^ 32.
Hypothesis Hrd : slice_readable s0 lo hi.
Hypothesis Hcb : carry_below 1310 s0 lo hi.
Hypothesis Hpc : slice_paced s0 lo hi.
Hypothesis Hcl : slice_closed s0 hi.

(** From a cursor inside the slice, a call consumes one interval and stops
    at the latest on the last cell: it does not wrap. *)
Lemma next_flux_advances s s1 (fuel : nat) :
  flux_restart s rv 0 = Ok (s1, 0) →
  dat_cells s1 = dat_cells s0 →
  iter_limit s1 = hi →
  lo <= iter_ptr s1 < hi →
  (Z.to_nat (hi - lo) <= fuel)%nat →
  ∃ v ptr',
    scp_next_flux fuel s rv = Ok (v, set_iter_ptr ptr' s1)
    ∧ iter_ptr s1 < ptr' <= hi
    ∧ 62 <= v <= 85852159.
Proof using All.
  intros Hr Hd Hl Hp Hf.
  assert (Hsame : ∀ i, sample s1 i = sample s0 i).
  { intros i. apply sample_same_cells. exact Hd. }
  destruct (scan_cells s1 (Z.to_nat (hi - iter_ptr s1)) (iter_ptr s1))
    as [Hz | (k & t & Hk & Hz & Hv & Hv0)].
  { intros i Hi. rewrite Hsame. apply Hrd. lia. }
  - exfalso. apply Hcl. rewrite <- Hsame.
    replace (hi - 1) with (iter_ptr s1 + Z.of_nat (Z.to_nat (hi - 1 - iter_ptr s1))) by lia.
    apply Hz. lia.
  - assert (Hk' : Z.of_nat k < 1310).
    { destruct (Z_lt_ge_dec (Z.of_nat k) 1310) as [H | H]; [exact H|].
      destruct (Hcb (iter_ptr s1) ltac:(lia) ltac:(lia)) as (j & Hj & Hnz).
      exfalso. apply Hnz. rewrite <- Hsame.
      replace j with (iter_ptr s1 + Z.of_nat (Z.to_nat (j - iter_ptr s1))) by lia.
      apply Hz. lia. }
    pose proof (sample_range _ _ _ Hv) as Hrg.
    assert (Ht : 62 <= t).
    { rewrite Hsame in Hv.
      destruct (Hpc (iter_ptr s1 + Z.of_nat k) t ltac:(lia) Hv); [contradiction | assumption]. }
    unfold scp_next_flux.
    rewrite (next_flux_loop_run k s s1 rv 0 0 t fuel Hr
               ltac:(lia) ltac:(lia) ltac:(lia) Hz Hv Hv0 ltac:(lia)).
    eexists _, _. split; [reflexivity|].
    rewrite wrap_u_small by lia. lia.
Qed.

(** A call that needs flux consumes exactly one interval. *)
Lemma pll_consume (fuel : nat) p s s1 :
  pll_ok rv p →
  flux p < idiv (clock p) 2 →
  flux_restart s rv 0 = Ok (s1, 0) →
  dat_cells s1 = dat_cells s0 →
  iter_limit s1 = hi →
  lo <= iter_ptr s1 < hi →
  (Z.to_nat (hi - lo) <= fuel)%nat →
  ∃ bit p' ptr',
    pll_next_bit fuel p s = Ok (bit, p', set_iter_ptr ptr' s1)
    ∧ pll_ok rv p'
    ∧ iter_ptr s1 < ptr' <= hi.
Proof using All.
  intros (Hb & Hfl & Hrv) Hlt Hr Hd Hl Hp Hf.
  destruct (next_flux_advances s s1 fuel Hr Hd Hl Hp Hf) as (v & ptr' & Hnf & Hptr & Hv).
  destruct (half_clock p Hb) as [Hh _].
  destruct fuel as [|f]; [lia|].
  unfold pll_next_bit. rewrite <- Hrv in Hnf.
  rewrite (pll_accumulate_pass f (S f) p s _ _ Hlt Hnf).
  rewrite (wrap_s_small (flux p + 25 * v)) by lia.
  rewrite pll_accumulate_unfold. cbn [flux clock set_flux].
  destruct (Z.ltb_spec (flux p + 25 * v) (idiv (clock p) 2)); [lia|].
  cbn [mbind outcome_bind].
  destruct (pll_clock_bit_flux rv (set_flux (flux p + 25 * v) p)) as [Hok _];
    cbn [flux clock set_flux pll_rev]; try assumption; try lia.
  destruct (pll_clock_bit (set_flux (flux p + 25 * v) p)) as [bit p'].
  exists bit, p', ptr'. split; [reflexivity|]. split; [exact Hok | exact Hptr].
Qed.

(** A call that has flux enough consumes none, and the residue shrinks. *)
Lemma pll_idle (fuel : nat) p s :
  pll_ok rv p →
  idiv (clock p) 2 <= flux p →
  ∃ bit p',
    pll_next_bit fuel p s = Ok (bit, p', s) ∧ pll_ok rv p' ∧ flux p' < flux p.
Proof using Type.
  intros (Hb & Hfl & Hrv) Hge.
  unfold pll_next_bit. rewrite pll_accumulate_unfold.
  destruct (Z.ltb_spec (flux p) (idiv (clock p) 2)); [lia|].
  cbn [mbind outcome_bind].
  destruct (pll_clock_bit_flux rv p Hb ltac:(lia) Hrv) as [Hok Hdec].
  destruct (pll_clock_bit p) as [bit p'].
  exists bit, p'. split; [reflexivity|]. split; [exact Hok | exact Hdec].
Qed.

(** The loop ends: each pass moves the cursor forward or shrinks the
    residue, so [(hi - ptr) * 2^32 + flux] decreases. *)
Lemma decode_loop_returns (M : nat) : ∀ (iters fuel : nat) p s w n,
  pll_ok rv p →
  dat_cells s = dat_cells s0 →
  iter_limit s = hi →
  lo <= iter_ptr s < hi →
  (hi - iter_ptr s) * 2 ^ 32 + flux p + 440 <= Z.of_nat M →
  (M < iters)%nat →
  (Z.to_nat (hi - lo) <= fuel)%nat →
  returns (decode_loop iters fuel p s w n) = true.
Proof using All.
  induction M as [|M IH]; intros iters fuel p s w n Hok Hd Hl Hp HM Hi Hf;
    pose proof Hok as (Hb & Hfl & Hrv).
  - exfalso. nia.
  - destruct iters as [|iters]; [lia|]. cbn [decode_loop].
    destruct (Z.ltb_spec (flux p) (idiv (clock p) 2)) as [Hlt | Hge].
    + destruct (pll_consume fuel p s s Hok Hlt) as (bit & p' & ptr' & Hnb & Hok' & Hptr);
        try assumption; [apply flux_restart_inside; lia|].
      rewrite Hnb. cbn [mbind outcome_bind iter_ptr iter_limit set_iter_ptr]. rewrite Hl.
      destruct (Z.ltb_spec ptr' hi); [|reflexivity].
      apply IH; cbn [iter_ptr iter_limit set_iter_ptr]; try assumption; try lia.
      destruct Hok' as (_ & Hfl' & _). nia.
    + destruct (pll_idle fuel p s Hok Hge) as (bit & p' & Hnb & Hok' & Hdec).
      rewrite Hnb. cbn [mbind outcome_bind]. rewrite Hl.
      destruct (Z.ltb_spec (iter_ptr s) hi); [|reflexivity].
      apply IH; try assumption; try lia.
Qed.

(** The same from a cursor at the end of the slice or as [scp_reset] leaves
    it: the first pass restarts at [lo]. *)
Lemma decode_loop_restarts (iters fuel : nat) p s w n :
  pll_ok rv p →
  slice_of rv lo hi ix s →
  dat_cells s = dat_cells s0 →
  cursor_ok s lo hi →
  iter_limit s <= iter_ptr s →
  (Z.to_nat ((hi - lo) * 2 ^ 32 + 2 ^ 32) <= iters)%nat →
  (Z.to_nat (hi - lo) <= fuel)%nat →
  returns (decode_loop iters fuel p s w n) = true.
Proof using All.
  intros Hok Hsl Hd Hc Hge Hi Hf. pose proof Hok as (Hb & Hfl & Hrv).
  destruct (flux_restart_ok rv lo hi ix Hlo Hne Hhi s 0 Hsl Hc)
    as (s1 & val1 & Hr & Hix1 & Hd1 & Hl1 & Hp1 & Hre & _).
  destruct (Hre Hge) as [Es1 ->].
  destruct iters as [|iters]; [lia|]. cbn [decode_loop].
  destruct (Z.ltb_spec (flux p) (idiv (clock p) 2)) as [Hlt | Hge2].
  - destruct (pll_consume fuel p s s1 Hok Hlt Hr) as (bit & p' & ptr' & Hnb & Hok' & Hptr);
      try assumption; try congruence.
    rewrite Hnb. cbn [mbind outcome_bind iter_ptr iter_limit set_iter_ptr]. rewrite Hl1.
    destruct (Z.ltb_spec ptr' hi); [|reflexivity].
    apply (decode_loop_returns (Z.to_nat ((hi - lo) * 2 ^ 32 + 2 ^ 32) - 2)).
    + exact Hok'.
    + rewrite dat_cells_set_iter_ptr. congruence.
    + exact Hl1.
    + cbn [iter_ptr set_iter_ptr]. lia.
    + destruct Hok' as (_ & Hfl' & _). cbn [iter_ptr set_iter_ptr].
      rewrite Nat2Z.inj_sub, Z2Nat.id by lia. change (Z.of_nat 2) with 2. lia.
    + lia.
    + exact Hf.
  - destruct (pll_idle fuel p s Hok Hge2) as (bit & p' & Hnb & Hok' & Hdec).
    rewrite Hnb. cbn [mbind outcome_bind].
    destruct (Z.ltb_spec (iter_ptr s) (iter_limit s)); [lia | reflexivity].
Qed.

End Returns.

(** The decode of a track returns when the revolution is non-empty and in
    the buffer, holds no carry run of 1310 cells, does not end on a carry
    and has no sample shorter than 62 ticks. *)
Lemma decode_track_returns (fuel : nat) (s : scp_file_t) (rv lo hi : Z)
    (w : mfm_writer_t) :
  slice_start s rv = Ok lo →
  slice_end s rv = Ok hi →
  0 <= lo → lo < hi → hi < 2 ^ 32 →
  0 <= rv < 2 ^ 32 →
  slice_readable s lo hi →
  carry_below 1310 s lo hi →
  slice_paced s lo hi →
  slice_closed s hi →
  (Z.to_nat ((hi - lo) * 2 ^ 32 + 2 ^ 32) <= fuel)%nat →
  ∃ w' s', decode_track fuel s rv w = Ok (w', s').
Proof.
  intros Hs He Hlo Hne Hhi Hrv Hrd Hcb Hpc Hcl Hf.
  assert (Hsl : slice_of rv lo hi (index_ptr s) (scp_reset s)).
  { split; [reflexivity | split; assumption]. }
  assert (Hc : cursor_ok (scp_reset s) lo hi) by (left; split; reflexivity).
  destruct (flux_restart_ok rv lo hi (index_ptr s) Hlo Hne Hhi (scp_reset s) 0 Hsl Hc)
    as (s1 & val1 & Hr & Hix1 & Hd1 & Hl1 & Hp1 & Hre & _).
  destruct (Hre ltac:(cbn; lia)) as [Es1 ->].
  assert (Hok : pll_ok rv (pll_init rv)).
  { unfold pll_ok, clock_in_band, pll_init, CLOCK_CENTRE. cbn.
    rewrite wrap_u_small by lia. lia. }
  destruct (pll_consume rv lo hi (index_ptr s) s Hlo Hne Hhi Hrd Hcb Hpc Hcl fuel (pll_init rv)
              (scp_reset s) s1 Hok ltac:(reflexivity) Hr Hd1 Hl1 Hp1 ltac:(lia))
    as (bit & p' & ptr' & Hnb & Hok' & Hptr).
  assert (Hloop : returns (decode_loop fuel fuel p' (set_iter_ptr ptr' s1) w 0) = true).
  { destruct (Z_lt_ge_dec ptr' hi) as [Hin | Hend].
    - apply (decode_loop_returns rv lo hi (index_ptr s) s Hlo Hne Hhi Hrd Hcb Hpc Hcl
               (Z.to_nat ((hi - lo) * 2 ^ 32 + 2 ^ 32) - 2)).
      + exact Hok'.
      + exact Hd1.
      + exact Hl1.
      + cbn [iter_ptr set_iter_ptr]. lia.
      + destruct Hok' as (_ & Hfl' & _). cbn [iter_ptr set_iter_ptr].
        rewrite Nat2Z.inj_sub, Z2Nat.id by lia. change (Z.of_nat 2) with 2. lia.
      + lia.
      + lia.
    - apply (decode_loop_restarts rv lo hi (index_ptr s) s Hlo Hne Hhi Hrd Hcb Hpc Hcl).
      + exact Hok'.
      + apply (slice_of_index rv lo hi (index_ptr s) (scp_reset s)); [exact Hix1 | exact Hsl].
      + exact Hd1.
      + right. cbn [iter_ptr iter_limit set_iter_ptr]. lia.
      + cbn [iter_ptr iter_limit set_iter_ptr]. lia.
      + lia.
      + lia. }
  unfold decode_track, decode_natural. rewrite Hnb. cbn [mbind outcome_bind].
  destruct (decode_loop fuel fuel p' (set_iter_ptr ptr' s1) w 0)
    as [[[[n p2] s2] w2]| | |] eqn:Hdl; try discriminate Hloop.
  cbn [mbind outcome_bind]. rewrite track_cells_val.
  apply decode_loop_cells in Hdl as (k & _ & Hn & _).
  destruct (fill_loop_cells (Z.to_nat (102400 - n)) w2 n) as (w3 & Hfl & _).
  { subst n. apply wrap_s_range. }
  { lia. }
  rewrite Hfl. cbn [mbind outcome_bind]. eauto.
Qed.

(** C2 (amended). When the decode of a selected track returns, the natural
    decode has handed [k >= 1] half-bits to the sink, and the fill brings the
    count up to 12800*8 only from below: the track receives
    [max k (12800*8)] half-bit cells (for [k] below 2^31, the range of the
    counter [n]), that is exactly 12800*8 = 102400 when the natural decode
    produced at most that many, and [k] when it produced more; no byte is
    written. And the decode does return, once the loops are given bound
    enough, when the revolution is non-empty and in the buffer, holds no
    carry run of 1310 cells, does not end on a carry and has no sample
    shorter than 62 ticks. *)
Theorem decode_track_cells (fuel : nat) (s : scp_file_t) (rv : Z) (w : mfm_writer_t) :
  (∀ (w' : mfm_writer_t) (s' : scp_file_t),
     decode_track fuel s rv w = Ok (w', s') →
     ∃ (k : Z) (p1 : pll_t) (s1 : scp_file_t) (w1 : mfm_writer_t),
       decode_natural fuel s rv w = Ok (wrap_s k, p1, s1, w1)
       ∧ 1 <= k
       ∧ halfbits w1 = halfbits w + k
       ∧ (k < 2 ^ 31 → halfbits w' = halfbits w + Z.max k (12800 * 8))
       ∧ (k <= 12800 * 8 → halfbits w' = halfbits w + 12800 * 8)
       ∧ bytes w' = bytes w)
  ∧ (∀ lo hi : Z,
       slice_start s rv = Ok lo →
       slice_end s rv = Ok hi →
       0 <= lo → lo < hi → hi < 2 ^ 32 →
       0 <= rv < 2 ^ 32 →
       slice_readable s lo hi →
       carry_below 1310 s lo hi →
       slice_paced s lo hi →
       slice_closed s hi →
       (Z.to_nat ((hi - lo) * 2 ^ 32 + 2 ^ 32) <= fuel)%nat →
       ∃ w' s', decode_track fuel s rv w = Ok (w', s')).
Proof.
  split.
  - intros w' s' H.
    destruct (decode_track_count fuel s rv w w' s' H)
      as (k & p1 & s1 & w1 & Hnat & Hk & Hh & Hh2 & Hb).
    exists k, p1, s1, w1.
    split; [exact Hnat|]. split; [exact Hk|]. split; [exact Hh|].
    split; [|split; [|exact Hb]].
    + intros Hlt. rewrite Hh2, Hh, wrap_s_small by lia. lia.
    + intros Hle. rewrite Hh2, Hh, wrap_s_small by lia. lia.
  - intros lo hi. apply decode_track_returns.
Qed.

Lemma decode_track_cells_witness :
  ∃ w' s',
    decode_track 10 Capture.s_three 0 Capture.w0 = Ok (w', s')
    ∧ halfbits w' = halfbits Capture.w0 + 12800 * 8
    ∧ bytes w' = bytes Capture.w0.
Proof.
  destruct (decode_natural 10 Capture.s_three 0 Capture.w0)
    as [[[[n p1] s1] w1]| | |] eqn:Hnat; try (vm_compute in Hnat; discriminate Hnat).
  pose proof Hnat as Hc. vm_compute in Hc. injection Hc as <- <- <- <-.
  match type of Hnat with
  | _ = Ok (?n, _, ?s1, ?w1) =>
      destruct (fill_loop_cells (Z.to_nat (102400 - n)) w1 n) as (w2 & Hf & _);
        [unfold in_int; lia | apply le_n |]
  end.
  pose proof (decode_track_eq _ _ _ _ _ _ _ _ _ Hnat Hf) as E.
  eexists _, _. split; [exact E|].
  destruct (proj1 (decode_track_cells 10 Capture.s_three 0 Capture.w0) _ _ E)
    as (k & p1' & s1' & w1' & Hnat' & Hk & Hh & _ & Hle & Hb).
  split; [|exact Hb]. apply Hle.
  rewrite Hnat in Hnat'. injection Hnat' as _ _ _ Hw1. subst w1'.
  vm_compute in Hh. subst k. lia.
Defined.


(** ** An empty revolution on the decode path *)

Section EmptySlice.

Variables (rv lo : Z) (s0 : scp_file_t).

Hypothesis Hstart : slice_start s0 rv = Ok lo.
Hypothesis Hend : slice_end s0 rv = Ok lo.
Hypothesis Hlo : 0 <= lo.
Hypothesis Hhi : lo + 1 < 2 ^ 32.

Lemma empty_restart (s : scp_file_t) (val : Z) :
  index_ptr s = index_ptr s0 →
  iter_limit s <= iter_ptr s →
  flux_restart s rv val = Ok (set_iter_ptr lo (set_iter_limit lo s), 0).
Proof using All.
  intros Hix Hge. unfold flux_restart.
  destruct (Z.leb_spec (iter_limit s) (iter_ptr s)); [|lia].
  unfold slice_end, slice_start, load_index in *. cbn [index_ptr set_iter_limit].
  rewrite Hix, Hend. cbn [mbind outcome_bind].
  revert Hstart. destruct (rv =? 0); intros Hst.
  - injection Hst as <-. reflexivity.
  - rewrite Hst. reflexivity.
Qed.

(** The cell [lo], outside the empty slice, holds zero: every pass reads
    it, finds the cursor past the limit again and starts over. *)
Lemma empty_zero_forever (fuel : nat) : ∀ (s : scp_file_t) (val : Z),
  sample s0 lo = Some 0 →
  index_ptr s = index_ptr s0 →
  dat_cells s = dat_cells s0 →
  iter_limit s <= iter_ptr s →
  next_flux_loop fuel s rv val = Fuel.
Proof using All.
  induction fuel as [|fuel IH]; intros s val Hz Hix Hd Hge; [reflexivity|].
  cbn [next_flux_loop].
  rewrite (flux_iter_zero s _ rv val 0 (empty_restart s val Hix Hge)).
  - cbn [mbind outcome_bind iter_ptr set_iter_ptr]. rewrite uadd_small by lia.
    apply IH; [exact Hz | exact Hix | exact Hd | cbn; lia].
  - cbn [iter_ptr set_iter_ptr]. rewrite (sample_same_cells s0) by exact Hd. exact Hz.
Qed.

Lemma empty_past_buffer (fuel : nat) (s : scp_file_t) (cells : list Z) :
  dat_cells s0 = Some cells →
  Z.of_nat (length cells) <= lo →
  index_ptr s = index_ptr s0 →
  dat_cells s = dat_cells s0 →
  iter_limit s <= iter_ptr s →
  scp_next_flux (S fuel) s rv = Undef.
Proof using All.
  intros Hc Hlen Hix Hd Hge. unfold scp_next_flux. cbn [next_flux_loop].
  unfold flux_iter. rewrite (empty_restart s 0 Hix Hge). cbn [mbind outcome_bind].
  cbn [iter_ptr set_iter_ptr]. unfold load_dat.
  change (dat_cells (set_iter_ptr lo (set_iter_limit lo s))) with (dat_cells s).
  rewrite Hd, Hc. rewrite (proj2 (lookup_ge_None cells (Z.to_nat lo))) by lia.
  reflexivity.
Qed.

Lemma empty_next_cell (fuel : nat) (s : scp_file_t) (v : Z) :
  sample s0 lo = Some v → v ≠ 0 →
  index_ptr s = index_ptr s0 →
  dat_cells s = dat_cells s0 →
  iter_limit s <= iter_ptr s →
  scp_next_flux (S fuel) s rv = Ok (v, set_iter_ptr (lo + 1) (set_iter_limit lo s)).
Proof using All.
  intros Hv Hv0 Hix Hd Hge. unfold scp_next_flux. cbn [next_flux_loop].
  rewrite (flux_iter_nonzero s _ rv 0 0 v (empty_restart s 0 Hix Hge)); [| |exact Hv0].
  - cbn [mbind outcome_bind iter_ptr set_iter_ptr].
    assert (0 <= v < 65536) by (apply (sample_range s0 lo); exact Hv).
    rewrite !uadd_small by lia. reflexivity.
  - cbn [iter_ptr set_iter_ptr]. rewrite (sample_same_cells s0) by exact Hd. exact Hv.
Qed.

End EmptySlice.

(** The decode begins with a call of [scp_next_flux] on the reset cursor. *)
Lemma decode_track_first_fetch (fuel : nat) (s : scp_file_t) (rv : Z) (w : mfm_writer_t)
    (bad : ∀ A : Type, outcome A) :
  (∀ A B (k : A → outcome B), bad A ≫= k = bad B) →
  scp_next_flux fuel (scp_reset s) (wrap_u rv) = bad _ →
  (1 <= fuel)%nat →
  decode_track fuel s rv w = bad _.
Proof.
  intros Hbind Hnf Hf. destruct fuel as [|fuel]; [lia|].
  unfold decode_track, decode_natural, pll_next_bit.
  rewrite pll_accumulate_unfold. cbn [pll_init flux clock pll_rev].
  change (0 <? idiv CLOCK_CENTRE 2) with true. cbn iota.
  rewrite Hnf, !Hbind. reflexivity.
Qed.

(** C3. A track whose selection succeeds and whose chosen revolution is
    empty is not given the filler: the track loop runs the decode on it, and
    never returns the filler track. The decode starts by reading the cell
    [lo] at which the empty slice [lo .. lo) lies, a cell outside the slice:
    when that cell holds zero the iterator starts over at every pass and the
    decode does not return, whatever the bound on its loops; when the buffer
    ends at [lo] the read is outside the buffer; otherwise the decode is fed
    the sample of that cell, which belongs to another revolution. *)
Theorem empty_revolution_decoded (fuel : nat) (s s1 : scp_file_t) (rv lo : Z)
    (w : mfm_writer_t) (tn : Z) :
  start_track (header s) <= tn < end_track (header s) →
  scp_select_track fuel s (wrap_u tn) = Ok (0, s1) →
  0 <= rv < REV_MAX →
  slice_start s1 rv = Ok lo →
  slice_end s1 rv = Ok lo →
  0 <= lo → lo + 1 < 2 ^ 32 →
  write_track fuel s rv w tn = decode_track fuel s1 rv (mfm_write_reset w)
  ∧ write_track fuel s rv w tn ≠ Ok (empty_track (mfm_write_reset w), s1)
  ∧ (sample s1 lo = Some 0 →
     ∀ (fuel' : nat) (w' : mfm_writer_t), decode_track fuel' s1 rv w' = Fuel)
  ∧ (∀ cells, dat_cells s1 = Some cells → Z.of_nat (length cells) <= lo →
     ∀ (fuel' : nat) (w' : mfm_writer_t),
       (1 <= fuel')%nat → decode_track fuel' s1 rv w' = Undef)
  ∧ (∀ v, sample s1 lo = Some v → v ≠ 0 →
     ∀ fuel' : nat,
       scp_next_flux (S fuel') (scp_reset s1) rv
       = Ok (v, set_iter_ptr (lo + 1) (set_iter_limit lo (scp_reset s1)))).
Proof.
  intros Hin Hsel Hrv Hs He Hlo Hhi.
  assert (Hw : wrap_u rv = rv) by (apply wrap_u_small; unfold REV_MAX in Hrv; lia).
  assert (Hwt : write_track fuel s rv w tn = decode_track fuel s1 rv (mfm_write_reset w)).
  { unfold write_track.
    destruct (Z.ltb_spec tn (start_track (header s))); [lia|].
    destruct (Z.leb_spec (end_track (header s)) tn); [lia|].
    cbn [orb]. rewrite Hsel. reflexivity. }
  split; [exact Hwt|]. split.
  { rewrite Hwt. intros H.
    destruct (decode_track_count fuel s1 rv (mfm_write_reset w) _ _ H)
      as (k & p1 & s2 & w1 & _ & _ & _ & _ & Hb).
    destruct (empty_track_cells (mfm_write_reset w)) as [_ Hb']. lia. }
  split.
  { intros Hz fuel' w'. destruct fuel' as [|fuel'].
    - unfold decode_track, decode_natural, pll_next_bit. reflexivity.
    - apply (decode_track_first_fetch (S fuel') s1 rv w' (@Fuel));
        [reflexivity | | lia].
      rewrite Hw. unfold scp_next_flux.
      apply (empty_zero_forever rv lo s1 Hs He Hlo Hhi); [exact Hz | reflexivity.. |].
      cbn. lia. }
  split.
  { intros cells Hc Hlen fuel' w' Hf.
    apply (decode_track_first_fetch fuel' s1 rv w' (@Undef)); [reflexivity | | exact Hf].
    rewrite Hw. destruct fuel' as [|fuel']; [lia|].
    apply (empty_past_buffer rv lo s1 Hs He Hlo Hhi fuel' (scp_reset s1) cells);
      [exact Hc | exact Hlen | reflexivity | reflexivity | cbn; lia]. }
  intros v Hv Hv0 fuel'.
  apply (empty_next_cell rv lo s1 Hs He Hlo Hhi fuel' (scp_reset s1) v);
    [exact Hv | exact Hv0 | reflexivity | reflexivity | cbn; lia].
Qed.

Lemma empty_revolution_decoded_witness :
  scp_select_track 2 Edge.o_empty_zero (wrap_u 0) = Ok (0, Edge.s_empty_zero)
  ∧ nr_samples <$> rev (track Edge.s_empty_zero) !! 0%nat = Some 0
  ∧ write_track 2 Edge.o_empty_zero 0 Capture.w0 0 = Fuel
  ∧ ∀ (fuel' : nat) (w' : mfm_writer_t),
      decode_track fuel' Edge.s_empty_zero 0 w' = Fuel.
Proof.
  assert (Hsel : scp_select_track 2 Edge.o_empty_zero (wrap_u 0)
                 = Ok (0, Edge.s_empty_zero)) by (vm_compute; reflexivity).
  destruct (empty_revolution_decoded 2 Edge.o_empty_zero Edge.s_empty_zero 0 0
              Capture.w0 0
              ltac:(vm_compute; split; [discriminate | reflexivity]) Hsel
              ltac:(unfold REV_MAX; lia) ltac:(reflexivity) ltac:(reflexivity)
              ltac:(lia) ltac:(lia))
    as (Hwt & _ & Hloop & _).
  split; [exact Hsel|]. split; [reflexivity|].
  split; [rewrite Hwt; apply Hloop; reflexivity | apply Hloop; reflexivity].
Defined.

(** ** Reading the capture *)

Section ReadExact.

Implicit Types (f : file) (acc : list Z).

Lemma read_exact_loop_unfold fuel f acc count :
  read_exact_loop fuel f acc count
  = if 0 <? count then
      match fuel with
      | O => Fuel
      | S fuel' =>
          match sys_read f count with
          | (f', inl e) =>
              match e with
              | EAGAIN | EINTR => read_exact_loop fuel' f' acc count
              | EIO => Exit
              end
          | (f', inr chunk) =>
              let done := Z.of_nat (length chunk) in
              if done =? 0
              then read_exact_loop fuel' f' (acc ++ replicate (Z.to_nat count) 0)
                     (count - count)
              else read_exact_loop fuel' f' (acc ++ chunk) (count - done)
          end
      end
    else Ok (f, acc).
Proof. destruct fuel; reflexivity. Qed.

Lemma read_exact_loop_done fuel f acc count :
  count <= 0 → read_exact_loop fuel f acc count = Ok (f, acc).
Proof.
  intros H. rewrite read_exact_loop_unfold.
  destruct (Z.ltb_spec 0 count); [lia | reflexivity].
Qed.

(** Interrupted reads are repeated until one goes through. *)
Lemma read_exact_loop_retry (es : list errno) : ∀ f acc count fuel,
  errs f = es →
  forallb transient es = true →
  0 < count →
  read_exact_loop (length es + fuel) f acc count
  = read_exact_loop fuel (advanced f 0) acc count.
Proof.
  induction es as [|e es IH]; intros f acc count fuel He Ht Hc.
  - cbn [length Nat.add]. f_equal. unfold advanced. destruct f as [c p sk er].
    cbn in *. subst er. f_equal. lia.
  - cbn [length Nat.add]. rewrite read_exact_loop_unfold.
    destruct (Z.ltb_spec 0 count); [|lia].
    unfold sys_read. rewrite He.
    cbn [forallb] in Ht. apply andb_true_iff in Ht as [Ht1 Ht2].
    destruct e; try discriminate; rewrite IH by (reflexivity || assumption);
      reflexivity.
Qed.

(** With no error pending, a read that the file cannot satisfy delivers what
    is left, and the read after it meets end-of-file and fills with zeros. *)
Lemma read_exact_loop_short f acc count fuel :
  errs f = [] →
  0 <= pos f →
  Z.of_nat (length (remaining f)) < count →
  (2 <= fuel)%nat →
  read_exact_loop fuel f acc count
  = Ok (advanced f (Z.of_nat (length (remaining f))),
        acc ++ remaining f
        ++ replicate (Z.to_nat (count - Z.of_nat (length (remaining f)))) 0).
Proof.
  intros He Hp Hm Hf.
  destruct fuel as [|[|fuel]]; try lia.
  assert (Htake : take (Z.to_nat count) (remaining f) = remaining f).
  { apply take_ge. lia. }
  rewrite read_exact_loop_unfold.
  destruct (Z.ltb_spec 0 count); [|lia].
  unfold sys_read. rewrite He. fold (remaining f). rewrite Htake.
  cbn zeta.
  destruct (Z.eqb_spec (Z.of_nat (length (remaining f))) 0) as [H0 | H0].
  - (* end-of-file at once *)
    rewrite read_exact_loop_done by lia.
    assert (Hnil : remaining f = []) by (apply nil_length_inv; lia).
    rewrite Hnil. cbn [length app]. rewrite Z.sub_0_r.
    unfold advanced. do 2 f_equal. 
  - (* what is left, then end-of-file *)
    set (f1 := {| content := content f;
                  pos := pos f + Z.of_nat (length (remaining f));
                  seekable := seekable f; errs := [] |}).
    assert (Hrem : remaining f1 = []).
    { unfold remaining, f1. cbn [pos content].
      apply drop_ge. unfold remaining in *. rewrite length_drop in *. lia. }
    rewrite read_exact_loop_unfold.
    destruct (Z.ltb_spec 0 (count - Z.of_nat (length (remaining f)))); [|lia].
    unfold sys_read. cbn [errs f1]. fold (remaining f1). rewrite Hrem.
    rewrite take_nil. cbn [length]. cbn zeta.
    change (Z.of_nat 0 =? 0) with true. cbv iota.
    rewrite read_exact_loop_done by lia.
    unfold advanced, f1. cbn [content pos seekable errs].
    rewrite <- app_assoc. do 2 f_equal. f_equal. lia.
Qed.

Lemma cells_of_bytes_length (n : nat) : ∀ b : list Z,
  length b = (2 * n)%nat → length (cells_of_bytes b) = n.
Proof.
  induction n as [|n IH]; intros b Hb.
  - destruct b; [reflexivity | discriminate].
  - destruct b as [|b0 [|b1 b]]; cbn in Hb; try lia.
    cbn [cells_of_bytes length]. f_equal. apply IH. lia.
Qed.

End ReadExact.

Section ShortRead.

Lemma read_exact_short f n fuel :
  forallb transient (errs f) = true →
  0 <= pos f →
  Z.of_nat (length (remaining f)) < n →
  (length (errs f) + 2 <= fuel)%nat →
  read_exact fuel f n
  = Ok (advanced f (Z.of_nat (length (remaining f))),
        remaining f ++ replicate (Z.to_nat (n - Z.of_nat (length (remaining f)))) 0).
Proof.
  intros Ht Hp Hm Hf. unfold read_exact.
  replace fuel with (length (errs f) + (fuel - length (errs f)))%nat by lia.
  rewrite (read_exact_loop_retry (errs f)) by (reflexivity || assumption || lia).
  assert (Hrem : remaining (advanced f 0) = remaining f).
  { unfold remaining, advanced. cbn [pos content]. rewrite Z.add_0_r. reflexivity. }
  rewrite read_exact_loop_short; rewrite ?Hrem; cbn [advanced errs pos]; try lia;
    try reflexivity.
  unfold advanced. cbn [content pos seekable errs app]. do 3 f_equal. lia.
Qed.

Lemma read_rev_short fuel (s : scp_file_t) (r : nat) (e : rev_entry)
    (p : loc) (cells : list Z) :
  rev (track s) !! r = Some e →
  seekable (fd s) = true →
  forallb transient (errs (fd s)) = true →
  0 <= offset e →
  Z.of_nat (length (drop (Z.to_nat (offset e)) (content (fd s)))) < nr_samples e * 2 →
  dat s = Some p →
  heap s !! p = Some cells →
  0 <= datsz s →
  datsz s + nr_samples e <= Z.of_nat (length cells) →
  (length (errs (fd s)) + 2 <= fuel)%nat →
  ∃ s', read_rev fuel s r = Ok (inr s')
        ∧ dat_cells s'
          = Some (take (Z.to_nat (datsz s)) cells
                  ++ cells_of_bytes
                       (drop (Z.to_nat (offset e)) (content (fd s))
                        ++ replicate
                             (Z.to_nat (nr_samples e * 2
                                        - Z.of_nat (length (drop (Z.to_nat (offset e))
                                                              (content (fd s))))))
                             0)
                  ++ drop (Z.to_nat (datsz s) + Z.to_nat (nr_samples e)) cells)
        ∧ datsz s' = uadd (datsz s) (nr_samples e)
        ∧ index_ptr s' = <[r := datsz s']> (index_ptr s).
Proof.
  intros He Hsk Ht Hoff Hm Hd Hh Hsz Hfit Hf.
  set (avail := drop (Z.to_nat (offset e)) (content (fd s))) in *.
  set (f1 := {| content := content (fd s); pos := offset e; seekable := true;
                errs := errs (fd s) |}).
  assert (Hrem : remaining f1 = avail) by reflexivity.
  assert (Hread : read_exact fuel f1 (nr_samples e * 2)
                  = Ok (advanced f1 (Z.of_nat (length avail)),
                        avail ++ replicate
                                   (Z.to_nat (nr_samples e * 2 - Z.of_nat (length avail))) 0)).
  { rewrite <- Hrem. apply read_exact_short; rewrite ?Hrem; cbn [f1 errs pos];
      assumption. }
  set (b := avail ++ replicate (Z.to_nat (nr_samples e * 2 - Z.of_nat (length avail))) 0)
    in *.
  assert (Hlen : length (cells_of_bytes b) = Z.to_nat (nr_samples e)).
  { apply cells_of_bytes_length. unfold b. rewrite length_app, length_replicate. lia. }
  unfold read_rev. rewrite He. unfold sys_lseek. rewrite Hsk.
  rewrite Z.eqb_refl. cbn [negb].
  change (fd (set_fd _ s)) with f1.
  rewrite Hread. cbn [mbind outcome_bind].
  destruct (Z.eqb_spec (nr_samples e) 0) as [H0 | H0]; [lia|].
  unfold store_dat. cbn [set_fd dat heap datsz]. rewrite Hd, Hh, Hlen.
  destruct (Z.leb_spec (datsz s + Z.of_nat (Z.to_nat (nr_samples e)))
              (Z.of_nat (length cells))); [|lia].
  cbn [mbind outcome_bind].
  eexists. split; [reflexivity|]. split; [|split; reflexivity].
  unfold dat_cells. cbn. rewrite Hd. cbn. rewrite lookup_insert_eq. reflexivity.
Qed.

End ShortRead.

(** C8. A [read_exact] of [n] bytes that meets end-of-file after [m < n]
    bytes (the [m] bytes left in the file, interrupted reads having been
    repeated) returns, with those [m] bytes followed by [n - m] zeros at the
    destination. Hence the read of a revolution whose sample array is cut
    short by the end of the capture does not fail: it stores the cells that
    are there, zero-padded to [nr_samples], in the revolution's slice of the
    buffer and records the slice's end. *)
Theorem read_exact_zero_fills (fuel : nat) :
  (∀ (f : file) (n : Z),
     forallb transient (errs f) = true →
     0 <= pos f →
     Z.of_nat (length (remaining f)) < n →
     (length (errs f) + 2 <= fuel)%nat →
     read_exact fuel f n
     = Ok (advanced f (Z.of_nat (length (remaining f))),
           remaining f ++ replicate (Z.to_nat (n - Z.of_nat (length (remaining f)))) 0))
  ∧ (∀ (s : scp_file_t) (r : nat) (e : rev_entry) (p : loc) (cells : list Z),
       rev (track s) !! r = Some e →
       seekable (fd s) = true →
       forallb transient (errs (fd s)) = true →
       0 <= offset e →
       Z.of_nat (length (drop (Z.to_nat (offset e)) (content (fd s)))) < nr_samples e * 2 →
       dat s = Some p →
       heap s !! p = Some cells →
       0 <= datsz s →
       datsz s + nr_samples e <= Z.of_nat (length cells) →
       (length (errs (fd s)) + 2 <= fuel)%nat →
       ∃ s', read_rev fuel s r = Ok (inr s')
             ∧ dat_cells s'
               = Some (take (Z.to_nat (datsz s)) cells
                       ++ cells_of_bytes
                            (drop (Z.to_nat (offset e)) (content (fd s))
                             ++ replicate
                                  (Z.to_nat
                                     (nr_samples e * 2
                                      - Z.of_nat (length (drop (Z.to_nat (offset e))
                                                            (content (fd s))))))
                                  0)
                       ++ drop (Z.to_nat (datsz s) + Z.to_nat (nr_samples e)) cells)
             ∧ datsz s' = uadd (datsz s) (nr_samples e)
             ∧ index_ptr s' = <[r := datsz s']> (index_ptr s)).
Proof.
  split.
  - intros f n. apply read_exact_short.
  - intros s r e p cells. apply read_rev_short.
Qed.

Lemma read_exact_zero_fills_witness :
  read_exact 3 {| content := [1; 2; 3]; pos := 1; seekable := true; errs := [EINTR] |} 5
  = Ok ({| content := [1; 2; 3]; pos := 3; seekable := true; errs := [] |},
        [2; 3; 0; 0; 0])
  ∧ ((λ r, (r.1, dat_cells r.2)) <$> scp_select_track 2 Capture.o_cut 0)
    = Ok (0, Some [20480; 30720; 0; 0]).
Proof.
  split.
  - apply (proj1 (read_exact_zero_fills 3)
             {| content := [1; 2; 3]; pos := 1; seekable := true; errs := [EINTR] |} 5).
    + reflexivity.
    + cbn. lia.
    + vm_compute. reflexivity.
    + cbn. lia.
  - vm_compute. reflexivity.
Defined.

(** ** Selecting a track *)

Section Select.

Implicit Types (s : scp_file_t).

Lemma same_track_refl s : same_track s s.
Proof. unfold same_track. auto. Qed.

Lemma same_track_trans s1 s2 s3 : same_track s1 s2 → same_track s2 s3 → same_track s1 s3.
Proof. unfold same_track. intros (? & ? & ?) (? & ? & ?). repeat split; congruence. Qed.

Lemma convert_rev_same off s r : same_track s (convert_rev off s r).
Proof.
  unfold convert_rev. destruct (rev (track s) !! r); [|apply same_track_refl].
  unfold same_track. cbn. auto.
Qed.

Lemma convert_revs_same off (rs : list nat) : ∀ s,
  same_track s (foldl (convert_rev off) s rs).
Proof.
  induction rs as [|r rs IH]; intros s; cbn [foldl]; [apply same_track_refl|].
  eapply same_track_trans; [apply convert_rev_same | apply IH].
Qed.

Lemma store_dat_same s i new s' : store_dat s i new = Ok s' → same_track s s'.
Proof.
  unfold store_dat. destruct (dat s) as [p|]; [|discriminate].
  destruct (heap s !! p) as [cells|]; [|discriminate].
  destruct (i + Z.of_nat (length new) <=? Z.of_nat (length cells)); [|discriminate].
  intros [= <-]. unfold same_track. cbn. auto.
Qed.

Lemma read_rev_same fuel s r x :
  read_rev fuel s r = Ok x →
  match x with inl s' | inr s' => same_track s s' end.
Proof.
  unfold read_rev. destruct (rev (track s) !! r) as [e|]; [|discriminate].
  destruct (sys_lseek (fd s) (offset e)) as [f got].
  destruct (negb (got =? offset e)).
  - intros [= <-]. unfold same_track. cbn. auto.
  - destruct (read_exact fuel (fd (set_fd f s)) (nr_samples e * 2)) as [[f2 b]| | |];
      cbn [mbind outcome_bind]; try discriminate.
    destruct (nr_samples e =? 0).
    + cbn [mbind outcome_bind]. intros [= <-]. unfold same_track. cbn. auto.
    + destruct (store_dat (set_fd f2 (set_fd f s)) (datsz (set_fd f2 (set_fd f s)))
                  (cells_of_bytes b)) as [s2| | |] eqn:Hst;
        cbn [mbind outcome_bind]; try discriminate.
      apply store_dat_same in Hst. intros [= <-].
      unfold same_track in *. cbn in *. exact Hst.
Qed.

Lemma read_revs_same fuel (rs : list nat) : ∀ s x,
  read_revs fuel s rs = Ok x →
  match x with inl s' | inr s' => same_track s s' end.
Proof.
  induction rs as [|r rs IH]; intros s x; cbn [read_revs].
  - intros [= <-]. apply same_track_refl.
  - destruct (read_rev fuel s r) as [[s1 | s1]| | |] eqn:Hr; cbn [mbind outcome_bind];
      try discriminate; apply read_rev_same in Hr.
    + intros [= <-]. exact Hr.
    + intros H. apply IH in H. destruct x; eapply same_track_trans; eauto.
Qed.

(** The ways [scp_select_track] returns. *)
Lemma select_track_cases fuel s tn r s' :
  scp_select_track fuel s tn = Ok (r, s') →
  (is_Some (dat s) ∧ track_nr (track s) = tn ∧ r = 0 ∧ s' = s)
  ∨ (r = -1 ∧ dat s' = None ∧ datsz s' = 0 ∧ heap s' = free (heap s) (dat s))
  ∨ (r = -1 ∧ is_Some (dat s') ∧ trk_sig (track s') = TRK ∧ track_nr (track s') = tn)
  ∨ (r = 0 ∧ is_Some (dat s') ∧ trk_sig (track s') = TRK ∧ track_nr (track s') = tn).
Proof.
  unfold scp_select_track.
  destruct (bool_decide (is_Some (dat s)) && (track_nr (track s) =? tn)) eqn:Hfast.
  { intros [= <- <-]. left.
    apply andb_true_iff in Hfast as [H1 H2].
    apply bool_decide_eq_true in H1. apply Z.eqb_eq in H2. auto. }
  set (s1 := set_datsz 0 (set_dat None (set_heap (free (heap s) (dat s)) s))).
  destruct (load_track_offset s1 tn) as [off| | |]; cbn [mbind outcome_bind];
    try discriminate.
  destruct (sys_lseek (fd s1) off) as [f got].
  destruct (negb (got =? off)).
  { intros [= <- <-]. right; left. cbn. auto. }
  destruct (read_exact fuel (fd (set_fd f s1)) (4 + 12 * nr_revolutions (header (set_fd f s1))))
    as [[f2 b]| | |]; cbn [mbind outcome_bind]; try discriminate.
  destruct (store_track (track (set_fd f2 (set_fd f s1)))
              (nr_revolutions (header (set_fd f s1))) b) as [t| | |];
    cbn [mbind outcome_bind]; try discriminate.
  set (s2 := set_track t (set_fd f2 (set_fd f s1))).
  destruct (list_eqb (trk_sig (track s2)) TRK) eqn:Hsig; cbn [negb].
  2: { intros [= <- <-]. right; left. cbn. auto. }
  destruct (track_nr (track s2) =? tn) eqn:Hnr; cbn [negb].
  2: { intros [= <- <-]. right; left. cbn. auto. }
  apply bool_decide_eq_true in Hsig. apply Z.eqb_eq in Hnr.
  set (revs := seq 0 (Z.to_nat (nr_revolutions (header (set_fd f s1))))).
  pose proof (convert_revs_same off revs s2) as (_ & Hsig3 & Hnr3).
  set (s3 := foldl (convert_rev off) s2 revs) in *.
  unfold calloc.
  destruct (grants s3 (heap s3) (datsz s3));
    [|rewrite bool_decide_eq_true_2 by reflexivity; discriminate].
  cbn [set_dat set_heap set_datsz dat].
  rewrite bool_decide_eq_false_2 by discriminate.
  match goal with
  | |- context [read_revs fuel ?s4 revs] =>
      destruct (read_revs fuel s4 revs) as [[s5 | s5]| | |] eqn:Hrd;
        cbn [mbind outcome_bind]; try discriminate;
        apply read_revs_same in Hrd; destruct Hrd as (Hd5 & Hsig5 & Hnr5);
        cbn [dat track set_datsz set_dat set_heap] in Hd5, Hsig5, Hnr5
  end.
  - intros [= <- <-]. right; right; left.
    rewrite Hd5, Hsig5, Hnr5, Hsig3, Hnr3. eauto.
  - intros [= <- <-]. right; right; right.
    rewrite Hd5, Hsig5, Hnr5, Hsig3, Hnr3. eauto.
Qed.

Lemma select_track_fast fuel s tn :
  is_Some (dat s) → track_nr (track s) = tn → scp_select_track fuel s tn = Ok (0, s).
Proof.
  intros Hd Hn. unfold scp_select_track.
  rewrite bool_decide_eq_true_2 by exact Hd.
  rewrite (proj2 (Z.eqb_eq _ _) Hn). reflexivity.
Qed.

End Select.

(** C7. Once [scp_select_track] has returned 0 for track [tn], the buffer is
    present and the track record is that of [tn], and selecting [tn] again
    returns 0 and the very same session: the buffer pointer and the heap it
    points into, the index array and the track record are unchanged, and so
    is the file with its offset, no read and no seek having been made. *)
Theorem select_track_idempotent (fuel fuel' : nat) (s s' : scp_file_t) (tn : Z) :
  scp_select_track fuel s tn = Ok (0, s') →
  is_Some (dat s')
  ∧ track_nr (track s') = tn
  ∧ scp_select_track fuel' s' tn = Ok (0, s').
Proof.
  intros H.
  assert (Hp : is_Some (dat s') ∧ track_nr (track s') = tn).
  { apply select_track_cases in H
      as [(Hd & Hn & _ & ->) | [(Hr & _) | [(Hr & _) | (_ & Hd & _ & Hn)]]];
      try discriminate; auto. }
  destruct Hp as [Hd Hn]. split; [exact Hd|]. split; [exact Hn|].
  apply select_track_fast; assumption.
Qed.

Lemma select_track_idempotent_witness :
  scp_select_track 2 Capture.o_empty_rev 0 = Ok (0, Capture.s_empty_rev)
  ∧ dat Capture.s_empty_rev = Some 1%positive
  ∧ scp_select_track 0 Capture.s_empty_rev 0 = Ok (0, Capture.s_empty_rev).
Proof.
  assert (H : scp_select_track 2 Capture.o_empty_rev 0 = Ok (0, Capture.s_empty_rev))
    by (vm_compute; reflexivity).
  split; [exact H|]. split; [reflexivity|].
  exact (proj2 (proj2 (select_track_idempotent 2 0 _ _ 0 H))).
Defined.

(** C10. When [scp_select_track] returns a negative result and the track
    record it has read does not carry the signature "TRK" or the requested
    number, the session has no buffer: [dat] is null, [datsz] is 0, the heap
    is the former heap with the previous buffer freed, and no later
    selection can return through the fast path, which needs a buffer. *)
Theorem select_track_failure_clears (fuel : nat) (s s' : scp_file_t) (tn r : Z) :
  scp_select_track fuel s tn = Ok (r, s') →
  r < 0 →
  trk_sig (track s') ≠ TRK ∨ track_nr (track s') ≠ tn →
  dat s' = None
  ∧ datsz s' = 0
  ∧ heap s' = free (heap s) (dat s)
  ∧ (∀ l, dat s = Some l → heap s' !! l = None)
  ∧ ∀ (fuel' : nat) (tn' : Z), scp_select_track fuel' s' tn' ≠ Ok (0, s').
Proof.
  intros H Hr Hbad.
  apply select_track_cases in H
    as [(_ & _ & -> & _) | [(_ & Hd & Hz & Hh) | [(_ & _ & Hsig & Hnr) | (-> & _)]]];
    try lia.
  - split; [exact Hd|]. split; [exact Hz|]. split; [exact Hh|]. split.
    + intros l Hl. rewrite Hh, Hl. cbn. apply lookup_delete_eq.
    + intros fuel' tn' H'.
      apply select_track_cases in H'
        as [(Hd' & _) | [(Hr' & _) | [(Hr' & _) | (_ & Hd' & _)]]];
        try discriminate; rewrite Hd in Hd'; destruct Hd' as [x Hx]; discriminate.
  - destruct Hbad as [Hbad | Hbad]; contradiction.
Qed.

Lemma select_track_failure_clears_witness :
  scp_select_track 2 Capture.s_track0 1 = Ok (-1, Capture.s_failed)
  ∧ dat Capture.s_track0 = Some 1%positive
  ∧ trk_sig (track Capture.s_failed) ≠ TRK
  ∧ dat Capture.s_failed = None
  ∧ datsz Capture.s_failed = 0
  ∧ heap Capture.s_failed !! 1%positive = None.
Proof.
  assert (H : scp_select_track 2 Capture.s_track0 1 = Ok (-1, Capture.s_failed))
    by (vm_compute; reflexivity).
  assert (Hsig : trk_sig (track Capture.s_failed) ≠ TRK) by (cbn; discriminate).
  destruct (select_track_failure_clears 2 _ _ 1 (-1) H ltac:(lia) (or_introl Hsig))
    as (Hd & Hz & _ & Hfree & _).
  split; [exact H|]. split; [reflexivity|]. split; [exact Hsig|].
  split; [exact Hd|]. split; [exact Hz|].
  apply Hfree. reflexivity.
Defined.

(** * Further properties *)

(** ** Reading and opening *)

Section ReadMore.

Implicit Types (f : file).

Lemma file_bytes_length f n : 0 <= n → length (file_bytes f n) = Z.to_nat n.
Proof.
  intros Hn. unfold file_bytes. rewrite length_take, length_app, length_replicate. lia.
Qed.

Lemma file_bytes_short f n :
  Z.of_nat (length (remaining f)) < n →
  file_bytes f n
  = remaining f ++ replicate (Z.to_nat (n - Z.of_nat (length (remaining f)))) 0.
Proof.
  intros Hm. unfold file_bytes.
  rewrite take_app_ge by lia. f_equal.
  rewrite take_replicate. f_equal. lia.
Qed.

Lemma file_bytes_full f n :
  n <= Z.of_nat (length (remaining f)) →
  file_bytes f n = take (Z.to_nat n) (remaining f).
Proof. intros Hm. unfold file_bytes. apply take_app_le. lia. Qed.

Lemma read_exact_loop_full f acc count fuel :
  errs f = [] →
  0 < count <= Z.of_nat (length (remaining f)) →
  (1 <= fuel)%nat →
  read_exact_loop fuel f acc count
  = Ok (advanced f count, acc ++ take (Z.to_nat count) (remaining f)).
Proof.
  intros He Hc Hf. destruct fuel as [|fuel]; [lia|].
  rewrite read_exact_loop_unfold.
  destruct (Z.ltb_spec 0 count); [|lia].
  unfold sys_read. rewrite He. fold (remaining f). cbn zeta.
  assert (Hlen : Z.of_nat (length (take (Z.to_nat count) (remaining f))) = count).
  { rewrite length_take. lia. }
  rewrite Hlen.
  destruct (Z.eqb_spec count 0); [lia|].
  rewrite read_exact_loop_done by lia. reflexivity.
Qed.

Lemma read_exact_padded_gen f n fuel :
  forallb transient (errs f) = true →
  0 <= pos f →
  0 < n →
  (length (errs f) + 2 <= fuel)%nat →
  read_exact fuel f n
  = Ok (advanced f (Z.min n (Z.of_nat (length (remaining f)))), file_bytes f n).
Proof.
  intros Ht Hp Hn Hf.
  destruct (Z_lt_ge_dec (Z.of_nat (length (remaining f))) n) as [Hs | Hfull].
  - rewrite read_exact_short by assumption.
    rewrite file_bytes_short by assumption. rewrite Z.min_r by lia. reflexivity.
  - unfold read_exact.
    replace fuel with (length (errs f) + (fuel - length (errs f)))%nat by lia.
    rewrite (read_exact_loop_retry (errs f)) by (reflexivity || assumption).
    assert (Hrem : remaining (advanced f 0) = remaining f).
    { unfold remaining, advanced. cbn [pos content]. rewrite Z.add_0_r. reflexivity. }
    rewrite read_exact_loop_full; rewrite ?Hrem; try reflexivity; try lia.
    rewrite file_bytes_full, Z.min_l by lia.
    unfold advanced. cbn [content pos seekable errs app]. do 3 f_equal. lia.
Qed.

Lemma file_bytes_ok f n : bytes_ok (content f) → bytes_ok (file_bytes f n).
Proof.
  intros Hb. unfold bytes_ok, file_bytes, remaining.
  apply Forall_take, Forall_app. split.
  - apply Forall_drop. exact Hb.
  - apply Forall_replicate. lia.
Qed.

Lemma bytes_ok_lookup_total (l : list Z) (i : nat) :
  bytes_ok l → (i < length l)%nat → 0 <= l !!! i < 256.
Proof.
  intros Hb Hi. destruct (lookup_lt_is_Some_2 l i Hi) as [x Hx].
  rewrite (list_lookup_total_correct l i x Hx).
  exact (Forall_lookup_1 _ l i x Hb Hx).
Qed.

(** The first error that is not transient ends the process. *)
Lemma read_exact_loop_fatal (es : list errno) : ∀ f acc count fuel rest,
  errs f = es ++ EIO :: rest →
  forallb transient es = true →
  0 < count →
  (length es < fuel)%nat →
  read_exact_loop fuel f acc count = Exit.
Proof.
  induction es as [|e es IH]; intros f acc count fuel rest He Ht Hc Hf;
    (destruct fuel as [|fuel]; [cbn in Hf; lia|]);
    rewrite read_exact_loop_unfold; (destruct (Z.ltb_spec 0 count); [|lia]);
    unfold sys_read; rewrite He; cbn [app].
  - reflexivity.
  - cbn [forallb] in Ht. apply andb_true_iff in Ht as [Ht1 Ht2].
    cbn [length] in Hf.
    destruct e; try discriminate; apply (IH _ _ _ _ rest); cbn [errs];
      try reflexivity; try assumption; lia.
Qed.

Lemma bytes_ok_decide (l : list Z) :
  forallb (λ b, (0 <=? b) && (b <? 256)) l = true → bytes_ok l.
Proof.
  intros H. unfold bytes_ok. rewrite Forall_forall. intros x Hx.
  rewrite forallb_forall in H. specialize (H x).
  rewrite <- list_elem_of_In in H. specialize (H Hx).
  apply andb_true_iff in H as [Ha Hb].
  apply Z.leb_le in Ha. apply Z.ltb_lt in Hb. lia.
Qed.

End ReadMore.

(** X1. [read_exact] of [n > 0] bytes, interrupted reads apart, returns with
    exactly [n] bytes at the destination: the bytes of the file from its
    offset on, in order, and zeros from the end of the file on; the offset
    has advanced by the bytes the file had. *)
Theorem read_exact_delivers (fuel : nat) (f : file) (n : Z) :
  forallb transient (errs f) = true →
  0 <= pos f →
  0 < n →
  (length (errs f) + 2 <= fuel)%nat →
  read_exact fuel f n
  = Ok (advanced f (Z.min n (Z.of_nat (length (remaining f)))), file_bytes f n)
  ∧ length (file_bytes f n) = Z.to_nat n
  ∧ (∀ i : nat,
       Z.of_nat i < Z.min n (Z.of_nat (length (remaining f))) →
       file_bytes f n !! i = content f !! (Z.to_nat (pos f) + i)%nat)
  ∧ (∀ i : nat,
       Z.of_nat (length (remaining f)) <= Z.of_nat i < n →
       file_bytes f n !! i = Some 0).
Proof.
  intros Ht Hp Hn Hf.
  split; [apply read_exact_padded_gen; assumption|].
  split; [apply file_bytes_length; lia|].
  split.
  - intros i Hi. unfold file_bytes.
    rewrite lookup_take_lt by lia. rewrite lookup_app_l by lia.
    unfold remaining. apply lookup_drop.
  - intros i Hi. unfold file_bytes.
    rewrite lookup_take_lt by lia. rewrite lookup_app_r by lia.
    apply lookup_replicate_2. lia.
Qed.

Lemma read_exact_delivers_witness :
  read_exact 3 {| content := [10; 20; 30; 40]; pos := 1; seekable := true; errs := [EAGAIN] |} 2
  = Ok ({| content := [10; 20; 30; 40]; pos := 3; seekable := true; errs := [] |}, [20; 30]).
Proof.
  apply (proj1 (read_exact_delivers 3
                  {| content := [10; 20; 30; 40]; pos := 1; seekable := true;
                     errs := [EAGAIN] |} 2
                  ltac:(reflexivity) ltac:(cbn; lia) ltac:(lia) ltac:(cbn; lia))).
Defined.

(** X2. A [read_exact] of no byte returns at once and leaves the file as it
    is, pending errors included; and with a device error pending after any
    number of interrupted reads, a [read_exact] of at least one byte ends the
    process. *)
Theorem read_exact_fatal (fuel : nat) (f : file) (n : Z) :
  (n <= 0 → read_exact fuel f n = Ok (f, []))
  ∧ (∀ es rest,
       errs f = es ++ EIO :: rest →
       forallb transient es = true →
       0 < n →
       (length es < fuel)%nat →
       read_exact fuel f n = Exit).
Proof.
  split.
  - intros Hn. apply read_exact_loop_done. exact Hn.
  - intros es rest He Ht Hn Hf. unfold read_exact.
    apply (read_exact_loop_fatal es f [] n fuel rest); assumption.
Qed.

Lemma read_exact_fatal_witness :
  read_exact 2 {| content := [1; 2]; pos := 0; seekable := true; errs := [EINTR; EIO] |} 2
  = Exit.
Proof.
  apply (proj2 (read_exact_fatal 2
                  {| content := [1; 2]; pos := 0; seekable := true;
                     errs := [EINTR; EIO] |} 2) [EINTR] []);
    [reflexivity | reflexivity | lia | cbn; lia].
Defined.

Lemma scp_open_eq (fuel : nat) (h : gmap loc (list Z))
    (g : gmap loc (list Z) → Z → bool) (f : file) :
  forallb transient (errs f) = true →
  0 <= pos f →
  (length (errs f) + 2 <= fuel)%nat →
  scp_open fuel h g (Some f)
  = if header_valid (parse_header (file_bytes f sizeof_header))
    then Ok (0, opened_session h g f) else Exit.
Proof.
  intros Ht Hp Hf. set (hd := parse_header (file_bytes f sizeof_header)).
  unfold scp_open.
  rewrite read_exact_padded_gen by (assumption || (unfold sizeof_header, TRACK_MAX; lia)).
  cbn [mbind outcome_bind]. fold hd. unfold header_valid.
  destruct (list_eqb (sig hd) SCP); cbn [negb andb]; [|reflexivity].
  destruct ((nr_revolutions hd =? 0) || (REV_MAX <? nr_revolutions hd));
    cbn [negb andb]; [reflexivity|].
  destruct (cell_width hd =? 0); cbn [negb andb orb].
  - do 3 f_equal.
  - destruct (cell_width hd =? 16); cbn [negb]; [|reflexivity].
    do 3 f_equal.
Qed.

Lemma header_valid_inv (hd : disk_header) :
  header_valid hd = true →
  sig hd = SCP ∧ nr_revolutions hd ≠ 0 ∧ nr_revolutions hd <= REV_MAX
  ∧ (cell_width hd = 0 ∨ cell_width hd = 16).
Proof.
  intros Hv. unfold header_valid in Hv.
  apply andb_true_iff in Hv as [Hv Hcw]. apply andb_true_iff in Hv as [Hsig Hrev].
  apply bool_decide_eq_true in Hsig. apply negb_true_iff, orb_false_iff in Hrev as [H0 H5].
  apply Z.eqb_neq in H0. apply Z.ltb_ge in H5.
  split; [exact Hsig|]. split; [exact H0|]. split; [exact H5|].
  apply orb_true_iff in Hcw as [H | H]; apply Z.eqb_eq in H; auto.
Qed.

Lemma header_revolutions_byte (f : file) :
  bytes_ok (content f) →
  0 <= nr_revolutions (parse_header (file_bytes f sizeof_header)) < 256.
Proof.
  intros Hby. unfold parse_header. cbn [nr_revolutions].
  apply bytes_ok_lookup_total; [apply file_bytes_ok; exact Hby|].
  rewrite file_bytes_length by (unfold sizeof_header, TRACK_MAX; lia).
  unfold sizeof_header, TRACK_MAX. lia.
Qed.



Lemma zsum_app l1 l2 : zsum (l1 ++ l2) = zsum l1 + zsum l2.
Proof.
  unfold zsum. induction l1 as [|x l1 IH]; cbn [app foldr]; [reflexivity | rewrite IH; lia].
Qed.

Lemma samples_in_S E a k :
  samples_in E a (S k) = nr_samples (E a) + samples_in E (S a) k.
Proof. reflexivity. Qed.

Lemma samples_in_snoc E a k :
  samples_in E a (S k) = samples_in E a k + nr_samples (E (a + k)%nat).
Proof.
  unfold samples_in. rewrite seq_S, fmap_app, zsum_app. cbn. lia.
Qed.

Lemma samples_in_nonneg E a k :
  (∀ i : nat, (a <= i < a + k)%nat → 0 <= nr_samples (E i)) → 0 <= samples_in E a k.
Proof.
  revert a. induction k as [|k IH]; intros a H; [cbn; lia|].
  rewrite samples_in_S. specialize (IH (S a)).
  assert (0 <= nr_samples (E a)) by (apply H; lia).
  assert (0 <= samples_in E (S a) k) by (apply IH; intros; apply H; lia). lia.
Qed.

(** ** Loading a track, in full *)

Section ConvertLoop.

Variables (off : Z) (E : nat → rev_entry).

Lemma convert_revs_spec (k : nat) : ∀ (a : nat) (s : scp_file_t),
  (∀ i : nat, (a <= i < a + k)%nat → rev (track s) !! i = Some (E i)) →
  let s' := foldl (convert_rev off) s (seq a k) in
  (∀ i : nat, (a <= i < a + k)%nat → rev (track s') !! i = Some (conv_rev off (E i)))
  ∧ (∀ i : nat, ¬ (a <= i < a + k)%nat → rev (track s') !! i = rev (track s) !! i)
  ∧ length (rev (track s')) = length (rev (track s))
  ∧ wrap_u (datsz s') = wrap_u (datsz s + samples_in (λ i, conv_rev off (E i)) a k)
  ∧ (0 <= datsz s < 2 ^ 32 → 0 <= datsz s' < 2 ^ 32)
  ∧ same_file_state s s'.
Proof.
  induction k as [|k IH]; intros a s HE; cbn [seq foldl].
  - split; [intros i Hi; lia|]. split; [reflexivity|]. split; [reflexivity|].
    split; [|split; [tauto | unfold same_file_state; tauto]].
    unfold samples_in, zsum. cbn. rewrite Z.add_0_r. reflexivity.
  - set (s1 := convert_rev off s a).
    assert (Ha : rev (track s) !! a = Some (E a)) by (apply HE; lia).
    assert (H1 : rev (track s1) = <[a := conv_rev off (E a)]> (rev (track s))).
    { unfold s1, convert_rev. rewrite Ha. reflexivity. }
    assert (D1 : datsz s1 = uadd (datsz s) (nr_samples (conv_rev off (E a)))).
    { unfold s1, convert_rev. rewrite Ha. reflexivity. }
    assert (S1 : same_file_state s s1).
    { unfold s1, convert_rev, same_file_state. rewrite Ha. cbn. tauto. }
    destruct (IH (S a) s1) as (A & B & L & C & R & D).
    { intros i Hi. rewrite H1, list_lookup_insert_ne by lia. apply HE. lia. }
    split; [|split; [|split; [|split; [|split]]]].
    + intros i Hi. destruct (decide (i = a)) as [-> | Hne].
      * rewrite B by lia. rewrite H1. apply list_lookup_insert_eq.
        apply lookup_lt_Some in Ha. exact Ha.
      * apply A. lia.
    + intros i Hi. rewrite B by lia. rewrite H1. apply list_lookup_insert_ne. lia.
    + rewrite L, H1. apply length_insert.
    + rewrite C, D1, samples_in_S. unfold uadd.
      rewrite wrap_u_add_l. f_equal. lia.
    + intros _. apply R. rewrite D1. apply wrap_u_range.
    + unfold same_file_state in *. destruct S1 as (?&?&?&?&?&?&?&?&?&?).
      destruct D as (?&?&?&?&?&?&?&?&?&?). repeat split; congruence.
Qed.

End ConvertLoop.

Section ReadLoop.

Variable fuel : nat.

Lemma content_bytes_length c off n : 0 <= n → length (content_bytes c off n) = Z.to_nat n.
Proof.
  intros Hn. unfold content_bytes. rewrite length_take, length_app, length_replicate. lia.
Qed.

Lemma entry_cells_length c e :
  0 <= nr_samples e → length (entry_cells c e) = Z.to_nat (nr_samples e).
Proof.
  intros Hn. apply cells_of_bytes_length. rewrite content_bytes_length by lia. lia.
Qed.

Lemma read_rev_full (s : scp_file_t) (r : nat) (e : rev_entry)
    (p : loc) (cells : list Z) :
  rev (track s) !! r = Some e →
  readable (fd s) →
  0 <= offset e →
  0 <= nr_samples e →
  dat s = Some p →
  heap s !! p = Some cells →
  0 <= datsz s →
  datsz s + nr_samples e <= Z.of_nat (length cells) →
  datsz s + nr_samples e < 2 ^ 32 →
  (length (errs (fd s)) + 2 <= fuel)%nat →
  ∃ s', read_rev fuel s r = Ok (inr s')
        ∧ heap s' = <[p := take (Z.to_nat (datsz s)) cells
                           ++ entry_cells (content (fd s)) e
                           ++ drop (Z.to_nat (datsz s) + Z.to_nat (nr_samples e)) cells]>
                      (heap s)
        ∧ datsz s' = datsz s + nr_samples e
        ∧ index_ptr s' = <[r := datsz s + nr_samples e]> (index_ptr s)
        ∧ track s' = track s ∧ dat s' = dat s ∧ header s' = header s
        ∧ iter_ptr s' = iter_ptr s ∧ iter_limit s' = iter_limit s
        ∧ content (fd s') = content (fd s)
        ∧ readable (fd s')
        ∧ (length (errs (fd s')) <= length (errs (fd s)))%nat.
Proof.
  intros He [Hsk Ht] Hoff Hn Hd Hh Hsz Hfit Hlt Hf.
  set (f1 := {| content := content (fd s); pos := offset e; seekable := true;
                errs := errs (fd s) |}).
  unfold read_rev. rewrite He. unfold sys_lseek. rewrite Hsk.
  rewrite Z.eqb_refl. cbn [negb].
  change (fd (set_fd _ s)) with f1.
  destruct (Z.eqb_spec (nr_samples e) 0) as [H0 | H0].
  - unfold read_exact. rewrite read_exact_loop_done by lia. cbn [mbind outcome_bind].
    eexists. split; [reflexivity|].
    cbn [heap datsz index_ptr track dat header iter_ptr iter_limit fd
         set_fd set_datsz set_index_ptr].
    split.
    { unfold entry_cells. rewrite H0.
      change (cells_of_bytes (content_bytes (content (fd s)) (offset e) (0 * 2)))
        with (@nil Z).
      cbn [app]. rewrite Nat.add_0_r, take_drop. symmetry. apply insert_id. exact Hh. }
    split; [apply uadd_small; lia|].
    split; [rewrite uadd_small by lia; reflexivity|].
    repeat split; try reflexivity. exact Ht.
  - assert (Hread : read_exact fuel f1 (nr_samples e * 2)
                    = Ok (advanced f1 (Z.min (nr_samples e * 2)
                                         (Z.of_nat (length (remaining f1)))),
                          file_bytes f1 (nr_samples e * 2))).
    { apply read_exact_padded_gen; cbn [f1 errs pos]; try assumption; lia. }
    rewrite Hread. cbn [mbind outcome_bind].
    change (file_bytes f1 (nr_samples e * 2))
      with (content_bytes (content (fd s)) (offset e) (nr_samples e * 2)).
    fold (entry_cells (content (fd s)) e).
    unfold store_dat. cbn [set_fd dat heap datsz]. rewrite Hd, Hh.
    rewrite entry_cells_length by lia.
    destruct (Z.leb_spec (datsz s + Z.of_nat (Z.to_nat (nr_samples e)))
                (Z.of_nat (length cells))); [|lia].
    cbn [mbind outcome_bind].
    eexists. split; [reflexivity|].
    cbn [heap datsz index_ptr track dat header iter_ptr iter_limit fd
         set_fd set_datsz set_index_ptr set_heap].
    split; [reflexivity|].
    split; [apply uadd_small; lia|].
    split; [rewrite uadd_small by lia; reflexivity|].
    repeat split; try reflexivity; try congruence; cbn; lia.
Qed.

Lemma splice_length (d n : nat) (cells chunk : list Z) :
  (d + n <= length cells)%nat → length chunk = n →
  length (take d cells ++ chunk ++ drop (d + n) cells) = length cells.
Proof.
  intros Hd Hc. rewrite !length_app, length_take, length_drop. lia.
Qed.

Lemma splice_take (d n : nat) (cells chunk : list Z) :
  (d + n <= length cells)%nat → length chunk = n →
  take (d + n) (take d cells ++ chunk ++ drop (d + n) cells) = take d cells ++ chunk.
Proof.
  intros Hd Hc. rewrite app_assoc. apply take_app_length'.
  rewrite length_app, length_take. lia.
Qed.

Lemma splice_drop (d n m : nat) (cells chunk : list Z) :
  (d + n <= length cells)%nat → length chunk = n →
  drop (d + n + m) (take d cells ++ chunk ++ drop (d + n) cells) = drop (d + n + m) cells.
Proof.
  intros Hd Hc. rewrite app_assoc.
  assert (Hl : length (take d cells ++ chunk) = (d + n)%nat)
    by (rewrite length_app, length_take; lia).
  rewrite drop_app, Hl, drop_ge by lia. cbn [app].
  rewrite drop_drop. f_equal. lia.
Qed.

Variables (c : list Z) (E : nat → rev_entry) (p : loc).

Lemma read_revs_spec (k : nat) : ∀ (a : nat) (s : scp_file_t) (cells : list Z),
  (∀ i : nat, (a <= i < a + k)%nat → rev (track s) !! i = Some (E i)) →
  (∀ i : nat, (a <= i < a + k)%nat → 0 <= offset (E i) ∧ 0 <= nr_samples (E i)) →
  readable (fd s) →
  content (fd s) = c →
  dat s = Some p →
  heap s !! p = Some cells →
  0 <= datsz s →
  datsz s + samples_in E a k <= Z.of_nat (length cells) →
  datsz s + samples_in E a k < 2 ^ 32 →
  (length (errs (fd s)) + 2 <= fuel)%nat →
  ∃ s', read_revs fuel s (seq a k) = Ok (inr s')
        ∧ heap s' = <[p := take (Z.to_nat (datsz s)) cells
                           ++ concat ((λ i, entry_cells c (E i)) <$> seq a k)
                           ++ drop (Z.to_nat (datsz s + samples_in E a k)) cells]>
                      (heap s)
        ∧ datsz s' = datsz s + samples_in E a k
        ∧ (∀ i : nat, (a <= i < a + k)%nat → (i < length (index_ptr s))%nat →
             index_ptr s' !! i = Some (datsz s + samples_in E a (S (i - a))))
        ∧ (∀ i : nat, ¬ (a <= i < a + k)%nat → index_ptr s' !! i = index_ptr s !! i)
        ∧ length (index_ptr s') = length (index_ptr s)
        ∧ track s' = track s ∧ dat s' = dat s ∧ header s' = header s
        ∧ iter_ptr s' = iter_ptr s ∧ iter_limit s' = iter_limit s
        ∧ content (fd s') = c
        ∧ readable (fd s').
Proof.
  induction k as [|k IH]; intros a s cells HE Hpos Hr Hc Hd Hh Hsz Hfit Hlt Hf.
  - cbn [seq read_revs]. eexists. split; [reflexivity|].
    change (samples_in E a 0) with 0. rewrite Z.add_0_r.
    cbn [fmap list_fmap concat app]. rewrite take_drop.
    split; [symmetry; apply insert_id; exact Hh|].
    split; [reflexivity|]. split; [intros i Hi; lia|].
    repeat split; try reflexivity; try assumption; apply Hr.
  - rewrite samples_in_S in Hfit, Hlt.
    destruct (Hpos a ltac:(lia)) as [Hoa Hna].
    assert (Hrest : 0 <= samples_in E (S a) k).
    { apply samples_in_nonneg. intros i Hi. apply Hpos. lia. }
    destruct (read_rev_full s a (E a) p cells) as
      (s1 & R1 & Hheap1 & Hsz1 & Hix1 & Htr1 & Hd1 & Hhd1 & Hip1 & Hil1 & Hc1 & Hr1 & He1);
      try assumption; try lia.
    { apply HE. lia. }
    rewrite Hc in Hheap1.
    set (cells1 := take (Z.to_nat (datsz s)) cells ++ entry_cells c (E a)
                   ++ drop (Z.to_nat (datsz s) + Z.to_nat (nr_samples (E a))) cells) in *.
    assert (Hlen : length (entry_cells c (E a)) = Z.to_nat (nr_samples (E a)))
      by (apply entry_cells_length; exact Hna).
    assert (Hlen1 : length cells1 = length cells).
    { apply splice_length; [lia | exact Hlen]. }
    destruct (IH (S a) s1 cells1) as
      (s' & R & Hheap & Hsz' & Hix & Hix' & Hlix & Htr & Hd' & Hhd & Hip & Hil & Hc' & Hr');
      try assumption; try lia.
    { intros i Hi. rewrite Htr1. apply HE. lia. }
    { intros i Hi. apply Hpos. lia. }
    { congruence. }
    { congruence. }
    { rewrite Hheap1. apply lookup_insert_eq. }
    exists s'. split.
    { cbn [seq read_revs]. rewrite R1. cbn [mbind outcome_bind]. exact R. }
    split.
    { rewrite Hheap, Hheap1, insert_insert_eq. f_equal.
      rewrite Hsz1, samples_in_S.
      cbn [seq fmap list_fmap concat].
      replace (Z.to_nat (datsz s + nr_samples (E a)))
        with (Z.to_nat (datsz s) + Z.to_nat (nr_samples (E a)))%nat by lia.
      replace (Z.to_nat (datsz s + nr_samples (E a) + samples_in E (S a) k))
        with (Z.to_nat (datsz s) + Z.to_nat (nr_samples (E a))
              + Z.to_nat (samples_in E (S a) k))%nat by lia.
      replace (Z.to_nat (datsz s + (nr_samples (E a) + samples_in E (S a) k)))
        with (Z.to_nat (datsz s) + Z.to_nat (nr_samples (E a))
              + Z.to_nat (samples_in E (S a) k))%nat by lia.
      unfold cells1.
      rewrite splice_take by (lia || exact Hlen).
      rewrite splice_drop by (lia || exact Hlen).
      rewrite <- !app_assoc. reflexivity. }
    split; [rewrite Hsz', Hsz1, samples_in_S; lia|].
    split.
    { intros i Hi Hli. destruct (decide (i = a)) as [-> | Hne].
      - rewrite Hix' by lia. rewrite Hix1, Nat.sub_diag.
        rewrite list_lookup_insert_eq by exact Hli.
        f_equal. unfold samples_in, zsum. cbn. lia.
      - rewrite Hix by (rewrite ?Hix1, ?length_insert; lia).
        rewrite Hsz1. f_equal.
        replace (i - a)%nat with (S (i - S a)) by lia.
        rewrite (samples_in_S E a). lia. }
    split.
    { intros i Hi. rewrite Hix' by lia. rewrite Hix1. apply list_lookup_insert_ne. lia. }
    split; [rewrite Hlix, Hix1; apply length_insert|].
    repeat split; try congruence; apply Hr'.
Qed.

End ReadLoop.

Lemma load32_range (b : list Z) : bytes_ok b → 0 <= load32 b < 2 ^ 32.
Proof.
  intros Hb. unfold load32.
  destruct b as [|b0 [|b1 [|b2 [|b3 b]]]]; try lia.
  inversion Hb as [|? ? H0 Hb1]; subst. inversion Hb1 as [|? ? H1 Hb2]; subst.
  inversion Hb2 as [|? ? H2 Hb3]; subst. inversion Hb3 as [|? ? H3 Hb4]; subst.
  lia.
Qed.

Lemma content_bytes_ok c off n : bytes_ok c → bytes_ok (content_bytes c off n).
Proof.
  intros Hc. unfold content_bytes, bytes_ok. apply Forall_take, Forall_app. split.
  - apply Forall_drop. exact Hc.
  - apply Forall_replicate. lia.
Qed.

Lemma entry_range c off nrev i :
  bytes_ok c →
  0 <= nr_samples (entry c off nrev i) < 2 ^ 32
  ∧ 0 <= offset (entry c off nrev i) < 2 ^ 32.
Proof.
  intros Hc. unfold entry, conv_rev, raw_entry, parse_rev, le32toh.
  cbn [nr_samples offset]. split.
  - apply load32_range. apply Forall_drop, Forall_drop, content_bytes_ok, Hc.
  - apply wrap_u_range.
Qed.

(** Up to its second loop, a load goes one way: the record is read and
    converted, and the buffer requested for the (wrapped) total. A refused
    request ends the program; a granted one leads into the second loop. *)
Lemma select_track_prefix (fuel : nat) (s : scp_file_t) (tn off : Z) :
  let c := content (fd s) in
  let nrev := nr_revolutions (header s) in
  let E := entry c off nrev in
  bool_decide (is_Some (dat s)) && (track_nr (track s) =? tn) = false →
  0 <= tn < TRACK_MAX →
  track_offset (header s) !! Z.to_nat tn = Some off →
  0 <= off →
  readable (fd s) →
  bytes_ok c →
  0 <= nrev <= REV_MAX →
  length (rev (track s)) = Z.to_nat REV_MAX →
  length (index_ptr s) = Z.to_nat REV_MAX →
  take 3 (content_bytes c off (4 + 12 * nrev)) = TRK →
  (content_bytes c off (4 + 12 * nrev)) !!! 3%nat = tn →
  (length (errs (fd s)) + 2 <= fuel)%nat →
  (grants s (free (heap s) (dat s)) (wrap_u (samples_in E 0 (Z.to_nat nrev))) = false
   ∧ scp_select_track fuel s tn = Exit)
  ∨ (grants s (free (heap s) (dat s)) (wrap_u (samples_in E 0 (Z.to_nat nrev))) = true
   ∧ ∃ (s4 : scp_file_t) (p : loc),
    scp_select_track fuel s tn
    = (x ← read_revs fuel s4 (seq 0 (Z.to_nat nrev));
       match x with
       | inl s' => Ok (-1, s')
       | inr s' => Ok (0, s')
       end)
    ∧ (∀ i : nat, (i < Z.to_nat nrev)%nat → rev (track s4) !! i = Some (E i))
    ∧ (∀ i : nat, 0 <= offset (E i) ∧ 0 <= nr_samples (E i))
    ∧ readable (fd s4) ∧ content (fd s4) = c
    ∧ dat s4 = Some p
    ∧ (p ∉ dom (free (heap s) (dat s)))
    ∧ heap s4 = <[p := replicate (Z.to_nat (wrap_u (samples_in E 0 (Z.to_nat nrev)))) 0]>
                  (free (heap s) (dat s))
    ∧ datsz s4 = 0
    ∧ length (index_ptr s4) = Z.to_nat REV_MAX
    ∧ track_nr (track s4) = tn
    ∧ header s4 = header s
    ∧ grants s4 = grants s
    ∧ (length (errs (fd s4)) + 2 <= fuel)%nat).
Proof.
  intros c nrev E Hnew Htn Hoff Hoff0 [Hsk Ht] Hc Hnrev Hlr Hli Hsig Hnr Hf.
  unfold scp_select_track. rewrite Hnew.
  unfold load_track_offset. session_fields.
  destruct (Z.leb_spec 0 tn); [|lia]. destruct (Z.ltb_spec tn TRACK_MAX); [|lia].
  cbn [andb]. rewrite Hoff. cbn [mbind outcome_bind].
  unfold sys_lseek. rewrite Hsk.
  rewrite Z.eqb_refl. cbn [negb].
  set (f1 := {| content := content (fd s); pos := off; seekable := true;
                errs := errs (fd s) |}).
  session_fields. fold nrev.
  assert (Hread : read_exact fuel f1 (4 + 12 * nrev)
                  = Ok (advanced f1 (Z.min (4 + 12 * nrev)
                                       (Z.of_nat (length (remaining f1)))),
                        file_bytes f1 (4 + 12 * nrev))).
  { apply read_exact_padded_gen; cbn [f1 errs pos]; try assumption; lia. }
  rewrite Hread. cbn [mbind outcome_bind].
  change (file_bytes f1 (4 + 12 * nrev)) with (content_bytes c off (4 + 12 * nrev)).
  set (b := content_bytes c off (4 + 12 * nrev)) in *.
  set (f2 := advanced f1 _).
  unfold store_track. destruct (Z.leb_spec nrev REV_MAX); [|lia].
  cbn [mbind outcome_bind]. session_fields.
  rewrite Hsig, Hnr. unfold list_eqb. rewrite bool_decide_eq_true_2 by reflexivity.
  rewrite Z.eqb_refl. cbn [negb].
  match goal with |- context [foldl (convert_rev off) ?s0 _] => set (s2 := s0) end.
  assert (Hraw : ∀ i : nat, (0 <= i < 0 + Z.to_nat nrev)%nat →
                 rev (track s2) !! i = Some (raw_entry c off nrev i)).
  { intros i Hi. unfold s2. cbn [track set_track rev].
    rewrite lookup_app_l by (rewrite length_fmap, length_seq; lia).
    rewrite list_lookup_fmap, lookup_seq_lt by lia. reflexivity. }
  destruct (convert_revs_spec off (raw_entry c off nrev) (Z.to_nat nrev) 0 s2 Hraw)
    as (A & B & L & C & Rg & D).
  fold E in A, C.
  change (λ i : nat, conv_rev off (raw_entry c off nrev i)) with E in C.
  set (s3 := foldl (convert_rev off) s2 (seq 0 (Z.to_nat nrev))) in *.
  destruct D as (Dfd & Dhd & Ddat & Dheap & Dix & Dip & Dil & Dsig & Dnr & Dgr).
  assert (Hpos : ∀ i : nat, 0 <= offset (E i) ∧ 0 <= nr_samples (E i)).
  { intros i. destruct (entry_range c off nrev i Hc) as [Hn1 Hn2].
    fold E in Hn1, Hn2. lia. }
  assert (Hsz3 : datsz s3 = wrap_u (samples_in E 0 (Z.to_nat nrev))).
  { rewrite <- (wrap_u_small (datsz s3)) by (apply Rg; cbn; lia).
    rewrite C. cbn [s2 datsz set_track set_fd set_datsz]. reflexivity. }
  unfold calloc. rewrite Hsz3, Dheap, Dgr.
  cbn [s2 heap grants set_track set_fd set_heap set_dat set_datsz].
  set (h0 := free (heap s) (dat s)).
  destruct (grants s h0 (wrap_u (samples_in E 0 (Z.to_nat nrev)))) eqn:HG.
  2: { left. split; [reflexivity|].
       rewrite bool_decide_eq_true_2 by reflexivity. reflexivity. }
  right. split; [reflexivity|].
  cbn [fst snd]. rewrite bool_decide_eq_false_2 by discriminate.
  set (p := fresh (dom h0)).
  match goal with |- context [read_revs fuel ?s0 _] => set (s4 := s0) end.
  exists s4, p. split; [reflexivity|].
  split; [intros i Hi; cbn [s4 track set_datsz set_dat set_heap]; apply A; lia|].
  split; [exact Hpos|].
  split.
  { cbn [s4 fd set_datsz set_dat set_heap]. rewrite Dfd. cbn [s2 fd set_track set_fd].
    split; reflexivity. }
  split; [cbn [s4 fd set_datsz set_dat set_heap]; rewrite Dfd; reflexivity|].
  split; [reflexivity|].
  split; [apply is_fresh|].
  split; [reflexivity|].
  split; [reflexivity|].
  split.
  { cbn [s4 index_ptr set_datsz set_dat set_heap]. rewrite Dix. exact Hli. }
  split.
  { cbn [s4 track set_datsz set_dat set_heap]. rewrite Dnr. reflexivity. }
  split.
  { cbn [s4 header set_datsz set_dat set_heap]. rewrite Dhd. reflexivity. }
  split.
  { cbn [s4 grants set_datsz set_dat set_heap]. rewrite Dgr. reflexivity. }
  cbn [s4 fd set_datsz set_dat set_heap]. rewrite Dfd.
  cbn [s2 fd set_track set_fd f2 errs advanced]. cbn. lia.
Qed.

Lemma select_track_load (fuel : nat) (s : scp_file_t) (tn off : Z) :
  let c := content (fd s) in
  let nrev := nr_revolutions (header s) in
  let E := entry c off nrev in
  bool_decide (is_Some (dat s)) && (track_nr (track s) =? tn) = false →
  0 <= tn < TRACK_MAX →
  track_offset (header s) !! Z.to_nat tn = Some off →
  0 <= off →
  readable (fd s) →
  bytes_ok c →
  0 <= nrev <= REV_MAX →
  length (rev (track s)) = Z.to_nat REV_MAX →
  length (index_ptr s) = Z.to_nat REV_MAX →
  take 3 (content_bytes c off (4 + 12 * nrev)) = TRK →
  (content_bytes c off (4 + 12 * nrev)) !!! 3%nat = tn →
  (length (errs (fd s)) + 2 <= fuel)%nat →
  samples_in E 0 (Z.to_nat nrev) < 2 ^ 32 →
  grants s (free (heap s) (dat s)) (samples_in E 0 (Z.to_nat nrev)) = true →
  ∃ (s' : scp_file_t) (p : loc),
    scp_select_track fuel s tn = Ok (0, s')
    ∧ dat s' = Some p
    ∧ (p ∉ dom (free (heap s) (dat s)))
    ∧ heap s' = <[p := concat ((λ i, entry_cells c (E i)) <$> seq 0 (Z.to_nat nrev))]>
                  (free (heap s) (dat s))
    ∧ datsz s' = samples_in E 0 (Z.to_nat nrev)
    ∧ (∀ r : nat, (r < Z.to_nat nrev)%nat →
         index_ptr s' !! r = Some (samples_in E 0 (S r))
         ∧ rev (track s') !! r = Some (E r))
    ∧ track_nr (track s') = tn
    ∧ header s' = header s
    ∧ content (fd s') = c.
Proof.
  intros c nrev E Hnew Htn Hoff Hoff0 Hrd Hc Hnrev Hlr Hli Hsig Hnr Hf Htot HG.
  assert (Htot0 : 0 <= samples_in E 0 (Z.to_nat nrev)).
  { apply samples_in_nonneg. intros i _.
    destruct (entry_range c off nrev i Hc) as [Hn _]. fold E in Hn. lia. }
  destruct (select_track_prefix fuel s tn off Hnew Htn Hoff Hoff0 Hrd Hc Hnrev Hlr Hli
              Hsig Hnr Hf)
    as [[HG' _] | [_ (s4 & p & Hsel & A & Hpos & Hrd4 & Hc4 & Hd4 & Hfresh & Hh4 & Hz4
                      & Hli4 & Hnr4 & Hhd4 & Hgr4 & Hf4)]].
  { fold c nrev E in HG'. rewrite wrap_u_small in HG' by lia. congruence. }
  clear Htot0.
  fold c nrev E in Hsel, A, Hpos, Hc4, Hh4.
  assert (Htot0 : 0 <= samples_in E 0 (Z.to_nat nrev)).
  { apply samples_in_nonneg. intros i _. apply Hpos. }
  rewrite wrap_u_small in Hh4 by lia.
  set (cells := replicate (Z.to_nat (samples_in E 0 (Z.to_nat nrev))) 0) in *.
  destruct (read_revs_spec fuel c E p (Z.to_nat nrev) 0 s4 cells)
    as (s' & R & Hheap & Hsz' & Hix & Hix' & Hlix & Htr & Hd' & Hhd & Hip & Hil & Hc' & Hr').
  { intros i Hi. apply A. lia. }
  { intros i _. apply Hpos. }
  { exact Hrd4. }
  { exact Hc4. }
  { exact Hd4. }
  { rewrite Hh4. apply lookup_insert_eq. }
  { lia. }
  { rewrite Hz4. unfold cells. rewrite length_replicate. lia. }
  { lia. }
  { exact Hf4. }
  rewrite Hsel, R. cbn [mbind outcome_bind].
  exists s', p. split; [reflexivity|].
  split; [congruence|].
  split; [exact Hfresh|].
  split.
  { rewrite Hheap, Hh4, Hz4, insert_insert_eq. f_equal.
    cbn [Z.to_nat take app]. rewrite Z.add_0_l.
    unfold cells. rewrite drop_ge by (rewrite length_replicate; lia).
    apply app_nil_r. }
  split; [rewrite Hsz', Hz4; lia|].
  split.
  { intros r Hr. split.
    - rewrite Hix; [| lia | rewrite Hli4; unfold REV_MAX in *; lia].
      rewrite Hz4, Nat.sub_0_r, Z.add_0_l. reflexivity.
    - rewrite Htr. apply A. lia. }
  split; [rewrite Htr; exact Hnr4|].
  split; [congruence|].
  exact Hc'.
Qed.

Lemma content_bytes_lookup c off n (i : nat) :
  0 <= off → Z.of_nat i < n →
  content_bytes c off n !! i = Some (byte_at c (off + Z.of_nat i)).
Proof.
  intros Hoff Hi. unfold content_bytes, byte_at.
  rewrite lookup_take_lt by lia.
  replace (Z.to_nat (off + Z.of_nat i)) with (Z.to_nat off + i)%nat by lia.
  destruct (decide (i < length (drop (Z.to_nat off) c))%nat) as [Hlt | Hge].
  - rewrite lookup_app_l by exact Hlt. rewrite lookup_drop.
    destruct (c !! (Z.to_nat off + i)%nat) as [x|] eqn:Hx; [reflexivity|].
    apply lookup_ge_None in Hx. rewrite length_drop in Hlt. lia.
  - rewrite lookup_app_r by lia. rewrite lookup_replicate_2 by lia.
    rewrite length_drop in Hge.
    rewrite (proj2 (lookup_ge_None c (Z.to_nat off + i)%nat)) by lia. reflexivity.
Qed.

Lemma cells_of_bytes_lookup (j : nat) : ∀ (b : list Z) (x y : Z),
  b !! (2 * j)%nat = Some x → b !! (2 * j + 1)%nat = Some y →
  cells_of_bytes b !! j = Some (load16 x y).
Proof.
  induction j as [|j IH]; intros b x y Hx Hy.
  - destruct b as [|b0 [|b1 b]]; try discriminate.
    cbn in Hx, Hy. injection Hx as <-. injection Hy as <-. reflexivity.
  - destruct b as [|b0 [|b1 b]]; try discriminate.
    cbn [cells_of_bytes]. rewrite lookup_cons_ne_0 by lia. cbn [pred].
    apply IH.
    + replace (2 * S j)%nat with (S (S (2 * j))) in Hx by lia. exact Hx.
    + replace (2 * S j + 1)%nat with (S (S (2 * j + 1))) in Hy by lia. exact Hy.
Qed.

Lemma be16toh_load16 (x y : Z) :
  0 <= x < 256 → 0 <= y < 256 → be16toh (load16 x y) = 256 * x + y.
Proof.
  intros Hx Hy. unfold be16toh, load16.
  replace (x + 256 * y) with (x + y * 256) by lia.
  rewrite Z.mod_add, Z.div_add by lia.
  rewrite (Z.mod_small x), (Z.div_small x) by lia.
  rewrite Z.add_0_l, (Z.mod_small y) by lia. lia.
Qed.

Lemma byte_at_range c k : bytes_ok c → 0 <= byte_at c k < 256.
Proof.
  intros Hc. unfold byte_at. destruct (c !! Z.to_nat k) as [x|] eqn:Hx; cbn; [|lia].
  unfold bytes_ok in Hc. rewrite Forall_lookup in Hc. exact (Hc _ _ Hx).
Qed.

(** Cell [j] of the sample array described by [e] is the big-endian value
    of its bytes in the file, as [be16toh] returns it. *)
Lemma entry_cells_lookup c e (j : Z) :
  bytes_ok c → 0 <= offset e → 0 <= j < nr_samples e →
  ∃ cell, entry_cells c e !! Z.to_nat j = Some cell
          ∧ be16toh cell = 256 * byte_at c (offset e + 2 * j)
                           + byte_at c (offset e + 2 * j + 1).
Proof.
  intros Hc Hoff Hj. eexists. split.
  - unfold entry_cells. apply cells_of_bytes_lookup; apply content_bytes_lookup; lia.
  - rewrite be16toh_load16 by (apply byte_at_range; exact Hc).
    replace (Z.of_nat (2 * Z.to_nat j)) with (2 * j) by lia.
    replace (Z.of_nat (2 * Z.to_nat j + 1)) with (2 * j + 1) by lia.
    rewrite Z.add_assoc. reflexivity.
Qed.

Lemma concat_chunk_lookup (E : nat → rev_entry) (F : nat → list Z) (k : nat) :
  ∀ (a r : nat) (j : Z),
  (∀ i : nat, 0 <= nr_samples (E i)) →
  (∀ i : nat, length (F i) = Z.to_nat (nr_samples (E i))) →
  (r < k)%nat →
  0 <= j < nr_samples (E (a + r)%nat) →
  concat (F <$> seq a k) !! Z.to_nat (samples_in E a r + j) = F (a + r)%nat !! Z.to_nat j.
Proof.
  induction k as [|k IH]; intros a r j Hpos Hlen Hr Hj; [lia|].
  cbn [seq fmap list_fmap concat].
  destruct r as [|r].
  - change (samples_in E a 0) with 0. rewrite Z.add_0_l, Nat.add_0_r in *.
    apply lookup_app_l. rewrite Hlen. lia.
  - rewrite samples_in_S.
    assert (0 <= samples_in E (S a) r) by (apply samples_in_nonneg; intros; apply Hpos).
    pose proof (Hpos a).
    rewrite lookup_app_r by (rewrite Hlen; lia).
    rewrite Hlen.
    replace (Z.to_nat (nr_samples (E a) + samples_in E (S a) r + j)
             - Z.to_nat (nr_samples (E a)))%nat
      with (Z.to_nat (samples_in E (S a) r + j)) by lia.
    replace (a + S r)%nat with (S a + r)%nat in * by lia.
    apply IH; try assumption; lia.
Qed.

(** The conditions of a load, on a concrete session. *)
Ltac loadable_eval :=
  unfold loadable;
  split; [reflexivity|]; split; [unfold TRACK_MAX; lia|];
  split; [reflexivity|]; split; [lia|];
  split; [split; reflexivity|];
  split; [apply bytes_ok_decide; vm_compute; reflexivity|];
  split; [vm_compute; split; discriminate|];
  split; [reflexivity|]; split; [reflexivity|];
  split; [vm_compute; reflexivity|]; split; [vm_compute; reflexivity|];
  cbn; lia.

Lemma samples_in_entries_nonneg c off nrev (n : nat) :
  bytes_ok c → 0 <= samples_in (entry c off nrev) 0 n.
Proof.
  intros Hc. apply samples_in_nonneg. intros i _.
  destruct (entry_range c off nrev i Hc) as [Hn _]. lia.
Qed.



(** X5. After such a load has returned 0, revolution [r] of the track
    occupies the slice of the buffer that starts at the sample count of the
    revolutions before it and has [nr_samples] cells; and sample [j] of that
    slice, as [be16toh] reads it, is the big-endian value of the two bytes
    at [offset + 2 j] of the capture, a byte past the end of the file
    counting as zero. *)
Theorem select_track_samples (fuel : nat) (s s' : scp_file_t) (tn off : Z) :
  let c := content (fd s) in
  let nrev := nr_revolutions (header s) in
  let E := entry c off nrev in
  loadable fuel s tn off →
  samples_in E 0 (Z.to_nat nrev) < 2 ^ 32 →
  scp_select_track fuel s tn = Ok (0, s') →
  ∀ r : nat, (r < Z.to_nat nrev)%nat →
    slice_start s' (Z.of_nat r) = Ok (samples_in E 0 r)
    ∧ slice_end s' (Z.of_nat r) = Ok (samples_in E 0 r + nr_samples (E r))
    ∧ ∀ j : Z, 0 <= j < nr_samples (E r) →
        sample s' (samples_in E 0 r + j)
        = Some (256 * byte_at c (offset (E r) + 2 * j)
                + byte_at c (offset (E r) + 2 * j + 1)).
Proof.
  intros c nrev E Hl H13 Hret.
  pose proof Hl as (H1 & H2 & H3 & H4 & H5 & H6 & H7 & H8 & H9 & H10 & H11 & H12).
  assert (HG : grants s (free (heap s) (dat s)) (samples_in E 0 (Z.to_nat nrev)) = true).
  { pose proof (samples_in_entries_nonneg c off nrev (Z.to_nat nrev) H6) as Htot0.
    fold E in Htot0.
    destruct (select_track_prefix fuel s tn off H1 H2 H3 H4 H5 H6 H7 H8 H9 H10 H11 H12)
      as [[_ Hx] | [HG' _]]; [congruence|].
    fold c nrev E in HG'. rewrite wrap_u_small in HG' by lia. exact HG'. }
  destruct (select_track_load fuel s tn off H1 H2 H3 H4 H5 H6 H7 H8 H9 H10 H11 H12 H13 HG)
    as (s'' & p & Hsel & Hd & _ & Hh & Hsz & Hix & _).
  rewrite Hret in Hsel. injection Hsel as <-.
  fold c nrev E in Hh, Hsz, Hix, H7.
  intros r Hr.
  assert (Hpos : ∀ i : nat, 0 <= nr_samples (E i)).
  { intros i. destruct (entry_range c off nrev i H6) as [Hn _]. fold E in Hn. lia. }
  assert (Hend : load_index s' (Z.of_nat r) = Ok (samples_in E 0 (S r))).
  { unfold load_index. destruct (Z.leb_spec 0 (Z.of_nat r)); [|lia].
    destruct (Z.ltb_spec (Z.of_nat r) REV_MAX); [|lia]. cbn [andb].
    rewrite Nat2Z.id. rewrite (proj1 (Hix r Hr)). reflexivity. }
  split; [|split].
  - unfold slice_start. destruct (Z.eqb_spec (Z.of_nat r) 0) as [H0 | H0].
    + replace r with 0%nat by lia. reflexivity.
    + unfold load_index. destruct (Z.leb_spec 0 (Z.of_nat r - 1)); [|lia].
      destruct (Z.ltb_spec (Z.of_nat r - 1) REV_MAX); [|lia]. cbn [andb].
      replace (Z.to_nat (Z.of_nat r - 1)) with (r - 1)%nat by lia.
      rewrite (proj1 (Hix (r - 1)%nat ltac:(lia))).
      replace (S (r - 1)) with r by lia. reflexivity.
  - unfold slice_end. rewrite Hend, samples_in_snoc. reflexivity.
  - intros j Hj.
    destruct (entry_cells_lookup c (E r) j H6) as (cell & Hcell & Hval);
      [destruct (entry_range c off nrev r H6) as [_ Ho]; fold E in Ho; lia | exact Hj |].
    unfold sample, dat_cells. rewrite Hd. cbn [mbind option_bind].
    rewrite Hh, lookup_insert_eq. cbn [mbind option_bind].
    rewrite (concat_chunk_lookup E (λ i, entry_cells c (E i)) (Z.to_nat nrev) 0 r j);
      [| exact Hpos | intros i; apply entry_cells_length, Hpos | exact Hr | exact Hj].
    cbn [Nat.add]. rewrite Hcell. cbn [mbind option_bind]. rewrite Hval. reflexivity.
Qed.

Lemma select_track_samples_witness :
  scp_select_track 2 Capture.o_empty_rev 0 = Ok (0, Capture.s_empty_rev)
  ∧ slice_start Capture.s_empty_rev 1 = Ok 0
  ∧ slice_end Capture.s_empty_rev 1 = Ok 3
  ∧ sample Capture.s_empty_rev 2 = Some 80.
Proof.
  assert (Hl : loadable 2 Capture.o_empty_rev 0 688).
  { loadable_eval. }
  assert (Hsel : scp_select_track 2 Capture.o_empty_rev 0 = Ok (0, Capture.s_empty_rev))
    by (vm_compute; reflexivity).
  destruct (select_track_samples 2 Capture.o_empty_rev Capture.s_empty_rev 0 688 Hl
              ltac:(vm_compute; reflexivity) Hsel 1%nat ltac:(vm_compute; lia))
    as (Hs & He & Hsm).
  split; [exact Hsel|].
  split; [exact Hs|]. split; [exact He|].
  exact (Hsm 2 ltac:(vm_compute; split; [discriminate | reflexivity])).
Defined.

Lemma take3_content_bytes c off n :
  0 <= off → 3 <= n →
  take 3 (content_bytes c off n) = [byte_at c off; byte_at c (off + 1); byte_at c (off + 2)].
Proof.
  intros Hoff Hn. apply list_eq. intros i.
  destruct (decide (i < 3)%nat) as [Hi | Hi].
  - rewrite lookup_take_lt by exact Hi.
    rewrite content_bytes_lookup by lia.
    destruct i as [|[|[|i]]]; try lia; cbn; do 2 f_equal; lia.
  - rewrite lookup_take_ge by lia.
    destruct i as [|[|[|i]]]; try lia. reflexivity.
Qed.

(** X6. A track that the capture does not hold, its entry in the offset
    table being 0, cannot be selected: the record read at offset 0 is the
    head of the file, whose signature is "SCP" and not "TRK", so the call
    returns -1, with no buffer allocated and the heap as [scp_open] found
    it. *)
Theorem select_absent_track (fuel : nat) (h : gmap loc (list Z))
    (g : gmap loc (list Z) → Z → bool) (f : file) (s : scp_file_t) (tn : Z) :
  scp_open fuel h g (Some f) = Ok (0, s) →
  pos f = 0 →
  readable f →
  bytes_ok (content f) →
  (length (errs f) + 2 <= fuel)%nat →
  0 <= tn < TRACK_MAX →
  track_offset (header s) !! Z.to_nat tn = Some 0 →
  ∃ s', scp_select_track fuel s tn = Ok (-1, s')
        ∧ dat s' = None
        ∧ heap s' = h.
Proof.
  intros Hopen Hp [Hsk Ht] Hby Hf Htn Hoff.
  rewrite scp_open_eq in Hopen by (assumption || lia).
  destruct (header_valid _) eqn:Hv; [|discriminate].
  injection Hopen as <-.
  destruct (header_valid_inv _ Hv) as (Hsig & H0 & H5 & _).
  pose proof (header_revolutions_byte f Hby) as Hr0.
  set (hd := parse_header (file_bytes f sizeof_header)) in *.
  set (nrev := nr_revolutions hd) in *.
  unfold scp_select_track, opened_session. session_fields. cbn [bool_decide andb].
  rewrite bool_decide_eq_false_2 by (intros [x Hx]; discriminate). cbn [andb].
  unfold load_track_offset. session_fields.
  destruct (Z.leb_spec 0 tn); [|lia]. destruct (Z.ltb_spec tn TRACK_MAX); [|lia].
  cbn [andb]. unfold opened_session in Hoff. cbn [header] in Hoff. rewrite Hoff.
  cbn [mbind outcome_bind].
  unfold sys_lseek. cbn [advanced seekable]. rewrite Hsk.
  rewrite Z.eqb_refl. cbn [negb]. session_fields. cbn [advanced content errs].
  set (f1 := {| content := content f; pos := 0; seekable := true; errs := [] |}).
  fold hd. fold nrev.
  assert (Hread : read_exact fuel f1 (4 + 12 * nrev)
                  = Ok (advanced f1 (Z.min (4 + 12 * nrev)
                                       (Z.of_nat (length (remaining f1)))),
                        file_bytes f1 (4 + 12 * nrev))).
  { apply read_exact_padded_gen; cbn [f1 errs pos length]; try reflexivity; lia. }
  rewrite Hread. cbn [mbind outcome_bind].
  unfold store_track. destruct (Z.leb_spec nrev REV_MAX); [|lia].
  cbn [mbind outcome_bind]. session_fields.
  assert (Hb : take 3 (file_bytes f1 (4 + 12 * nrev)) = SCP).
  { change (file_bytes f1 (4 + 12 * nrev)) with (content_bytes (content f) 0 (4 + 12 * nrev)).
    rewrite take3_content_bytes by lia.
    rewrite <- Hsig. unfold hd, parse_header. cbn [sig].
    change (file_bytes f sizeof_header)
      with (content_bytes (content f) (pos f) sizeof_header).
    rewrite Hp. symmetry. apply take3_content_bytes; [lia|].
    unfold sizeof_header, TRACK_MAX. lia. }
  rewrite Hb.
  unfold list_eqb. rewrite bool_decide_eq_false_2 by discriminate. cbn [negb].
  eexists. split; [reflexivity|]. session_fields. split; reflexivity.
Qed.

Lemma select_absent_track_witness :
  ∃ s', scp_select_track 2 Capture.o_empty_rev 9 = Ok (-1, s')
        ∧ dat s' = None ∧ heap s' = ∅.
Proof.
  apply (select_absent_track 2 ∅ Capture.roomy
           (Capture.file_of (Capture.image [[]; [80; 80; 80]]))
           Capture.o_empty_rev 9).
  - vm_compute. reflexivity.
  - reflexivity.
  - split; reflexivity.
  - apply bytes_ok_decide. vm_compute. reflexivity.
  - cbn. lia.
  - unfold TRACK_MAX. lia.
  - vm_compute. reflexivity.
Defined.

(** ** The heap outside the session *)

Section Others.

Implicit Types (s : scp_file_t).

Lemma store_dat_others s i new s' :
  store_dat s i new = Ok s' →
  dat s' = dat s ∧ others s' = others s ∧ header s' = header s.
Proof.
  unfold store_dat, others. destruct (dat s) as [p|] eqn:Hd; [|discriminate].
  destruct (heap s !! p) as [cells|]; [|discriminate].
  destruct (i + Z.of_nat (length new) <=? Z.of_nat (length cells)); [|discriminate].
  intros [= <-]. cbn [dat heap set_heap]. rewrite Hd. split; [reflexivity|].
  split; [|reflexivity]. cbn [free]. apply delete_insert_eq.
Qed.

Lemma read_rev_others fuel s r x :
  read_rev fuel s r = Ok x →
  match x with
  | inl s' | inr s' => dat s' = dat s ∧ others s' = others s ∧ header s' = header s
  end.
Proof.
  unfold read_rev. destruct (rev (track s) !! r) as [e|]; [|discriminate].
  destruct (sys_lseek (fd s) (offset e)) as [f got].
  destruct (negb (got =? offset e)).
  - intros [= <-]. repeat split.
  - destruct (read_exact fuel (fd (set_fd f s)) (nr_samples e * 2)) as [[f2 b]| | |];
      cbn [mbind outcome_bind]; try discriminate.
    destruct (nr_samples e =? 0).
    + cbn [mbind outcome_bind]. intros [= <-]. repeat split.
    + destruct (store_dat (set_fd f2 (set_fd f s)) (datsz (set_fd f2 (set_fd f s)))
                  (cells_of_bytes b)) as [s2| | |] eqn:Hst;
        cbn [mbind outcome_bind]; try discriminate.
      apply store_dat_others in Hst. intros [= <-]. exact Hst.
Qed.

Lemma read_revs_others fuel (rs : list nat) : ∀ s x,
  read_revs fuel s rs = Ok x →
  match x with
  | inl s' | inr s' => dat s' = dat s ∧ others s' = others s ∧ header s' = header s
  end.
Proof.
  induction rs as [|r rs IH]; intros s x; cbn [read_revs].
  - intros [= <-]. repeat split.
  - destruct (read_rev fuel s r) as [[s1 | s1]| | |] eqn:Hr; cbn [mbind outcome_bind];
      try discriminate; apply read_rev_others in Hr.
    + intros [= <-]. exact Hr.
    + intros H. apply IH in H.
      destruct x; destruct H as (? & ? & ?), Hr as (? & ? & ?); repeat split; congruence.
Qed.

Lemma convert_revs_others off (rs : list nat) : ∀ s,
  dat (foldl (convert_rev off) s rs) = dat s
  ∧ heap (foldl (convert_rev off) s rs) = heap s
  ∧ header (foldl (convert_rev off) s rs) = header s.
Proof.
  induction rs as [|r rs IH]; intros s; cbn [foldl]; [repeat split|].
  destruct (IH (convert_rev off s r)) as (-> & -> & ->).
  unfold convert_rev. destruct (rev (track s) !! r); repeat split.
Qed.

Lemma others_free_free (h : gmap loc (list Z)) (d : option loc) :
  free (free h d) None = free h d.
Proof. reflexivity. Qed.

Lemma select_track_others fuel s tn r s' :
  scp_select_track fuel s tn = Ok (r, s') →
  others s' = others s ∧ header s' = header s.
Proof.
  unfold scp_select_track.
  destruct (bool_decide (is_Some (dat s)) && (track_nr (track s) =? tn)).
  { intros [= <- <-]. split; reflexivity. }
  set (s1 := set_datsz 0 (set_dat None (set_heap (free (heap s) (dat s)) s))).
  assert (H1 : others s1 = others s ∧ header s1 = header s) by (split; reflexivity).
  destruct (load_track_offset s1 tn) as [off| | |]; cbn [mbind outcome_bind];
    try discriminate.
  destruct (sys_lseek (fd s1) off) as [f got].
  destruct (negb (got =? off)).
  { intros [= <- <-]. exact H1. }
  destruct (read_exact fuel (fd (set_fd f s1)) (4 + 12 * nr_revolutions (header (set_fd f s1))))
    as [[f2 b]| | |]; cbn [mbind outcome_bind]; try discriminate.
  destruct (store_track (track (set_fd f2 (set_fd f s1)))
              (nr_revolutions (header (set_fd f s1))) b) as [t| | |];
    cbn [mbind outcome_bind]; try discriminate.
  set (s2 := set_track t (set_fd f2 (set_fd f s1))).
  destruct (list_eqb (trk_sig (track s2)) TRK); cbn [negb].
  2: { intros [= <- <-]. exact H1. }
  destruct (track_nr (track s2) =? tn); cbn [negb].
  2: { intros [= <- <-]. exact H1. }
  set (revs := seq 0 (Z.to_nat (nr_revolutions (header (set_fd f s1))))).
  destruct (convert_revs_others off revs s2) as (Hd3 & Hh3 & Hhd3).
  set (s3 := foldl (convert_rev off) s2 revs) in *.
  unfold calloc.
  destruct (grants s3 (heap s3) (datsz s3));
    [|rewrite bool_decide_eq_true_2 by reflexivity; discriminate].
  rewrite bool_decide_eq_false_2 by discriminate.
  set (p := fresh (dom (heap s3))).
  set (s4 := set_datsz 0 (set_dat (Some p) (set_heap _ s3))).
  assert (H4 : others s4 = others s ∧ header s4 = header s).
  { split.
    - unfold others, s4. cbn [heap dat set_datsz set_dat set_heap free].
      rewrite delete_insert_id; [rewrite Hh3; exact (proj1 H1)|].
      apply not_elem_of_dom. apply is_fresh.
    - unfold s4. cbn [header set_datsz set_dat set_heap]. rewrite Hhd3. reflexivity. }
  destruct H4 as [H4 H4'].
  destruct (read_revs fuel s4 revs) as [[s5 | s5]| | |] eqn:Hr;
    cbn [mbind outcome_bind]; try discriminate;
    apply read_revs_others in Hr as (_ & Ho & Hhd); intros [= <- <-]; split; congruence.
Qed.

End Others.

(** X7. A selection that returns, with whatever result, leaves the heap
    outside the session's buffer as it was: the previous buffer is freed
    before the new one is allocated, and nothing else is allocated or
    freed. Closing the session then frees the buffer, so that the heap is
    the former heap without the former buffer, and closing twice is closing
    once. *)
Theorem select_track_no_leak (fuel : nat) (s s' : scp_file_t) (tn r : Z) :
  scp_select_track fuel s tn = Ok (r, s') →
  others s' = others s
  ∧ heap (scp_close s') = others s
  ∧ dat (scp_close s') = None
  ∧ scp_close (scp_close s') = scp_close s'.
Proof.
  intros H. apply select_track_others in H as [H _].
  assert (Hc : heap (scp_close s') = others s' ∧ dat (scp_close s') = None).
  { unfold scp_close, others. destruct (dat s') eqn:E; split; reflexivity || exact E. }
  destruct Hc as [Hh Hd].
  split; [exact H|]. split; [congruence|]. split; [exact Hd|].
  unfold scp_close at 1. rewrite Hd. reflexivity.
Qed.

Lemma select_track_no_leak_witness :
  scp_select_track 2 Capture.s_track0 1 = Ok (-1, Capture.s_failed)
  ∧ heap (scp_close Capture.s_failed) = ∅.
Proof.
  assert (H : scp_select_track 2 Capture.s_track0 1 = Ok (-1, Capture.s_failed))
    by (vm_compute; reflexivity).
  split; [exact H|].
  rewrite (proj1 (proj2 (select_track_no_leak 2 _ _ 1 (-1) H))).
  vm_compute. reflexivity.
Defined.

(** ** The flux iterator at its edges *)

Section ZeroSlice.

Variables (rv lo hi : Z) (s0 : scp_file_t).

Hypothesis Hlo : 0 <= lo.
Hypothesis Hne : lo < hi.
Hypothesis Hhi : hi < 2 ^ 32.
Hypothesis Hzero : ∀ i, lo <= i < hi → sample s0 i = Some 0.

Lemma next_flux_loop_all_zero (fuel : nat) : ∀ (s : scp_file_t) (val : Z),
  slice_of rv lo hi (index_ptr s0) s →
  cursor_ok s lo hi →
  dat_cells s = dat_cells s0 →
  next_flux_loop fuel s rv val = Fuel.
Proof using All.
  induction fuel as [|fuel IH]; intros s val Hsl Hc Hd; [reflexivity|].
  cbn [next_flux_loop].
  destruct (flux_restart_ok rv lo hi (index_ptr s0) Hlo Hne Hhi s val Hsl Hc)
    as (s1 & val1 & Hr & Hix & Hd1 & Hl & Hp & _).
  assert (Hz : sample s1 (iter_ptr s1) = Some 0).
  { rewrite (sample_same_cells s0 s1) by congruence. apply Hzero. exact Hp. }
  pose proof (flux_iter_zero s s1 rv val val1 Hr Hz) as Hit.
  rewrite Hit. cbn [mbind outcome_bind].
  destruct (flux_iter_ok rv lo hi (index_ptr s0) Hlo Hne Hhi s val _ _ Hsl Hc Hit)
    as (Hsl2 & Hc2 & Hd2).
  apply IH; [exact Hsl2 | exact Hc2 | congruence].
Qed.

End ZeroSlice.

(** X8. A revolution whose cells are all zero never yields a flux
    interval: from the reset cursor, or from anywhere inside the slice,
    [scp_next_flux] goes round the slice adding carries and, whatever the
    bound put on its passes, has not returned. *)
Theorem next_flux_all_zero (s : scp_file_t) (rv lo hi : Z) (fuel : nat) :
  slice_start s rv = Ok lo →
  slice_end s rv = Ok hi →
  0 <= lo → lo < hi → hi < 2 ^ 32 →
  (∀ i, lo <= i < hi → sample s i = Some 0) →
  cursor_ok s lo hi →
  scp_next_flux fuel s rv = Fuel.
Proof.
  intros Hs He Hlo Hne Hhi Hz Hc. unfold scp_next_flux.
  apply (next_flux_loop_all_zero rv lo hi s Hlo Hne Hhi Hz fuel s 0).
  - split; [reflexivity | split; assumption].
  - exact Hc.
  - reflexivity.
Qed.

(** X9. An empty revolution is read outside its slice. With the slice of
    [rv] empty, [lo .. lo), a call that finds the cursor at its limit sets
    both to [lo] and reads the cell [lo] all the same: when that cell holds
    the non-zero sample [v] (the first sample of the next revolution), the
    call returns [v] and leaves the cursor past its limit, so that every
    later call does the same; when the buffer ends at [lo], the read is
    outside the buffer. *)
Theorem next_flux_empty_revolution (s : scp_file_t) (rv lo : Z) (fuel : nat) :
  slice_start s rv = Ok lo →
  slice_end s rv = Ok lo →
  0 <= lo → lo + 1 < 2 ^ 32 →
  iter_limit s <= iter_ptr s →
  let s' := set_iter_ptr (lo + 1) (set_iter_limit lo s) in
  (∀ v, sample s lo = Some v → v ≠ 0 →
        scp_next_flux (S fuel) s rv = Ok (v, s')
        ∧ scp_next_flux (S fuel) s' rv = Ok (v, s'))
  ∧ (∀ cells, dat_cells s = Some cells → Z.of_nat (length cells) <= lo →
              scp_next_flux (S fuel) s rv = Undef).
Proof.
  intros Hs He Hlo Hhi Hat s'.
  assert (Hr : ∀ (t : scp_file_t) (val : Z),
             index_ptr t = index_ptr s → iter_limit t <= iter_ptr t →
             flux_restart t rv val = Ok (set_iter_ptr lo (set_iter_limit lo t), 0)).
  { intros t val Hix Hge. unfold flux_restart.
    destruct (Z.leb_spec (iter_limit t) (iter_ptr t)); [|lia].
    unfold slice_end, slice_start, load_index in *. cbn [index_ptr set_iter_limit].
    rewrite Hix, He. cbn [mbind outcome_bind].
    revert Hs. destruct (rv =? 0); intros Hs.
    - injection Hs as <-. reflexivity.
    - rewrite Hs. reflexivity. }
  split.
  - intros v Hv Hv0.
    assert (Hcall : ∀ t : scp_file_t,
               index_ptr t = index_ptr s → dat_cells t = dat_cells s →
               iter_limit t <= iter_ptr t →
               scp_next_flux (S fuel) t rv
               = Ok (v, set_iter_ptr (lo + 1) (set_iter_limit lo t))).
    { intros t Hix Hd Hge. unfold scp_next_flux. cbn [next_flux_loop].
      rewrite (flux_iter_nonzero t _ rv 0 0 v (Hr t 0 Hix Hge)); [| |exact Hv0].
      - cbn [mbind outcome_bind iter_ptr set_iter_ptr].
        assert (0 <= v < 65536) by (apply (sample_range s lo); exact Hv).
        rewrite !uadd_small by lia. reflexivity.
      - cbn [iter_ptr set_iter_ptr].
        rewrite (sample_same_cells s) by exact Hd. exact Hv. }
    split; [apply Hcall; reflexivity || exact Hat|].
    rewrite (Hcall s'); [reflexivity | reflexivity | reflexivity | cbn; lia].
  - intros cells Hd Hlen. unfold scp_next_flux. cbn [next_flux_loop].
    unfold flux_iter. rewrite (Hr s 0 eq_refl Hat). cbn [mbind outcome_bind].
    cbn [iter_ptr set_iter_ptr]. unfold load_dat.
    change (dat_cells (set_iter_ptr lo (set_iter_limit lo s))) with (dat_cells s).
    rewrite Hd. rewrite (proj2 (lookup_ge_None cells (Z.to_nat lo))) by lia.
    reflexivity.
Qed.

Lemma next_flux_all_zero_witness :
  scp_next_flux 1000 (scp_reset Edge.s_silent) 0 = Fuel.
Proof.
  apply (next_flux_all_zero (scp_reset Edge.s_silent) 0 0 2 1000).
  - reflexivity.
  - reflexivity.
  - lia.
  - lia.
  - lia.
  - intros i Hi. assert (Hc : i = 0 ∨ i = 1) by lia. destruct Hc as [-> | ->]; reflexivity.
  - left. split; reflexivity.
Defined.

Lemma next_flux_empty_revolution_witness :
  slice_start Capture.s_empty_rev 0 = Ok 0
  ∧ slice_end Capture.s_empty_rev 0 = Ok 0
  ∧ scp_next_flux 1 Capture.s_empty_rev 0
    = Ok (80, set_iter_ptr 1 (set_iter_limit 0 Capture.s_empty_rev))
  ∧ scp_next_flux 1 Edge.s_empty_last 1 = Undef.
Proof.
  split; [reflexivity|]. split; [reflexivity|]. split.
  - apply (proj1 (next_flux_empty_revolution Capture.s_empty_rev 0 0 0
                    ltac:(reflexivity) ltac:(reflexivity) ltac:(lia) ltac:(lia)
                    ltac:(cbn; lia)) 80 ltac:(reflexivity) ltac:(lia)).
  - apply (proj2 (next_flux_empty_revolution Edge.s_empty_last 1 1 0
                    ltac:(reflexivity) ltac:(reflexivity) ltac:(lia) ltac:(lia)
                    ltac:(cbn; lia)) [20480] ltac:(reflexivity) ltac:(cbn; lia)).
Defined.

(** ** The PLL on an ideal interval *)

Section Ideal.

Variable fuel : nat.

Lemma pll_next_bit_idle p s :
  idiv (clock p) 2 <= flux p →
  pll_next_bit fuel p s = (let '(bit, p') := pll_clock_bit p in Ok (bit, p', s)).
Proof.
  intros H. unfold pll_next_bit. rewrite pll_accumulate_unfold.
  destruct (Z.ltb_spec (flux p) (idiv (clock p) 2)); [lia|]. reflexivity.
Qed.

Lemma wrap_s_idem x : wrap_s (wrap_s x) = wrap_s x.
Proof. apply wrap_s_small, wrap_s_range. Qed.

(** The last cell of the interval: a one, the clock and the phase as they
    were. *)
Lemma pll_clock_bit_one p :
  clock p = CLOCK_CENTRE → flux p = 2000 →
  pll_clock_bit p
  = (1, {| pll_rev := pll_rev p; clock := CLOCK_CENTRE; flux := 0;
           time := wrap_s (time p + 2000); clocked_zeros := 0 |}).
Proof.
  destruct p as [r c f t z]. cbn [clock flux time pll_rev]. intros -> ->.
  unfold pll_clock_bit. cbn [set_time set_flux clock flux time clocked_zeros pll_rev].
  change (isub 2000 CLOCK_CENTRE) with 0.
  change (idiv CLOCK_CENTRE 2 <=? 0) with false. cbn iota.
  assert (Hadj : ∀ d : Z, d = 0 →
            (let p := set_clock (iadd CLOCK_CENTRE d)
                        (set_flux 0 (set_time (iadd t CLOCK_CENTRE)
                           {| pll_rev := r; clock := CLOCK_CENTRE; flux := 2000;
                              time := t; clocked_zeros := z |})) in
             let p := if clock p <? CLOCK_MIN CLOCK_CENTRE
                      then set_clock (CLOCK_MIN CLOCK_CENTRE) p else p in
             let p := if CLOCK_MAX CLOCK_CENTRE <? clock p
                      then set_clock (CLOCK_MAX CLOCK_CENTRE) p else p in
             let new_flux := idiv (imul (flux p) (isub 100 PHASE_ADJ_PCT)) 100 in
             let p := set_time (iadd (time p) (isub (flux p) new_flux)) p in
             let p := set_flux new_flux p in
             (1, set_clocked_zeros 0 p))
            = (1, {| pll_rev := r; clock := CLOCK_CENTRE; flux := 0;
                     time := wrap_s (t + 2000); clocked_zeros := 0 |})).
  { intros d ->. cbn zeta.
    cbn [set_clock set_time set_flux set_clocked_zeros clock flux time clocked_zeros pll_rev].
    change (iadd CLOCK_CENTRE 0) with 2000.
    change (2000 <? CLOCK_MIN CLOCK_CENTRE) with false. cbn iota.
    cbn [set_clock set_time set_flux set_clocked_zeros clock flux time clocked_zeros pll_rev].
    change (CLOCK_MAX CLOCK_CENTRE <? 2000) with false. cbn iota.
    cbn [set_clock set_time set_flux set_clocked_zeros clock flux time clocked_zeros pll_rev].
    change (idiv (imul 0 (isub 100 PHASE_ADJ_PCT)) 100) with 0.
    change (isub 0 0) with 0. unfold iadd, CLOCK_CENTRE.
    rewrite Z.add_0_r, wrap_s_idem. reflexivity. }
  destruct (z <=? 3).
  - apply (Hadj (idiv (imul 0 PERIOD_ADJ_PCT) 100)). reflexivity.
  - apply (Hadj (idiv (imul (isub CLOCK_CENTRE CLOCK_CENTRE) PERIOD_ADJ_PCT) 100)).
    reflexivity.
Qed.

(** A cell before the last: a zero, one clock period taken off the
    interval. *)
Lemma pll_clock_bit_zero p (j : Z) :
  clock p = CLOCK_CENTRE → flux p = 2000 * (j + 1) → 1 <= j → 2000 * (j + 1) < 2 ^ 31 →
  pll_clock_bit p
  = (0, {| pll_rev := pll_rev p; clock := CLOCK_CENTRE; flux := 2000 * j;
           time := wrap_s (time p + 2000);
           clocked_zeros := iadd (clocked_zeros p) 1 |}).
Proof.
  destruct p as [r c f t z]. cbn [clock flux time pll_rev clocked_zeros].
  intros -> -> Hj Hlt.
  unfold pll_clock_bit. cbn [set_time set_flux clock flux time clocked_zeros pll_rev].
  assert (Hsub : isub (2000 * (j + 1)) CLOCK_CENTRE = 2000 * j).
  { unfold isub, CLOCK_CENTRE. rewrite wrap_s_small by lia. lia. }
  rewrite Hsub. change (idiv CLOCK_CENTRE 2) with 1000.
  destruct (Z.leb_spec 1000 (2000 * j)); [|lia].
  reflexivity.
Qed.

Lemma pll_drain (j : nat) : ∀ (p : pll_t) (s : scp_file_t),
  clock p = CLOCK_CENTRE →
  flux p = 2000 * (Z.of_nat j + 1) →
  2000 * (Z.of_nat j + 1) < 2 ^ 31 →
  pll_bits (S j) fuel p s
  = Ok (replicate j 0 ++ [1],
        {| pll_rev := pll_rev p; clock := CLOCK_CENTRE; flux := 0;
           time := wrap_s (time p + 2000 * (Z.of_nat j + 1)); clocked_zeros := 0 |},
        s).
Proof.
  induction j as [|j IH]; intros p s Hc Hf Hlt.
  - cbn [pll_bits].
    rewrite pll_next_bit_idle by (rewrite Hc, Hf; vm_compute; discriminate).
    rewrite pll_clock_bit_one by assumption.
    cbn [mbind outcome_bind replicate app]. reflexivity.
  - remember (S j) as j1 eqn:Ej. cbn [pll_bits]. subst j1.
    assert (Hidle : idiv (clock p) 2 <= flux p).
    { rewrite Hc, Hf. change (idiv CLOCK_CENTRE 2) with 1000. lia. }
    rewrite pll_next_bit_idle by exact Hidle.
    rewrite (pll_clock_bit_zero p (Z.of_nat (S j))) by (assumption || lia).
    cbn [mbind outcome_bind].
    rewrite IH; cbn [clock flux time pll_rev]; try reflexivity; try lia.
    cbn [mbind outcome_bind replicate app].
    rewrite wrap_s_add_l.
    replace (time p + 2000 + 2000 * (Z.of_nat j + 1))
      with (time p + 2000 * (Z.of_nat (S j) + 1)) by lia.
    reflexivity.
Qed.

End Ideal.

(** X10. An interval of exactly [m + 1] clock periods met in step: with the
    clock at its centre of 2000 ns and no flux pending, when the next flux
    interval is [80 (m + 1)] ticks, that is [2000 (m + 1)] ns, the next
    [m + 1] calls of [pll_next_bit] return [m] zeros and then a one, fetch
    that interval and no other, and leave the clock at its centre with no
    flux pending and the zero count cleared; [time] has advanced by the
    interval. *)
Theorem pll_ideal_interval (fuel : nat) (p : pll_t) (s s' : scp_file_t) (m : nat) :
  clock p = CLOCK_CENTRE →
  flux p = 0 →
  scp_next_flux fuel s (wrap_u (pll_rev p)) = Ok (80 * (Z.of_nat m + 1), s') →
  2000 * (Z.of_nat m + 1) < 2 ^ 31 →
  pll_bits (S m) fuel p s
  = Ok (replicate m 0 ++ [1],
        {| pll_rev := pll_rev p; clock := CLOCK_CENTRE; flux := 0;
           time := wrap_s (time p + 2000 * (Z.of_nat m + 1)); clocked_zeros := 0 |},
        s').
Proof.
  intros Hc Hf Hnf Hlt.
  set (p1 := set_flux (2000 * (Z.of_nat m + 1)) p).
  assert (Hfirst : pll_next_bit fuel p s = pll_next_bit fuel p1 s').
  { unfold pll_next_bit at 1. destruct fuel as [|fuel'].
    { unfold scp_next_flux in Hnf. discriminate. }
    rewrite (pll_accumulate_pass fuel' (S fuel') p s _ _) by
      (first [exact Hnf | rewrite Hf, Hc; reflexivity]).
    rewrite Hf. replace (wrap_s (0 + 25 * (80 * (Z.of_nat m + 1))))
      with (2000 * (Z.of_nat m + 1)) by (rewrite wrap_s_small; lia).
    fold p1. rewrite pll_accumulate_unfold.
    assert (Hidle : idiv (clock p1) 2 <= flux p1).
    { cbn [p1 clock flux set_flux]. rewrite Hc. change (idiv CLOCK_CENTRE 2) with 1000. lia. }
    destruct (Z.ltb_spec (flux p1) (idiv (clock p1) 2)); [lia|].
    cbn [mbind outcome_bind]. rewrite pll_next_bit_idle by exact Hidle. reflexivity. }
  assert (Hbits : pll_bits (S m) fuel p s = pll_bits (S m) fuel p1 s').
  { remember m as m1. cbn [pll_bits]. rewrite Hfirst. reflexivity. }
  rewrite Hbits, (pll_drain fuel m p1 s'); [reflexivity | exact Hc | reflexivity | exact Hlt].
Qed.

Lemma pll_ideal_interval_witness :
  pll_bits 2 1 (pll_init 0) (scp_reset Edge.s_two_cells)
  = Ok ([0; 1],
        {| pll_rev := 0; clock := 2000; flux := 0; time := 4000; clocked_zeros := 0 |},
        set_iter_ptr 1 (set_iter_limit 2 Edge.s_two_cells)).
Proof.
  assert (H : scp_next_flux 1 (scp_reset Edge.s_two_cells) (wrap_u (pll_rev (pll_init 0)))
              = Ok (80 * (Z.of_nat 1 + 1),
                    set_iter_ptr 1 (set_iter_limit 2 Edge.s_two_cells)))
    by reflexivity.
  rewrite (pll_ideal_interval 1 (pll_init 0) _ _ 1 eq_refl eq_refl H ltac:(lia)).
  reflexivity.
Defined.

(** ** The fill pattern *)

Section Fill.

Lemma alternation_two (b : Z) (k : nat) :
  reverse (alternation b (S (S k)))
  = reverse (alternation (lnot (lnot b)) k) ++ [HalfBit (lnot (lnot b)); HalfBit (lnot b)].
Proof.
  cbn [alternation]. rewrite !reverse_cons, <- !app_assoc. reflexivity.
Qed.

End Fill.

(** X11. The fill of a decoded track continues the stream by alternation:
    with [n] half-bits counted so far, the loop returns after writing
    exactly [102400 - n] half-bits (none when [n] is 102400 or more), each
    the complement of the half-bit written before it, the first one the
    complement of the last half-bit of the decode; it writes nothing else. *)
Theorem fill_alternates (iters : nat) (w : mfm_writer_t) (n : Z) :
  in_int n →
  (Z.to_nat (102400 - n) <= iters)%nat →
  ∃ w', fill_loop iters w n = Ok w'
        ∧ emitted w' = reverse (alternation (last w) (Z.to_nat (102400 - n))) ++ emitted w.
Proof.
  revert w n.
  induction iters as [|iters IH]; intros w n Hn Hi; rewrite fill_loop_unfold,
    track_cells_val; destruct (Z.ltb_spec n 102400) as [Hlt | Hge].
  - lia.
  - exists w. split; [reflexivity|].
    replace (Z.to_nat (102400 - n)) with 0%nat by lia. reflexivity.
  - cbn zeta. unfold in_int in Hn.
    unfold iadd. rewrite !(wrap_s_small (n + 1)) by lia.
    rewrite (wrap_s_small (n + 1 + 1)) by lia.
    set (w1 := mfm_write_halfbit w (lnot (last w))).
    destruct (Z.ltb_spec (n + 1) 102400) as [Hlt2 | Hge2].
    + destruct (IH (mfm_write_halfbit w1 (lnot (last w1))) (n + 1 + 1))
        as (w' & Hf & He); [unfold in_int; lia | lia |].
      exists w'. split; [exact Hf|]. rewrite He.
      replace (Z.to_nat (102400 - n)) with (S (S (Z.to_nat (102400 - (n + 1 + 1))))) by lia.
      rewrite alternation_two, <- app_assoc. reflexivity.
    + destruct (IH w1 (n + 1 + 1)) as (w' & Hf & He); [unfold in_int; lia | lia |].
      exists w'. split; [exact Hf|]. rewrite He.
      replace (Z.to_nat (102400 - (n + 1 + 1))) with 0%nat by lia.
      replace (Z.to_nat (102400 - n)) with 1%nat by lia. reflexivity.
  - exists w. split; [reflexivity|].
    replace (Z.to_nat (102400 - n)) with 0%nat by lia. reflexivity.
Qed.

Lemma fill_alternates_witness :
  ∃ w', fill_loop 3 {| emitted := [HalfBit 1]; last := 1 |} 102397 = Ok w'
        ∧ emitted w' = [HalfBit 0; HalfBit 1; HalfBit 0; HalfBit 1].
Proof.
  destruct (fill_alternates 3 {| emitted := [HalfBit 1]; last := 1 |} 102397
              ltac:(unfold in_int; lia) ltac:(cbn; lia)) as (w' & Hf & He).
  exists w'. split; [exact Hf|]. rewrite He. reflexivity.
Defined.

(** ** The whole run *)

Section Run.

Implicit Types (s : scp_file_t) (w : mfm_writer_t).

Lemma decode_track_negative fuel s (rv : Z) w :
  - 2 ^ 31 <= rv < 0 → (1 <= fuel)%nat → decode_track fuel s rv w = Undef.
Proof.
  intros Hrv Hf. destruct fuel as [|fuel]; [lia|].
  assert (Hw : wrap_u rv = rv + 2 ^ 32).
  { unfold wrap_u. rewrite <- (Z.mod_add rv 1 (2 ^ 32)) by lia.
    rewrite Z.mod_small; lia. }
  assert (Hnf : scp_next_flux (S fuel) (scp_reset s) (wrap_u rv) = Undef).
  { unfold scp_next_flux. cbn [next_flux_loop]. unfold flux_iter, flux_restart.
    cbn [scp_reset iter_limit iter_ptr set_iter_limit set_iter_ptr].
    change (0 <=? 0) with true. cbn iota. unfold load_index.
    destruct (Z.leb_spec 0 (wrap_u rv)); [|reflexivity].
    destruct (Z.ltb_spec (wrap_u rv) REV_MAX); [unfold REV_MAX in *; lia | reflexivity]. }
  unfold decode_track, decode_natural, pll_next_bit.
  rewrite pll_accumulate_unfold. cbn [pll_init flux clock pll_rev].
  change (0 <? idiv CLOCK_CENTRE 2) with true. cbn iota.
  rewrite Hnf. reflexivity.
Qed.

End Run.

(** X12. A negative revolution number is not refused. The range check of
    [scp_write_mfm] compares it, as a signed value, with the revolution
    count and lets it pass; the decode of a track then asks the flux
    iterator for revolution [(unsigned) rev], and the first thing that does
    is read [index_ptr] far outside its five entries. So the decode of any
    track is undefined, and so is the whole run when track 0 is inside the
    track range of the capture and can be selected. *)
Theorem negative_revolution (fuel : nat) (h : gmap loc (list Z))
    (g : gmap loc (list Z) → Z → bool) (f : option file)
    (s s1 : scp_file_t) (w : mfm_writer_t) (rv : Z) :
  - 2 ^ 31 <= rv < 0 →
  (1 <= fuel)%nat →
  scp_open fuel h g f = Ok (0, s) →
  0 <= nr_revolutions (header s) →
  start_track (header s) <= 0 < end_track (header s) →
  scp_select_track fuel s 0 = Ok (0, s1) →
  (∀ s2 w2, decode_track fuel s2 rv w2 = Undef)
  ∧ scp_write_mfm fuel h g f w rv = Undef.
Proof.
  intros Hrv Hf Hopen Hn Hin Hsel.
  split; [intros s2 w2; apply decode_track_negative; assumption|].
  unfold scp_write_mfm. rewrite Hopen. cbn [mbind outcome_bind].
  destruct (Z.leb_spec (nr_revolutions (header s)) rv); [lia|].
  change (Z.of_nat <$> seq 0 160) with (0 :: (Z.of_nat <$> seq 1 159)).
  cbn [write_tracks]. unfold write_track.
  destruct (Z.ltb_spec 0 (start_track (header s))); [lia|].
  destruct (Z.leb_spec (end_track (header s)) 0); [lia|].
  cbn [orb]. change (wrap_u 0) with 0. rewrite Hsel. cbn [mbind outcome_bind].
  change (0 <? 0) with false. cbn iota.
  rewrite decode_track_negative by assumption. reflexivity.
Qed.

Lemma negative_revolution_witness :
  scp_write_mfm 2 ∅ Capture.roomy
    (Some (Capture.file_of (Capture.image [[80; 120; 81]]))) Capture.w0 (-1) = Undef.
Proof.
  apply (proj2 (negative_revolution 2 ∅ Capture.roomy
                  (Some (Capture.file_of (Capture.image [[80; 120; 81]])))
                  (Capture.opened (Capture.image [[80; 120; 81]])) Capture.s_three
                  Capture.w0 (-1)
                  ltac:(lia) ltac:(lia)
                  ltac:(vm_compute; reflexivity)
                  ltac:(vm_compute; discriminate)
                  ltac:(vm_compute; split; [discriminate | reflexivity])
                  ltac:(vm_compute; reflexivity))).
Defined.

Section Account.

Implicit Types (s : scp_file_t) (w : mfm_writer_t).

Lemma decode_track_account fuel s rv w w' s' :
  decode_track fuel s rv w = Ok (w', s') →
  bytes w' = bytes w ∧ halfbits w + 102400 <= halfbits w'.
Proof.
  intros H.
  destruct (decode_track_count fuel s rv w w' s' H)
    as (k & p1 & s1 & w1 & _ & Hk & Hh & Hh2 & Hb).
  split; [exact Hb|].
  destruct (Z_lt_ge_dec k 102400) as [Hlt | Hge].
  - rewrite wrap_s_small in Hh2 by lia. lia.
  - lia.
Qed.

(** One track of the run: a filler, or a decode of a track in range. *)
Lemma write_track_account fuel s rv w tn w' s' :
  write_track fuel s rv w tn = Ok (w', s') →
  others s' = others s ∧ header s' = header s
  ∧ ((bytes w' = bytes w + 6400 ∧ halfbits w' = halfbits w)
     ∨ (in_range (header s) tn = true
        ∧ bytes w' = bytes w ∧ halfbits w + 102400 <= halfbits w')).
Proof.
  unfold write_track.
  destruct ((tn <? start_track (header s)) || (end_track (header s) <=? tn)) eqn:Hout.
  { intros [= <- <-]. split; [reflexivity|]. split; [reflexivity|]. left.
    destruct (empty_track_cells (mfm_write_reset w)) as [H1 H2].
    rewrite H1, H2, halfbits_reset, bytes_reset. split; reflexivity. }
  destruct (scp_select_track fuel s (wrap_u tn)) as [[r s1]| | |] eqn:Hsel;
    cbn [mbind outcome_bind]; try discriminate.
  apply select_track_others in Hsel as [Ho Hh].
  destruct (r <? 0).
  { intros [= <- <-]. split; [exact Ho|]. split; [exact Hh|]. left.
    destruct (empty_track_cells (mfm_write_reset w)) as [H1 H2].
    rewrite H1, H2, halfbits_reset, bytes_reset. split; reflexivity. }
  intros H. pose proof (decode_track_frame _ _ _ _ _ _ H) as Hfr.
  apply cursor_moved_fields in Hfr as (Hfh & Hfd & Hfhd).
  apply decode_track_account in H as [Hb Hhb].
  rewrite halfbits_reset in Hhb. rewrite bytes_reset in Hb.
  split; [unfold others in *; rewrite Hfh, Hfd; exact Ho|].
  split; [congruence|]. right.
  split; [|split; assumption].
  apply orb_false_iff in Hout as [H1 H2]. unfold in_range.
  apply Z.ltb_ge in H1. apply Z.leb_gt in H2.
  apply andb_true_iff. split; [apply Z.leb_le | apply Z.ltb_lt]; lia.
Qed.

Lemma write_tracks_account fuel rv (tns : list Z) : ∀ s w w' s',
  write_tracks fuel s rv w tns = Ok (w', s') →
  others s' = others s ∧ header s' = header s
  ∧ ∃ nd : Z, 0 <= nd <= tracks_in_range (header s) tns
              ∧ bytes w' = bytes w + 6400 * (Z.of_nat (length tns) - nd)
              ∧ halfbits w + 102400 * nd <= halfbits w'
              ∧ (nd = 0 → halfbits w' = halfbits w).
Proof.
  induction tns as [|tn tns IH]; intros s w w' s'; cbn [write_tracks].
  - intros [= <- <-]. split; [reflexivity|]. split; [reflexivity|].
    exists 0. unfold tracks_in_range. cbn. repeat split; lia.
  - destruct (write_track fuel s rv w tn) as [[w1 s1]| | |] eqn:Hw;
      cbn [mbind outcome_bind]; try discriminate.
    apply write_track_account in Hw as (Ho1 & Hh1 & Hcase).
    intros H. apply IH in H as (Ho & Hh & nd & Hnd & Hb & Hhb & Hz).
    split; [congruence|]. split; [congruence|].
    rewrite Hh1 in Hnd.
    assert (Hcons : tracks_in_range (header s) (tn :: tns)
                    = (if in_range (header s) tn then 1 else 0)
                      + tracks_in_range (header s) tns).
    { unfold tracks_in_range. cbn [List.filter].
      destruct (in_range (header s) tn); [|lia].
      rewrite length_cons, Nat2Z.inj_succ. lia. }
    rewrite Hcons, length_cons, Nat2Z.inj_succ.
    destruct Hcase as [[Hb1 Hhb1] | (Hin & Hb1 & Hhb1)].
    + exists nd. split; [destruct (in_range (header s) tn); lia|].
      split; [lia|]. split; [lia|]. intros H0. rewrite Hz by exact H0. exact Hhb1.
    + exists (nd + 1). rewrite Hin. split; [lia|]. split; [lia|]. split; [lia|].
      intros H0. lia.
Qed.

(** The sinks between the tracks of a run: [ws] holds the sink after each
    track, and each pass of the loop has written a filler or the cells of a
    track in range. *)
Lemma write_tracks_steps fuel rv (tns : list Z) : ∀ s w w' s',
  write_tracks fuel s rv w tns = Ok (w', s') →
  ∃ ws : list mfm_writer_t,
    length ws = length tns
    ∧ (w :: ws) !! length tns = Some w'
    ∧ ∀ (k : nat) (tn : Z) (a b : mfm_writer_t),
        tns !! k = Some tn → (w :: ws) !! k = Some a → ws !! k = Some b →
        wrote_filler a b ∨ (in_range (header s) tn = true ∧ wrote_cells a b).
Proof.
  induction tns as [|tn tns IH]; intros s w w' s'; cbn [write_tracks].
  - intros [= <- <-]. exists []. split; [reflexivity|]. split; [reflexivity|].
    intros k tn a b Hk. discriminate.
  - destruct (write_track fuel s rv w tn) as [[w1 s1]| | |] eqn:Hw;
      cbn [mbind outcome_bind]; try discriminate.
    apply write_track_account in Hw as (_ & Hh1 & Hcase).
    intros H. apply IH in H as (ws & Hlen & Hlast & Hsteps).
    exists (w1 :: ws). split; [cbn [length]; rewrite Hlen; reflexivity|].
    split; [exact Hlast|].
    intros [|k] tn' a b Htn Ha Hb.
    + injection Htn as <-. injection Ha as <-. injection Hb as <-. exact Hcase.
    + rewrite <- Hh1. exact (Hsteps k tn' a b Htn Ha Hb).
Qed.

Lemma fillers_halfbits (tns : list Z) : ∀ w,
  halfbits (foldl (λ w _, empty_track (mfm_write_reset w)) w tns) = halfbits w.
Proof.
  induction tns as [|tn tns IH]; intros w; cbn [foldl]; [reflexivity|].
  rewrite IH. destruct (empty_track_cells (mfm_write_reset w)) as [H _].
  rewrite H. apply halfbits_reset.
Qed.

End Account.

(** X13. What a run of [scp_write_mfm] that returns has done. Each of the
    160 tracks, in order, has put into the sink either 6400 filler bytes and
    no half-bit, or no byte and at least 102400 half-bits, the latter only
    for a track inside the track range of the header: [ws] holds the sink
    after each track, the last one being the sink at the return. In total,
    with [nd] the number of decoded tracks, the sink holds [6400 (160 - nd)]
    bytes and at least [102400 nd] half-bits more than before. The session
    is closed: it has no buffer, and the heap is the heap at the call. *)
Theorem scp_write_mfm_account (fuel : nat) (h : gmap loc (list Z))
    (g : gmap loc (list Z) → Z → bool) (f : option file)
    (w w' : mfm_writer_t) (rv : Z) (s' : scp_file_t) :
  scp_write_mfm fuel h g f w rv = Ok (w', s') →
  dat s' = None
  ∧ heap s' = h
  ∧ (∃ ws : list mfm_writer_t,
       length ws = 160%nat
       ∧ (w :: ws) !! 160%nat = Some w'
       ∧ ∀ (tn : nat) (a b : mfm_writer_t),
           (w :: ws) !! tn = Some a → ws !! tn = Some b →
           wrote_filler a b
           ∨ (in_range (header s') (Z.of_nat tn) = true ∧ wrote_cells a b))
  ∧ ∃ nd : Z, 0 <= nd <= tracks_in_range (header s') all_tracks
              ∧ nd <= 160
              ∧ bytes w' = bytes w + 6400 * (160 - nd)
              ∧ halfbits w + 102400 * nd <= halfbits w'
              ∧ (nd = 0 → halfbits w' = halfbits w).
Proof.
  unfold scp_write_mfm.
  destruct (scp_open fuel h g f) as [[r s]| | |] eqn:Hopen; cbn [mbind outcome_bind];
    try discriminate.
  assert (Hs : dat s = None ∧ heap s = h).
  { unfold scp_open in Hopen. destruct f as [f|]; [|discriminate].
    destruct (read_exact fuel f sizeof_header) as [[f1 b]| | |];
      cbn [mbind outcome_bind] in Hopen; try discriminate.
    destruct (negb (list_eqb (sig (parse_header b)) SCP)); [discriminate|].
    destruct ((nr_revolutions (parse_header b) =? 0)
              || (REV_MAX <? nr_revolutions (parse_header b))); [discriminate|].
    destruct (negb (cell_width (parse_header b) =? 0)
              && negb (cell_width (parse_header b) =? 16)); [discriminate|].
    injection Hopen as _ <-. split; reflexivity. }
  destruct Hs as [Hd Hh].
  destruct (nr_revolutions (header s) <=? rv); [discriminate|].
  destruct (write_tracks fuel s rv w (Z.of_nat <$> seq 0 160)) as [[w1 s1]| | |] eqn:Hw;
    cbn [mbind outcome_bind]; try discriminate.
  intros [= <- <-].
  pose proof (write_tracks_steps _ _ _ _ _ _ _ Hw) as (ws & Hlen & Hlast & Hsteps).
  apply write_tracks_account in Hw as (Ho & Hhd & nd & Hnd & Hb & Hhb & Hz).
  assert (Hc : heap (scp_close s1) = others s1 ∧ dat (scp_close s1) = None
               ∧ header (scp_close s1) = header s1).
  { unfold scp_close, others. destruct (dat s1) eqn:E; repeat split; exact E. }
  destruct Hc as (Hch & Hcd & Hchd).
  assert (Hlen' : length (Z.of_nat <$> seq 0 160) = 160%nat).
  { rewrite length_fmap, length_seq. reflexivity. }
  split; [exact Hcd|]. split.
  { rewrite Hch, Ho. unfold others. rewrite Hd. exact Hh. }
  split.
  { exists ws. rewrite Hlen' in Hlen, Hlast. split; [exact Hlen|]. split; [exact Hlast|].
    intros tn a b Ha Hb'. rewrite Hchd, Hhd.
    apply (Hsteps tn (Z.of_nat tn) a b); [|exact Ha | exact Hb'].
    assert (Htn : (tn < 160)%nat).
    { rewrite <- Hlen. apply lookup_lt_is_Some. exists b. exact Hb'. }
    rewrite list_lookup_fmap, lookup_seq_lt by exact Htn. reflexivity. }
  exists nd. rewrite Hchd, Hhd. fold all_tracks in Hnd.
  assert (Hlen2 : Z.of_nat (length (Z.of_nat <$> seq 0 160)) = 160).
  { rewrite Hlen'. reflexivity. }
  rewrite Hlen2 in Hb.
  assert (Hmax : tracks_in_range (header s) all_tracks <= 160).
  { unfold tracks_in_range.
    pose proof (List.filter_length_le (in_range (header s)) all_tracks) as Hle.
    assert (length all_tracks = 160%nat)
      by (unfold all_tracks; rewrite length_fmap, length_seq; reflexivity).
    lia. }
  split; [exact Hnd|]. split; [lia|]. split; [exact Hb|]. split; [exact Hhb | exact Hz].
Qed.

Lemma write_tracks_filler fuel (s : scp_file_t) rv (tns : list Z) : ∀ w : mfm_writer_t,
  Forall (λ tn, in_range (header s) tn = false) tns →
  write_tracks fuel s rv w tns
  = Ok (foldl (λ w _, empty_track (mfm_write_reset w)) w tns, s).
Proof.
  induction tns as [|tn tns IH]; intros w Hall; cbn [write_tracks foldl]; [reflexivity|].
  inversion Hall as [|? ? Hout Hrest]; subst.
  unfold write_track.
  assert (Hor : (tn <? start_track (header s)) || (end_track (header s) <=? tn) = true).
  { unfold in_range in Hout. apply andb_false_iff in Hout as [H | H].
    - apply Z.leb_gt in H. apply orb_true_iff. left. apply Z.ltb_lt. lia.
    - apply Z.ltb_ge in H. apply orb_true_iff. right. apply Z.leb_le. lia. }
  rewrite Hor. cbn [mbind outcome_bind]. apply IH. exact Hrest.
Qed.

(** A run in which track 0 is the one track in range: it is decoded, and
    tracks 1 to 159 are fillers. *)
Lemma write_mfm_track0 (fuel : nat) (h : gmap loc (list Z))
    (g : gmap loc (list Z) → Z → bool) (f : option file) (w w2 : mfm_writer_t) (rv : Z)
    (s s0 s1 : scp_file_t) :
  scp_open fuel h g f = Ok (0, s) →
  (nr_revolutions (header s) <=? rv) = false →
  start_track (header s) = 0 →
  end_track (header s) = 1 →
  scp_select_track fuel s 0 = Ok (0, s0) →
  decode_track fuel s0 rv (mfm_write_reset w) = Ok (w2, s1) →
  scp_write_mfm fuel h g f w rv
  = Ok (foldl (λ w _, empty_track (mfm_write_reset w)) w2 (Z.of_nat <$> seq 1 159),
        scp_close s1).
Proof.
  intros Hopen Hrv Hst Hen Hsel E.
  pose proof (decode_track_frame _ _ _ _ _ _ E) as Hfr.
  apply cursor_moved_fields in Hfr as (_ & _ & Hhd1).
  pose proof (select_track_others _ _ _ _ _ Hsel) as [_ Hhd0].
  unfold scp_write_mfm. rewrite Hopen. cbn [mbind outcome_bind]. rewrite Hrv.
  change (Z.of_nat <$> seq 0 160) with (0 :: (Z.of_nat <$> seq 1 159)).
  cbn [write_tracks]. unfold write_track at 1. rewrite Hst, Hen.
  change ((0 <? 0) || (1 <=? 0)) with false. cbv iota.
  change (wrap_u 0) with 0. rewrite Hsel. cbn [mbind outcome_bind].
  change (0 <? 0) with false. cbv iota. rewrite E. cbn [mbind outcome_bind].
  rewrite write_tracks_filler; [reflexivity|].
  apply Forall_forall. intros tn Hin.
  apply list_elem_of_fmap in Hin as (k & -> & Hk). apply elem_of_seq in Hk.
  unfold in_range. rewrite Hhd1, Hhd0, Hst, Hen.
  destruct (Z.leb_spec 0 (Z.of_nat k)); destruct (Z.ltb_spec (Z.of_nat k) 1);
    try reflexivity; lia.
Qed.

Lemma scp_write_mfm_account_witness :
  ∃ w' s',
    scp_write_mfm 10 ∅ Capture.roomy
      (Some (Capture.file_of (Capture.image [[80; 120; 81]]))) Capture.w0 0
    = Ok (w', s')
    ∧ bytes w' = 1017600 ∧ halfbits w' = 102400 ∧ dat s' = None ∧ heap s' = ∅
    ∧ scp_select_track 10 Capture.o_three 0 = Ok (0, Capture.s_three)
    ∧ dat_cells Capture.s_three = Some [20480; 30720; 20736].
Proof.
  destruct (decode_natural 10 Capture.s_three 0 (mfm_write_reset Capture.w0))
    as [[[[n p1] s1] w1]| | |] eqn:Hnat; try (vm_compute in Hnat; discriminate Hnat).
  assert (Hn : n = 3 ∧ halfbits w1 = 3 ∧ header s1 = header Capture.s_three).
  { pose proof Hnat as Hc. vm_compute in Hc. injection Hc as <- _ <- <-.
    vm_compute. repeat split. }
  destruct Hn as (-> & Hh1 & Hhd1).
  destruct (fill_loop_cells (Z.to_nat (102400 - 3)) w1 3) as (w2 & Hf & Hh2 & _);
    [unfold in_int; lia | apply le_n |].
  pose proof (decode_track_eq _ _ _ _ _ _ _ _ _ Hnat Hf) as E.
  set (W := foldl (λ w _, empty_track (mfm_write_reset w)) w2 (Z.of_nat <$> seq 1 159)).
  assert (HW : halfbits W = 102400).
  { unfold W. rewrite fillers_halfbits, Hh2, Hh1. reflexivity. }
  assert (Hrun : scp_write_mfm 10 ∅ Capture.roomy
                   (Some (Capture.file_of (Capture.image [[80; 120; 81]]))) Capture.w0 0
                 = Ok (W, scp_close s1)).
  { apply (write_mfm_track0 10 ∅ Capture.roomy _ Capture.w0 w2 0
             Capture.o_three Capture.s_three s1).
    - vm_compute. reflexivity.
    - reflexivity.
    - reflexivity.
    - reflexivity.
    - vm_compute. reflexivity.
    - exact E. }
  destruct (scp_write_mfm_account 10 ∅ _ _ _ _ _ _ Hrun)
    as (Hd & Hh & _ & nd & Hnd & _ & Hb & _ & Hz).
  assert (H1 : tracks_in_range (header (scp_close s1)) all_tracks = 1).
  { replace (header (scp_close s1)) with (header Capture.s_three);
      [vm_compute; reflexivity|].
    rewrite <- Hhd1. unfold scp_close. destruct (dat s1); reflexivity. }
  rewrite H1 in Hnd.
  assert (Hnd1 : nd = 1).
  { destruct (Z.eq_dec nd 0) as [H0 | H0]; [|lia].
    apply Hz in H0. rewrite HW in H0. vm_compute in H0. discriminate H0. }
  exists W, (scp_close s1).
  split; [exact Hrun|]. split.
  { rewrite Hb, Hnd1. reflexivity. }
  split; [exact HW|]. split; [exact Hd|]. split; [exact Hh|].
  split; [vm_compute; reflexivity | reflexivity].
Defined.

(** ** A total that wraps *)

Section Overrun.

Variables (fuel : nat) (c : list Z) (E : nat → rev_entry) (p : loc).

Lemma read_rev_overrun (s : scp_file_t) (r : nat) (e : rev_entry) (cells : list Z) :
  rev (track s) !! r = Some e →
  readable (fd s) →
  0 <= offset e →
  dat s = Some p →
  heap s !! p = Some cells →
  0 <= datsz s →
  Z.of_nat (length cells) < datsz s + nr_samples e →
  0 < nr_samples e →
  (length (errs (fd s)) + 2 <= fuel)%nat →
  read_rev fuel s r = Undef.
Proof.
  intros He [Hsk Ht] Hoff Hd Hh Hsz Hover Hn Hf.
  set (f1 := {| content := content (fd s); pos := offset e; seekable := true;
                errs := errs (fd s) |}).
  unfold read_rev. rewrite He. unfold sys_lseek. rewrite Hsk.
  rewrite Z.eqb_refl. cbn [negb].
  change (fd (set_fd _ s)) with f1.
  assert (Hread : read_exact fuel f1 (nr_samples e * 2)
                  = Ok (advanced f1 (Z.min (nr_samples e * 2)
                                       (Z.of_nat (length (remaining f1)))),
                        file_bytes f1 (nr_samples e * 2))).
  { apply read_exact_padded_gen; cbn [f1 errs pos]; try assumption; lia. }
  rewrite Hread. cbn [mbind outcome_bind].
  destruct (Z.eqb_spec (nr_samples e) 0) as [H0 | H0]; [lia|].
  change (file_bytes f1 (nr_samples e * 2))
    with (content_bytes (content (fd s)) (offset e) (nr_samples e * 2)).
  fold (entry_cells (content (fd s)) e).
  unfold store_dat. cbn [set_fd dat heap datsz]. rewrite Hd, Hh.
  rewrite entry_cells_length by lia.
  destruct (Z.leb_spec (datsz s + Z.of_nat (Z.to_nat (nr_samples e)))
              (Z.of_nat (length cells))); [lia|].
  reflexivity.
Qed.

Lemma read_revs_overrun (k : nat) : ∀ (a : nat) (s : scp_file_t) (cells : list Z),
  (∀ i : nat, (a <= i < a + k)%nat → rev (track s) !! i = Some (E i)) →
  (∀ i : nat, (a <= i < a + k)%nat → 0 <= offset (E i) ∧ 0 <= nr_samples (E i)) →
  readable (fd s) →
  content (fd s) = c →
  dat s = Some p →
  heap s !! p = Some cells →
  0 <= datsz s <= Z.of_nat (length cells) →
  Z.of_nat (length cells) < 2 ^ 32 →
  Z.of_nat (length cells) < datsz s + samples_in E a k →
  (length (errs (fd s)) + 2 <= fuel)%nat →
  read_revs fuel s (seq a k) = Undef.
Proof.
  induction k as [|k IH]; intros a s cells HE Hpos Hr Hc Hd Hh Hsz Hlen Hover Hf.
  - change (samples_in E a 0) with 0 in Hover. lia.
  - rewrite samples_in_S in Hover. cbn [seq read_revs].
    destruct (Hpos a ltac:(lia)) as [Hoa Hna].
    assert (Ha : rev (track s) !! a = Some (E a)) by (apply HE; lia).
    destruct (Z_le_gt_dec (datsz s + nr_samples (E a)) (Z.of_nat (length cells)))
      as [Hfit | Hnofit].
    + destruct (read_rev_full fuel s a (E a) p cells) as
        (s1 & R1 & Hheap1 & Hsz1 & Hix1 & Htr1 & Hd1 & Hhd1 & Hip1 & Hil1 & Hc1 & Hr1 & He1);
        try assumption; try lia.
      rewrite R1. cbn [mbind outcome_bind].
      assert (Hlen1 : length (entry_cells (content (fd s)) (E a))
                      = Z.to_nat (nr_samples (E a)))
        by (apply entry_cells_length; exact Hna).
      eapply (IH (S a) s1).
      * intros i Hi. rewrite Htr1. apply HE. lia.
      * intros i Hi. apply Hpos. lia.
      * exact Hr1.
      * congruence.
      * congruence.
      * rewrite Hheap1. apply lookup_insert_eq.
      * rewrite splice_length by (lia || exact Hlen1). lia.
      * rewrite splice_length by (lia || exact Hlen1). exact Hlen.
      * rewrite splice_length by (lia || exact Hlen1). lia.
      * lia.
    + rewrite (read_rev_overrun s a (E a) cells); try assumption; try lia.
      reflexivity.
Qed.

End Overrun.

(** X14. A total that wraps makes the load overrun its buffer. When the
    sample counts of the revolutions of the record add up to [2^32] or more,
    the total kept in [datsz] has wrapped and the buffer is requested for
    the wrapped total. When the request is granted, the second loop stores
    a revolution past the end of the buffer, and the load has no defined
    result; when it is refused, the program ends. *)
Theorem select_track_overrun (fuel : nat) (s : scp_file_t) (tn off : Z) :
  let c := content (fd s) in
  let nrev := nr_revolutions (header s) in
  let E := entry c off nrev in
  loadable fuel s tn off →
  2 ^ 32 <= samples_in E 0 (Z.to_nat nrev) →
  scp_select_track fuel s tn
  = if grants s (free (heap s) (dat s)) (wrap_u (samples_in E 0 (Z.to_nat nrev)))
    then Undef else Exit.
Proof.
  intros c nrev E (H1 & H2 & H3 & H4 & H5 & H6 & H7 & H8 & H9 & H10 & H11 & H12) Hbig.
  destruct (select_track_prefix fuel s tn off H1 H2 H3 H4 H5 H6 H7 H8 H9 H10 H11 H12)
    as [[HG Hx] | [HG (s4 & p & Hsel & A & Hpos & Hrd4 & Hc4 & Hd4 & Hfresh & Hh4 & Hz4
                      & Hli4 & Hnr4 & Hhd4 & Hgr4 & Hf4)]];
    fold c nrev E in HG; rewrite HG; [exact Hx|].
  fold c nrev E in Hsel, A, Hpos, Hc4, Hh4.
  set (cells := replicate (Z.to_nat (wrap_u (samples_in E 0 (Z.to_nat nrev)))) 0) in *.
  pose proof (wrap_u_range (samples_in E 0 (Z.to_nat nrev))) as Hw.
  assert (Hlen : Z.of_nat (length cells) = wrap_u (samples_in E 0 (Z.to_nat nrev))).
  { unfold cells. rewrite length_replicate. lia. }
  rewrite Hsel.
  rewrite (read_revs_overrun fuel c E p (Z.to_nat nrev) 0 s4 cells); [reflexivity|..].
  - intros i Hi. apply A. lia.
  - intros i _. apply Hpos.
  - exact Hrd4.
  - exact Hc4.
  - exact Hd4.
  - rewrite Hh4. apply lookup_insert_eq.
  - rewrite Hz4. lia.
  - lia.
  - rewrite Hz4. lia.
  - exact Hf4.
Qed.

Lemma select_track_overrun_witness :
  scp_select_track 2 Edge.o_wrap 0 = Undef.
Proof.
  rewrite (select_track_overrun 2 Edge.o_wrap 0 688).
  - reflexivity.
  - loadable_eval.
  - vm_compute. discriminate.
Defined.

(** ** A revolution read round and round *)

Section Replay.

Variables (rv lo hi : Z) (s0 : scp_file_t) (smp : Z → Z) (fuel : nat).

Hypothesis Hstart : slice_start s0 rv = Ok lo.
Hypothesis Hend : slice_end s0 rv = Ok hi.
Hypothesis Hlo : 0 <= lo.
Hypothesis Hne : lo < hi.
Hypothesis Hhi : hi < 2 ^ 32.
Hypothesis Hsmp : ∀ i, lo <= i < hi → sample s0 i = Some (smp i) ∧ smp i ≠ 0.
Hypothesis Hfuel : (1 <= fuel)%nat.

Lemma replay_call (s : scp_file_t) (q : Z) :
  index_ptr s = index_ptr s0 →
  dat_cells s = dat_cells s0 →
  lo <= q < hi →
  reads_next s lo hi q →
  ∃ s', scp_next_flux fuel s rv = Ok (smp q, s')
        ∧ index_ptr s' = index_ptr s0
        ∧ dat_cells s' = dat_cells s0
        ∧ reads_next s' lo hi (if q + 1 <? hi then q + 1 else lo).
Proof using All.
  intros Hix Hd Hq Hnext.
  assert (Hr : ∃ s1, flux_restart s rv 0 = Ok (s1, 0)
                     ∧ iter_ptr s1 = q ∧ iter_limit s1 = hi
                     ∧ index_ptr s1 = index_ptr s0 ∧ dat_cells s1 = dat_cells s0).
  { unfold flux_restart. destruct Hnext as [[Hge ->] | [Hl Hp]].
    - destruct (Z.leb_spec (iter_limit s) (iter_ptr s)); [|lia].
      unfold slice_end, slice_start, load_index in *. cbn [index_ptr set_iter_limit].
      rewrite Hix, Hend. cbn [mbind outcome_bind].
      revert Hstart. destruct (rv =? 0); intros Hst.
      + injection Hst as <-. eexists. split; [reflexivity|]. repeat split; assumption.
      + rewrite Hst. eexists. split; [reflexivity|]. repeat split; assumption.
    - destruct (Z.leb_spec (iter_limit s) (iter_ptr s)); [lia|].
      exists s. repeat split; assumption. }
  destruct Hr as (s1 & Hr & Hp1 & Hl1 & Hix1 & Hd1).
  destruct (Hsmp q Hq) as [Hv Hv0].
  assert (Hs1 : sample s1 (iter_ptr s1 + Z.of_nat 0) = Some (smp q)).
  { rewrite Z.add_0_r, Hp1. rewrite (sample_same_cells s0 s1) by exact Hd1. exact Hv. }
  pose proof (sample_range s0 q (smp q) Hv) as Hrange.
  exists (set_iter_ptr (q + 1) s1). split.
  - unfold scp_next_flux.
    rewrite (next_flux_loop_run 0 s s1 rv 0 0 (smp q) fuel Hr
               ltac:(lia) ltac:(lia) ltac:(lia) ltac:(intros j Hj; lia) Hs1 Hv0
               ltac:(lia)).
    rewrite Hp1, wrap_u_small by lia.
    replace (q + Z.of_nat 0 + 1) with (q + 1) by lia.
    replace (0 + Z.of_nat 0 * 65536 + smp q) with (smp q) by lia. reflexivity.
  - split; [exact Hix1|]. split; [exact Hd1|].
    unfold reads_next. cbn [iter_ptr iter_limit set_iter_ptr]. rewrite Hl1.
    destruct (Z.ltb_spec (q + 1) hi); [right | left]; split; lia.
Qed.

Lemma replay_calls (n : nat) : ∀ (s : scp_file_t) (q : Z),
  index_ptr s = index_ptr s0 →
  dat_cells s = dat_cells s0 →
  lo <= q < hi →
  reads_next s lo hi q →
  ∃ s', next_fluxes n fuel s rv
        = Ok ((λ i : nat, smp (lo + (q - lo + Z.of_nat i) mod (hi - lo))) <$> seq 0 n, s').
Proof using All.
  induction n as [|n IH]; intros s q Hix Hd Hq Hnext.
  - exists s. reflexivity.
  - destruct (replay_call s q Hix Hd Hq Hnext) as (s1 & Hcall & Hix1 & Hd1 & Hnext1).
    set (q1 := if q + 1 <? hi then q + 1 else lo) in *.
    assert (Hq1 : lo <= q1 < hi) by (unfold q1; destruct (Z.ltb_spec (q + 1) hi); lia).
    destruct (IH s1 q1 Hix1 Hd1 Hq1 Hnext1) as (s' & Hrest).
    exists s'. cbn [next_fluxes]. rewrite Hcall. cbn [mbind outcome_bind].
    rewrite Hrest. cbn [mbind outcome_bind]. do 2 f_equal.
    cbn [seq fmap list_fmap]. f_equal.
    + rewrite Z.add_0_r, Z.mod_small by lia. f_equal. lia.
    + rewrite <- fmap_S_seq, <- list_fmap_compose. apply list_fmap_ext.
      intros k i _. cbn. do 2 f_equal. unfold q1.
      destruct (Z.ltb_spec (q + 1) hi).
      * f_equal. lia.
      * replace (q - lo + Z.of_nat (S i)) with (Z.of_nat i + 1 * (hi - lo)) by lia.
        rewrite Z.mod_add by lia. f_equal. lia.
Qed.

End Replay.

(** X15. A revolution without zero cells is read round and round. With the
    slice [lo .. hi) of revolution [rv] in the buffer and none of its
    samples zero, the calls of [scp_next_flux] that follow [scp_reset]
    return the samples of the slice in order, one a call, and start again
    from the first when the last has been returned: call number [i],
    counted from 0, returns the sample at [lo + i mod (hi - lo)]. *)
Theorem next_flux_replays (s : scp_file_t) (rv lo hi : Z) (smp : Z → Z) (n fuel : nat) :
  slice_start s rv = Ok lo →
  slice_end s rv = Ok hi →
  0 <= lo → lo < hi → hi < 2 ^ 32 →
  (∀ i, lo <= i < hi → sample s i = Some (smp i) ∧ smp i ≠ 0) →
  (1 <= fuel)%nat →
  ∃ s', next_fluxes n fuel (scp_reset s) rv
        = Ok ((λ i : nat, smp (lo + Z.of_nat i mod (hi - lo))) <$> seq 0 n, s').
Proof.
  intros Hs He Hlo Hne Hhi Hsmp Hf.
  destruct (replay_calls rv lo hi s smp fuel Hs He Hlo Hne Hhi Hsmp Hf n (scp_reset s) lo)
    as (s' & H).
  - reflexivity.
  - reflexivity.
  - lia.
  - left. split; [cbn; lia | reflexivity].
  - exists s'. rewrite H. do 2 f_equal. apply list_fmap_ext. intros k i _. cbn.
    do 2 f_equal. f_equal. lia.
Qed.

Lemma next_flux_replays_witness :
  ∃ s', next_fluxes 5 1 (scp_reset Capture.s_three) 0 = Ok ([80; 120; 81; 80; 120], s').
Proof.
  destruct (next_flux_replays Capture.s_three 0 0 3
              (λ i, if i =? 0 then 80 else if i =? 1 then 120 else 81) 5 1
              ltac:(reflexivity) ltac:(reflexivity) ltac:(lia) ltac:(lia) ltac:(lia))
    as (s' & H).
  - intros i Hi. assert (Hc : i = 0 ∨ i = 1 ∨ i = 2) by lia.
    destruct Hc as [-> | [-> | ->]]; split; (reflexivity || discriminate).
  - lia.
  - exists s'. exact H.
Defined.

(** ** The decision window of the PLL *)

Section Window.

Variable fuel : nat.

Lemma pll_clock_bit_is_zero p :
  idiv (clock p) 2 <= isub (flux p) (clock p) →
  pll_clock_bit p
  = (0, {| pll_rev := pll_rev p; clock := clock p; flux := isub (flux p) (clock p);
           time := iadd (time p) (clock p);
           clocked_zeros := iadd (clocked_zeros p) 1 |}).
Proof.
  intros H. unfold pll_clock_bit.
  cbn [set_time set_flux clock flux time clocked_zeros pll_rev].
  destruct (Z.leb_spec (idiv (clock p) 2) (isub (flux p) (clock p))); [reflexivity | lia].
Qed.

Lemma pll_clock_bit_is_one p :
  isub (flux p) (clock p) < idiv (clock p) 2 →
  ∃ p', pll_clock_bit p = (1, p')
        ∧ flux p' = idiv (imul (isub (flux p) (clock p)) (isub 100 PHASE_ADJ_PCT)) 100
        ∧ clocked_zeros p' = 0
        ∧ pll_rev p' = pll_rev p.
Proof.
  intros H. unfold pll_clock_bit.
  cbn [set_time set_flux clock flux time clocked_zeros pll_rev].
  destruct (Z.leb_spec (idiv (clock p) 2) (isub (flux p) (clock p))); [lia|].
  eexists. split; [reflexivity|].
  repeat match goal with
         | |- context [if ?b then _ else _] => destruct b
         end; repeat split.
Qed.

Lemma pll_window_drain (m : nat) : ∀ (p : pll_t) (s : scp_file_t),
  clock_in_band p →
  flux p < 2 ^ 31 →
  idiv (clock p) 2 + Z.of_nat m * clock p <= flux p
    < idiv (clock p) 2 + (Z.of_nat m + 1) * clock p →
  ∃ p', pll_bits (S m) fuel p s = Ok (replicate m 0 ++ [1], p', s)
        ∧ clock_in_band p'
        ∧ flux p' = idiv (imul (flux p - (Z.of_nat m + 1) * clock p)
                            (isub 100 PHASE_ADJ_PCT)) 100
        ∧ clocked_zeros p' = 0
        ∧ pll_rev p' = pll_rev p.
Proof.
  induction m as [|m IH]; intros p s Hb Hlt Hw.
  - pose proof (half_clock p Hb) as [Hh Hh2]. unfold clock_in_band in Hb.
    assert (Hsub : isub (flux p) (clock p) = flux p - clock p)
      by (apply wrap_s_small; lia).
    destruct (pll_clock_bit_is_one p) as (p' & Hbit & Hf & Hz & Hr); [lia|].
    exists p'. split.
    { cbn [pll_bits]. rewrite pll_next_bit_idle by lia. rewrite Hbit.
      cbn [mbind outcome_bind replicate app]. reflexivity. }
    split.
    { pose proof (pll_clock_bit_band p Hb) as Hb'. rewrite Hbit in Hb'. exact Hb'. }
    split.
    { rewrite Hf, Hsub.
      replace (flux p - (Z.of_nat 0 + 1) * clock p) with (flux p - clock p) by ring.
      reflexivity. }
    split; assumption.
  - pose proof (half_clock p Hb) as [Hh Hh2]. pose proof Hb as Hb0.
    unfold clock_in_band in Hb0.
    assert (Hsub : isub (flux p) (clock p) = flux p - clock p)
      by (apply wrap_s_small; nia).
    set (p1 := {| pll_rev := pll_rev p; clock := clock p; flux := flux p - clock p;
                  time := iadd (time p) (clock p);
                  clocked_zeros := iadd (clocked_zeros p) 1 |}).
    assert (Hbit : pll_clock_bit p = (0, p1)).
    { rewrite pll_clock_bit_is_zero by (rewrite Hsub; nia). unfold p1. rewrite Hsub.
      reflexivity. }
    destruct (IH p1 s) as (p' & Hbits & Hb' & Hf & Hz & Hr).
    { exact Hb. }
    { cbn [p1 flux]. lia. }
    { cbn [p1 flux clock]. lia. }
    exists p'. split.
    { remember (S m) as m1 eqn:Em. cbn [pll_bits]. subst m1.
      rewrite pll_next_bit_idle by nia. rewrite Hbit. cbn [mbind outcome_bind].
      rewrite Hbits. cbn [mbind outcome_bind replicate app]. reflexivity. }
    split; [exact Hb'|].
    split.
    { rewrite Hf. cbn [p1 flux clock].
      replace (flux p - clock p - (Z.of_nat m + 1) * clock p)
        with (flux p - (Z.of_nat (S m) + 1) * clock p)
        by (rewrite Nat2Z.inj_succ; ring).
      reflexivity. }
    split; [exact Hz | exact Hr].
Qed.

End Window.

(** X16. The decision window is half a clock period either way. With the
    clock [c] in its band and less than half a period of flux pending, let
    the next flux interval bring the pending flux to [F]. If [F] lies
    within half a period of [m + 1] periods, that is
    [c/2 + m c <= F < c/2 + (m + 1) c], the next [m + 1] calls of
    [pll_next_bit] return [m] zeros and then a one, fetching that interval
    and no other; they leave the clock in its band, the zero count cleared,
    and of the phase error [F - (m + 1) c] the 40 per cent that the phase
    adjustment keeps. *)
Theorem pll_decision_window (fuel : nat) (p : pll_t) (s s' : scp_file_t)
    (v : Z) (m : nat) :
  clock_in_band p →
  - 2 ^ 31 <= flux p < idiv (clock p) 2 →
  scp_next_flux fuel s (wrap_u (pll_rev p)) = Ok (v, s') →
  flux p + 25 * v < 2 ^ 31 →
  idiv (clock p) 2 + Z.of_nat m * clock p <= flux p + 25 * v
    < idiv (clock p) 2 + (Z.of_nat m + 1) * clock p →
  ∃ p', pll_bits (S m) fuel p s = Ok (replicate m 0 ++ [1], p', s')
        ∧ clock_in_band p'
        ∧ clocked_zeros p' = 0
        ∧ flux p' = idiv (imul (flux p + 25 * v - (Z.of_nat m + 1) * clock p)
                            (isub 100 PHASE_ADJ_PCT)) 100.
Proof.
  intros Hb Hfl Hnf Hlt Hw.
  pose proof (half_clock p Hb) as [Hh Hh2]. pose proof Hb as Hb0.
  unfold clock_in_band in Hb0.
  set (p1 := set_flux (flux p + 25 * v) p).
  assert (Hfirst : pll_next_bit fuel p s = pll_next_bit fuel p1 s').
  { unfold pll_next_bit at 1. destruct fuel as [|fuel'].
    { unfold scp_next_flux in Hnf. discriminate. }
    rewrite (pll_accumulate_pass fuel' (S fuel') p s _ _) by
      (first [exact Hnf | lia]).
    rewrite wrap_s_small by nia. fold p1. rewrite pll_accumulate_unfold.
    assert (Hidle : idiv (clock p1) 2 <= flux p1) by (cbn [p1 clock flux set_flux]; nia).
    destruct (Z.ltb_spec (flux p1) (idiv (clock p1) 2)); [lia|].
    cbn [mbind outcome_bind]. rewrite pll_next_bit_idle by exact Hidle. reflexivity. }
  assert (Hbits : pll_bits (S m) fuel p s = pll_bits (S m) fuel p1 s').
  { remember m as m1. cbn [pll_bits]. rewrite Hfirst. reflexivity. }
  destruct (pll_window_drain fuel m p1 s') as (p' & Hd & Hb' & Hf & Hz & Hr).
  { exact Hb. }
  { exact Hlt. }
  { exact Hw. }
  exists p'. split; [rewrite Hbits; exact Hd|].
  split; [exact Hb'|]. split; [exact Hz | exact Hf].
Qed.

Lemma pll_decision_window_witness :
  ∃ p', pll_bits 2 1 (pll_init 0) (scp_reset Edge.s_jitter)
        = Ok ([0; 1], p', set_iter_ptr 1 (set_iter_limit 2 Edge.s_jitter))
        ∧ flux p' = 100.
Proof.
  assert (H : scp_next_flux 1 (scp_reset Edge.s_jitter) (wrap_u (pll_rev (pll_init 0)))
              = Ok (170, set_iter_ptr 1 (set_iter_limit 2 Edge.s_jitter)))
    by reflexivity.
  destruct (pll_decision_window 1 (pll_init 0) _ _ 170 1
              ltac:(vm_compute; split; discriminate)
              ltac:(vm_compute; split; [discriminate | reflexivity])
              H
              ltac:(vm_compute; reflexivity)
              ltac:(vm_compute; split; [discriminate | reflexivity]))
    as (p' & Hbits & _ & _ & Hf).
  exists p'. split; [exact Hbits|]. rewrite Hf. reflexivity.
Defined.
